(** * KRA-Connect request-control layer: rate limiters, cache and retry policy

    A shallow embedding of [kra_connect/rate_limiter.py], [cache.py],
    [config.py], [http_client.py], [validators.py], the field validator of
    [models.py] and the orchestration in [client.py].

    Conventions of the embedding:
    - Python floats (durations, timestamps, token counts) are idealised as
      rationals [Q]; the rounding of IEEE doubles is not modelled, their
      overflow only where the code raises on it ([get_delay]).
    - Python ints are [Z].
    - [time.time()] and [time.sleep()] act on an explicit virtual clock that
      is threaded through every function that touches time.
    - A [while True] loop is a [Fixpoint] on a fuel argument; [None] means
      the loop is still running when the fuel is spent.
    - An exception is the [Raise] constructor of [result].
    - The libraries the code calls ([httpx], [cachetools], [pydantic]) are
      not part of it: the transport and the validation of the model classes
      are arguments of the functions that use them. *)

From Stdlib Require Import ZArith QArith Qabs Qminmax Qround Qpower Lqa Lia.
From Stdlib Require Import NArith List Bool String Ascii Permutation Sorted.
From Stdlib Require Import DecimalString.
Import ListNotations.

Local Open Scope Q_scope.

Set Warnings "-register-all".

(** ** The clock *)

(** The wall clock.  [now] is the time of the last observation, [ticks]
    counts the observations made so far and [lat k] is the time that passes
    before the [k]-th observation returns (scheduling, other callers, the
    time the code itself takes). *)
Module Clock.

Record t := mk { now : Q; ticks : nat; lat : nat -> Q }.

(** [time.time()] *)
Definition time (c : t) : Q * t :=
  let r := now c + lat c (ticks c) in
  (r, mk r (S (ticks c)) (lat c)).

(** [time.monotonic()]: the same virtual time (only differences of its
    readings are ever used). *)
Definition monotonic (c : t) : Q * t := time c.

(** [time.sleep(secs)]; what the call takes beyond [secs] is part of the
    latency of the next observation. *)
Definition sleep (secs : Q) (c : t) : t :=
  mk (now c + secs) (ticks c) (lat c).

(** Time never runs backwards. *)
Definition monotone (c : t) : Prop := forall k, 0 <= lat c k.

(** A clock on which observations cost no time. *)
Definition ideal (start : Q) : t := mk start 0 (fun _ => 0).

End Clock.

(** ** JSON values

    The values that keyword parameters and response bodies carry: [None],
    booleans, integers, strings, lists and dicts with string keys (no
    floats).  A string is a sequence of code points below 256. *)

Inductive json : Type :=
| JNull
| JBool (b : bool)
| JInt (z : Z)
| JStr (s : string)
| JList (l : list json)
| JDict (d : list (string * json)).

(** A Python [dict] with string keys, in insertion order. *)
Definition dict : Type := list (string * json).

(** [d.get(key)] *)
Fixpoint dict_get (d : dict) (key : string) : option json :=
  match d with
  | [] => None
  | (k, v) :: rest => if String.eqb k key then Some v else dict_get rest key
  end.

(** [d.get(key, default)] *)
Definition dict_get_default (d : dict) (key : string) (default : json)
    : json :=
  match dict_get d key with
  | Some v => v
  | None => default
  end.

(** ** exceptions.py *)

Inductive exn : Type :=
| RateLimitExceededError (retry_after : Z)
| ApiTimeoutError (timeout : Q) (endpoint : string)
| ApiAuthenticationError (message : string)
| ApiError (message : json) (status_code : option Z)
| CacheError (message : string) (operation : string)
| InvalidPinFormatError (pin_number : string)
| InvalidTccFormatError (tcc_number : string)
| KraConnectError (message : string)
| OtherException (description : string).
(* [OtherException] stands for any exception from outside the SDK
   ([ValueError], [OverflowError], a validation error of a model class);
   [description] stands for its text [str(e)], for which the model writes
   the name of the class where a library builds the text.  Every other
   constructor is a subclass of [KraConnectError].  The message of an
   [ApiError] is whatever object the code passes, not always a string. *)

(** [status_code] as set by each constructor of the hierarchy. *)
Definition status_code_of (e : exn) : option Z :=
  match e with
  | RateLimitExceededError _ => Some 429%Z
  | ApiAuthenticationError _ => Some 401%Z
  | ApiError _ sc => sc
  | _ => None
  end.

Inductive result (A : Type) : Type :=
| Return (a : A)
| Raise (e : exn).
Arguments Return {A} a.
Arguments Raise {A} e.

(** [x < y] on floats. *)
Definition Qlt_bool (x y : Q) : bool := negb (Qle_bool y x).

(** Python's [int(x)] on a float: truncation towards zero. *)
Definition py_int (x : Q) : Z := Z.quot (Qnum x) (Zpos (Qden x)).

(** ** config.py: RetryConfig *)

Module RetryConfig.

Record t := mk {
  max_attempts : Z;
  initial_delay : Q;
  max_delay : Q;
  exponential_base : Q;
  retry_on_timeout : bool;
  retry_on_rate_limit : bool
}.

Definition default : t := mk 3 1 30 2 true true.

(** [__post_init__]: [true] when no [ValueError] is raised. *)
Definition post_init (c : t) : bool :=
  if (max_attempts c <? 1)%Z then false
  else if Qle_bool (initial_delay c) 0 then false
  else if Qlt_bool (max_delay c) (initial_delay c) then false
  else if Qle_bool (exponential_base c) 1 then false
  else true.



End RetryConfig.

(** ** config.py: RateLimitConfig *)

Module RateLimitConfig.

Record t := mk { max_requests : Z; window_seconds : Z; enabled : bool }.

Definition default : t := mk 100 60 true.

(** [__post_init__]: [true] when no [ValueError] is raised. *)
Definition post_init (c : t) : bool :=
  if (max_requests c <=? 0)%Z then false
  else if (window_seconds c <=? 0)%Z then false
  else true.

End RateLimitConfig.

(** ** rate_limiter.py: TokenBucketRateLimiter *)

Module TokenBucketRateLimiter.

Record t := mk {
  enabled : bool;
  max_requests : Z;
  window_seconds : Z;
  tokens : Q;
  last_refill : Q;
  refill_rate : Q
}.

(** [__init__] *)
Definition init (config : RateLimitConfig.t) (c : Clock.t) : t * Clock.t :=
  let (now, c1) := Clock.time c in
  (mk (RateLimitConfig.enabled config)
      (RateLimitConfig.max_requests config)
      (RateLimitConfig.window_seconds config)
      (inject_Z (RateLimitConfig.max_requests config))
      now
      (inject_Z (RateLimitConfig.max_requests config)
       / inject_Z (RateLimitConfig.window_seconds config)),
   c1).

Definition set_tokens (s : t) (tk : Q) : t :=
  mk (enabled s) (max_requests s) (window_seconds s) tk (last_refill s)
     (refill_rate s).

(** [_refill_tokens] *)
Definition _refill_tokens (s : t) (c : Clock.t) : t * Clock.t :=
  let (now, c1) := Clock.time c in
  let elapsed := now - last_refill s in
  let tokens_to_add := elapsed * refill_rate s in
  (mk (enabled s) (max_requests s) (window_seconds s)
      (Qmin (tokens s + tokens_to_add) (inject_Z (max_requests s)))
      now
      (refill_rate s),
   c1).

(** The body of the [while True] loop of [acquire]. *)
Fixpoint acquire_loop (fuel : nat) (n : Z) (block : bool)
    (timeout : option Q) (start_time : Q) (s : t) (c : Clock.t)
    : option (result bool * t * Clock.t) :=
  match fuel with
  | O => None
  | S fuel' =>
      let (s1, c1) := _refill_tokens s c in
      if Qle_bool (inject_Z n) (tokens s1) then
        Some (Return true, set_tokens s1 (tokens s1 - inject_Z n), c1)
      else if negb block then
        (* [int(self.window_seconds)]: the field is already an int *)
        Some (Raise (RateLimitExceededError (window_seconds s1)), s1, c1)
      else
        let continue (c2 : Clock.t) :=
          let wait_time := (inject_Z n - tokens s1) / refill_rate s1 in
          let wait_time := Qmin wait_time 1 in
          acquire_loop fuel' n block timeout start_time s1
                       (Clock.sleep wait_time c2) in
        match timeout with
        | Some tmo =>
            let (t2, c2) := Clock.time c1 in
            let elapsed := t2 - start_time in
            if Qle_bool tmo elapsed then Some (Return false, s1, c2)
            else continue c2
        | None => continue c1
        end
  end.

(** [acquire(tokens=n, block, timeout)] *)
Definition acquire (fuel : nat) (n : Z) (block : bool) (timeout : option Q)
    (s : t) (c : Clock.t) : option (result bool * t * Clock.t) :=
  if negb (enabled s) then Some (Return true, s, c)
  else
    let (start_time, c0) := Clock.time c in
    acquire_loop fuel n block timeout start_time s c0.

(** [reset] *)
Definition reset (s : t) (c : Clock.t) : t * Clock.t :=
  let (now, c1) := Clock.time c in
  (mk (enabled s) (max_requests s) (window_seconds s)
      (inject_Z (max_requests s)) now (refill_rate s), c1).

(** [get_available_tokens]: [int()] truncates towards zero. *)
Definition get_available_tokens (s : t) (c : Clock.t) : Z * t * Clock.t :=
  let (s1, c1) := _refill_tokens s c in
  (py_int (tokens s1), s1, c1).

(** [get_wait_time]; the quotient is the exact one, which the double the
    code returns only approximates. *)
Definition get_wait_time (n : Z) (s : t) (c : Clock.t) : Q * t * Clock.t :=
  let (s1, c1) := _refill_tokens s c in
  if Qle_bool (inject_Z n) (tokens s1) then (0, s1, c1)
  else ((inject_Z n - tokens s1) / refill_rate s1, s1, c1).

(** The body of the [while True] loop of [acquire_async]. *)
Fixpoint acquire_async_loop (fuel : nat) (n : Z) (timeout : option Q)
    (start_time : Q) (s : t) (c : Clock.t) : option (bool * t * Clock.t) :=
  match fuel with
  | O => None
  | S fuel' =>
      let (s1, c1) := _refill_tokens s c in
      if Qle_bool (inject_Z n) (tokens s1) then
        Some (true, set_tokens s1 (tokens s1 - inject_Z n), c1)
      else
        let continue (c2 : Clock.t) :=
          let wait_time := (inject_Z n - tokens s1) / refill_rate s1 in
          let wait_time := Qmin wait_time 1 in
          acquire_async_loop fuel' n timeout start_time s1
                             (Clock.sleep wait_time c2) in
        match timeout with
        | Some tmo =>
            let (t2, c2) := Clock.time c1 in
            let elapsed := t2 - start_time in
            if Qle_bool tmo elapsed then Some (false, s1, c2)
            else continue c2
        | None => continue c1
        end
  end.

(** [acquire_async(tokens=n, timeout)] as the one running task sees it:
    [await asyncio.sleep(w)] lets [w] seconds pass and no other task
    touches the limiter meanwhile. *)
Definition acquire_async (fuel : nat) (n : Z) (timeout : option Q)
    (s : t) (c : Clock.t) : option (bool * t * Clock.t) :=
  if negb (enabled s) then Some (true, s, c)
  else
    let (start_time, c0) := Clock.time c in
    acquire_async_loop fuel n timeout start_time s c0.

End TokenBucketRateLimiter.

(** A caller's use of one limiter over time. [fuel] bounds how long the
    caller is prepared to stay inside a blocking [acquire]. *)
Inductive tb_op : Type :=
| TbAcquire (fuel : nat) (n : Z) (block : bool) (timeout : option Q)
| TbGetAvailableTokens
| TbGetWaitTime (n : Z)
| TbReset.

Definition tb_step (o : tb_op) (s : TokenBucketRateLimiter.t) (c : Clock.t)
    : option (TokenBucketRateLimiter.t * Clock.t) :=
  match o with
  | TbAcquire fuel n block timeout =>
      match TokenBucketRateLimiter.acquire fuel n block timeout s c with
      | Some (_, s', c') => Some (s', c')
      | None => None
      end
  | TbGetAvailableTokens =>
      let '(_, s', c') := TokenBucketRateLimiter.get_available_tokens s c in
      Some (s', c')
  | TbGetWaitTime n =>
      let '(_, s', c') := TokenBucketRateLimiter.get_wait_time n s c in
      Some (s', c')
  | TbReset => Some (TokenBucketRateLimiter.reset s c)
  end.

Fixpoint tb_run (ops : list tb_op) (s : TokenBucketRateLimiter.t)
    (c : Clock.t) : option (TokenBucketRateLimiter.t * Clock.t) :=
  match ops with
  | [] => Some (s, c)
  | o :: ops' =>
      match tb_step o s c with
      | Some (s', c') => tb_run ops' s' c'
      | None => None
      end
  end.

(** No acquisition of the sequence asks for a negative number of tokens. *)
Definition tb_nonneg (o : tb_op) : Prop :=
  match o with
  | TbAcquire _ n _ _ => (0 <= n)%Z
  | _ => True
  end.

(** ** rate_limiter.py: SlidingWindowRateLimiter *)

Module SlidingWindowRateLimiter.

(** [requests] is the deque, leftmost (oldest) element first. *)
Record t := mk {
  enabled : bool;
  max_requests : Z;
  window_seconds : Z;
  requests : list Q
}.

(** [__init__] *)
Definition init (config : RateLimitConfig.t) : t :=
  mk (RateLimitConfig.enabled config)
     (RateLimitConfig.max_requests config)
     (RateLimitConfig.window_seconds config)
     [].

(** [while self.requests and self.requests[0] < cutoff: popleft()] *)
Fixpoint popleft_while (cutoff : Q) (requests : list Q) : list Q :=
  match requests with
  | [] => []
  | r :: rest =>
      if Qlt_bool r cutoff then popleft_while cutoff rest else requests
  end.

(** [_clean_old_requests]; the clock reading is returned for reference. *)
Definition _clean_old_requests (s : t) (c : Clock.t) : Q * t * Clock.t :=
  let (now, c1) := Clock.time c in
  let cutoff := now - inject_Z (window_seconds s) in
  (now,
   mk (enabled s) (max_requests s) (window_seconds s)
      (popleft_while cutoff (requests s)),
   c1).

Definition len (s : t) : Z := Z.of_nat (List.length (requests s)).

Definition append (s : t) (x : Q) : t :=
  mk (enabled s) (max_requests s) (window_seconds s) (requests s ++ [x]).

(** The body of the [while True] loop of [acquire]. *)
Fixpoint acquire_loop (fuel : nat) (block : bool) (timeout : option Q)
    (start_time : Q) (s : t) (c : Clock.t)
    : option (result bool * t * Clock.t) :=
  match fuel with
  | O => None
  | S fuel' =>
      let '(_, s1, c1) := _clean_old_requests s c in
      if (len s1 <? max_requests s1)%Z then
        let (stamp, c2) := Clock.time c1 in
        Some (Return true, append s1 stamp, c2)
      else if negb block then
        Some (Raise (RateLimitExceededError (window_seconds s1)), s1, c1)
      else
        let continue (c2 : Clock.t) :=
          let (wait_time, c3) :=
            match requests s1 with
            | oldest_request :: _ =>
                let (t3, c3) := Clock.time c2 in
                let wait_time :=
                  (oldest_request + inject_Z (window_seconds s1)) - t3 in
                (Qmax 0.1 (Qmin wait_time 1), c3)
            | [] => (0.1, c2)
            end in
          acquire_loop fuel' block timeout start_time s1
                       (Clock.sleep wait_time c3) in
        match timeout with
        | Some tmo =>
            let (t2, c2) := Clock.time c1 in
            let elapsed := t2 - start_time in
            if Qle_bool tmo elapsed then Some (Return false, s1, c2)
            else continue c2
        | None => continue c1
        end
  end.

(** [acquire(block, timeout)] *)
Definition acquire (fuel : nat) (block : bool) (timeout : option Q)
    (s : t) (c : Clock.t) : option (result bool * t * Clock.t) :=
  if negb (enabled s) then Some (Return true, s, c)
  else
    let (start_time, c0) := Clock.time c in
    acquire_loop fuel block timeout start_time s c0.

(** [reset] *)
Definition reset (s : t) : t :=
  mk (enabled s) (max_requests s) (window_seconds s) [].

(** [get_request_count] *)
Definition get_request_count (s : t) (c : Clock.t) : Z * t * Clock.t :=
  let '(_, s1, c1) := _clean_old_requests s c in
  (len s1, s1, c1).

(** The body of the [while True] loop of [acquire_async]. *)
Fixpoint acquire_async_loop (fuel : nat) (timeout : option Q)
    (start_time : Q) (s : t) (c : Clock.t) : option (bool * t * Clock.t) :=
  match fuel with
  | O => None
  | S fuel' =>
      let '(_, s1, c1) := _clean_old_requests s c in
      if (len s1 <? max_requests s1)%Z then
        let (stamp, c2) := Clock.time c1 in
        Some (true, append s1 stamp, c2)
      else
        let continue (c2 : Clock.t) :=
          let (wait_time, c3) :=
            match requests s1 with
            | oldest_request :: _ =>
                let (t3, c3) := Clock.time c2 in
                let wait_time :=
                  (oldest_request + inject_Z (window_seconds s1)) - t3 in
                (Qmax 0.1 (Qmin wait_time 1), c3)
            | [] => (0.1, c2)
            end in
          acquire_async_loop fuel' timeout start_time s1
                             (Clock.sleep wait_time c3) in
        match timeout with
        | Some tmo =>
            let (t2, c2) := Clock.time c1 in
            let elapsed := t2 - start_time in
            if Qle_bool tmo elapsed then Some (false, s1, c2)
            else continue c2
        | None => continue c1
        end
  end.

(** [acquire_async(timeout)] as the one running task sees it. *)
Definition acquire_async (fuel : nat) (timeout : option Q)
    (s : t) (c : Clock.t) : option (bool * t * Clock.t) :=
  if negb (enabled s) then Some (true, s, c)
  else
    let (start_time, c0) := Clock.time c in
    acquire_async_loop fuel timeout start_time s c0.

End SlidingWindowRateLimiter.

Inductive sw_op : Type :=
| SwAcquire (fuel : nat) (block : bool) (timeout : option Q)
| SwGetRequestCount
| SwReset.

Definition sw_step (o : sw_op) (s : SlidingWindowRateLimiter.t) (c : Clock.t)
    : option (SlidingWindowRateLimiter.t * Clock.t) :=
  match o with
  | SwAcquire fuel block timeout =>
      match SlidingWindowRateLimiter.acquire fuel block timeout s c with
      | Some (_, s', c') => Some (s', c')
      | None => None
      end
  | SwGetRequestCount =>
      let '(_, s', c') := SlidingWindowRateLimiter.get_request_count s c in
      Some (s', c')
  | SwReset => Some (SlidingWindowRateLimiter.reset s, c)
  end.

Fixpoint sw_run (ops : list sw_op) (s : SlidingWindowRateLimiter.t)
    (c : Clock.t) : option (SlidingWindowRateLimiter.t * Clock.t) :=
  match ops with
  | [] => Some (s, c)
  | o :: ops' =>
      match sw_step o s c with
      | Some (s', c') => sw_run ops' s' c'
      | None => None
      end
  end.


(** ** hashlib.md5

    The digest of RFC 1321 on a list of bytes. *)

Module MD5.

Local Open Scope N_scope.

Definition mask32 : N := 0xffffffff.
Definition add32 (a b : N) : N := N.land (a + b) mask32.
Definition not32 (a : N) : N := N.lxor a mask32.
Definition rotl32 (x n : N) : N :=
  N.lor (N.land (N.shiftl x n) mask32) (N.shiftr x (32 - n)).

(** Per-round shift amounts. *)
Definition S : list N :=
  [7; 12; 17; 22; 7; 12; 17; 22; 7; 12; 17; 22; 7; 12; 17; 22;
   5; 9; 14; 20; 5; 9; 14; 20; 5; 9; 14; 20; 5; 9; 14; 20;
   4; 11; 16; 23; 4; 11; 16; 23; 4; 11; 16; 23; 4; 11; 16; 23;
   6; 10; 15; 21; 6; 10; 15; 21; 6; 10; 15; 21; 6; 10; 15; 21].

(** [K[i] = floor(2^32 * abs(sin(i + 1)))] *)
Definition K : list N :=
  [0xd76aa478; 0xe8c7b756; 0x242070db; 0xc1bdceee;
   0xf57c0faf; 0x4787c62a; 0xa8304613; 0xfd469501;
   0x698098d8; 0x8b44f7af; 0xffff5bb1; 0x895cd7be;
   0x6b901122; 0xfd987193; 0xa679438e; 0x49b40821;
   0xf61e2562; 0xc040b340; 0x265e5a51; 0xe9b6c7aa;
   0xd62f105d; 0x02441453; 0xd8a1e681; 0xe7d3fbc8;
   0x21e1cde6; 0xc33707d6; 0xf4d50d87; 0x455a14ed;
   0xa9e3e905; 0xfcefa3f8; 0x676f02d9; 0x8d2a4c8a;
   0xfffa3942; 0x8771f681; 0x6d9d6122; 0xfde5380c;
   0xa4beea44; 0x4bdecfa9; 0xf6bb4b60; 0xbebfbc70;
   0x289b7ec6; 0xeaa127fa; 0xd4ef3085; 0x04881d05;
   0xd9d4d039; 0xe6db99e5; 0x1fa27cf8; 0xc4ac5665;
   0xf4292244; 0x432aff97; 0xab9423a7; 0xfc93a039;
   0x655b59c3; 0x8f0ccc92; 0xffeff47d; 0x85845dd1;
   0x6fa87e4f; 0xfe2ce6e0; 0xa3014314; 0x4e0811a1;
   0xf7537e82; 0xbd3af235; 0x2ad7d2bb; 0xeb86d391].

Definition state : Type := N * N * N * N.

Definition init_state : state :=
  (0x67452301, 0xefcdab89, 0x98badcfe, 0x10325476).

Definition round (M : list N) (st : state) (i : nat) : state :=
  let '(a, b, c, d) := st in
  let i' := N.of_nat i in
  let '(f, g) :=
    if i' <? 16 then (N.lor (N.land b c) (N.land (not32 b) d), i')
    else if i' <? 32 then
      (N.lor (N.land d b) (N.land (not32 d) c), (5 * i' + 1) mod 16)
    else if i' <? 48 then (N.lxor b (N.lxor c d), (3 * i' + 5) mod 16)
    else (N.lxor c (N.lor b (not32 d)), (7 * i') mod 16) in
  let f' := add32 (add32 (add32 f a) (nth i K 0)) (nth (N.to_nat g) M 0) in
  (d, add32 b (rotl32 f' (nth i S 0)), b, c).

(** Four bytes, least significant first, as a word and back. *)
Definition word_of_bytes (bs : list N) : N :=
  match bs with
  | [b0; b1; b2; b3] =>
      b0 + N.shiftl b1 8 + N.shiftl b2 16 + N.shiftl b3 24
  | _ => 0
  end.

Definition bytes_of_word (w : N) : list N :=
  [N.land w 0xff; N.land (N.shiftr w 8) 0xff;
   N.land (N.shiftr w 16) 0xff; N.land (N.shiftr w 24) 0xff].

Fixpoint words (n : nat) (bs : list N) : list N :=
  match n with
  | O => []
  | Datatypes.S n' => word_of_bytes (firstn 4 bs) :: words n' (skipn 4 bs)
  end.

Definition process_chunk (st : state) (chunk : list N) : state :=
  let M := words 16 chunk in
  let '(a, b, c, d) := fold_left (round M) (seq 0 64) st in
  let '(a0, b0, c0, d0) := st in
  (add32 a0 a, add32 b0 b, add32 c0 c, add32 d0 d).

Fixpoint process (n : nat) (st : state) (bs : list N) : state :=
  match n with
  | O => st
  | Datatypes.S n' =>
      process n' (process_chunk st (firstn 64 bs)) (skipn 64 bs)
  end.

(** The message, a 1 bit, zeros up to 56 modulo 64 and the length in bits
    as 8 bytes, least significant first. *)
Definition pad (msg : list N) : list N :=
  let len := N.of_nat (List.length msg) in
  let zeros := N.to_nat ((55 + 64 - len mod 64) mod 64) in
  let bits := (8 * len) mod 2 ^ 64 in
  msg ++ [0x80] ++ repeat 0 zeros
      ++ bytes_of_word (N.land bits mask32)
      ++ bytes_of_word (N.shiftr bits 32).

(** [hashlib.md5(data).digest()] *)
Definition digest (msg : list N) : list N :=
  let padded := pad msg in
  let '(a, b, c, d) :=
    process (Nat.div (List.length padded) 64) init_state padded in
  bytes_of_word a ++ bytes_of_word b ++ bytes_of_word c ++ bytes_of_word d.

Definition hex_digit (n : N) : ascii :=
  nth (N.to_nat n) (list_ascii_of_string "0123456789abcdef") "0"%char.

Definition hex_of_byte (b : N) : string :=
  String (hex_digit (N.shiftr b 4)) (String (hex_digit (N.land b 0xf)) EmptyString).

(** [hashlib.md5(data).hexdigest()] for [data = s.encode()], [s] a string
    of ASCII characters. *)
Definition hexdigest (s : string) : string :=
  String.concat EmptyString (map hex_of_byte
                        (digest (map N_of_ascii (list_ascii_of_string s)))).

Local Close Scope N_scope.

End MD5.

(** ** [json.dumps] *)

Definition dquote : string := String "034" EmptyString.
Definition backslash : string := String "092" EmptyString.

(** [str(z)] *)
Definition str_of_Z (z : Z) : string := NilZero.string_of_int (Z.to_int z).

Module Json.

(** The escape [json.dumps] (with [ensure_ascii]) writes for one
    character. *)
Definition escape_char (c : ascii) : string :=
  let n := N_of_ascii c in
  if (n =? 34)%N then backslash ++ dquote
  else if (n =? 92)%N then backslash ++ backslash
  else if (n =? 10)%N then backslash ++ "n"
  else if (n =? 13)%N then backslash ++ "r"
  else if (n =? 9)%N then backslash ++ "t"
  else if (n =? 8)%N then backslash ++ "b"
  else if (n =? 12)%N then backslash ++ "f"
  else if ((n <? 32) || (126 <? n))%N then
    backslash ++ "u00" ++ MD5.hex_of_byte n
  else String c EmptyString.

Definition dumps_str (s : string) : string :=
  dquote ++ String.concat EmptyString
              (map escape_char (list_ascii_of_string s))
         ++ dquote.

(** [sorted(d.items())]: the keys of a dict are distinct, so the order is
    the order of the keys. *)
Fixpoint insert_item {A : Type} (x : string * A) (l : list (string * A))
    : list (string * A) :=
  match l with
  | [] => [x]
  | y :: rest =>
      if String.leb (fst x) (fst y) then x :: l
      else y :: insert_item x rest
  end.

Fixpoint sorted_items {A : Type} (d : list (string * A))
    : list (string * A) :=
  match d with
  | [] => []
  | x :: rest => insert_item x (sorted_items rest)
  end.

(** One [key: value] member, the value already written out. *)
Definition dumps_item (x : string * string) : string :=
  dumps_str (fst x) ++ ": " ++ snd x.

(** [json.dumps(v, sort_keys=True)]: the members of every dict are
    written in the order of their keys. *)
Fixpoint dumps_value (v : json) : string :=
  match v with
  | JNull => "null"
  | JBool true => "true"
  | JBool false => "false"
  | JInt z => str_of_Z z
  | JStr s => dumps_str s
  | JList l => "[" ++ String.concat ", " (map dumps_value l) ++ "]"
  | JDict d =>
      "{" ++ String.concat ", "
               (map dumps_item
                    (sorted_items
                       (map (fun kv => (fst kv, dumps_value (snd kv))) d)))
          ++ "}"
  end.

(** [json.dumps(d, sort_keys=True)] for a dict *)
Definition dumps_sort_keys (d : dict) : string := dumps_value (JDict d).

End Json.

(** ** config.py: CacheConfig *)

Module CacheConfig.

(** The [backend] field is left out: the in-memory backend is the one
    modelled. *)
Record t := mk { enabled : bool; ttl : Z; max_size : Z }.

Definition default : t := mk true 3600 1000.

(** [__post_init__]: [true] when no [ValueError] is raised. *)
Definition post_init (c : t) : bool :=
  if (ttl c <=? 0)%Z then false
  else if (max_size c <=? 0)%Z then false
  else true.

End CacheConfig.

(** ** cachetools.TTLCache *)

(** Modelled from the spec: the in-memory store behind
    [MemoryCacheBackend], the third-party class [cachetools.TTLCache],
    which is not part of the repository.  It has bounded size with the
    oldest item evicted first and per-entry expiry: an item expires [ttl]
    seconds after it was stored, [ttl] being the one value the constructor
    received.  Every item has size 1; the timer is [time.monotonic]. *)
Module TTLCache.

Section Items.
Variable V : Type.

(** [links]: key, value and expiry time, oldest first. *)
Record t := mk { maxsize : Z; ttl : Q; links : list (string * V * Q) }.

Definition link_key (l : string * V * Q) : string := fst (fst l).
Definition link_expires (l : string * V * Q) : Q := snd l.

Fixpoint find (key : string) (ls : list (string * V * Q))
    : option (V * Q) :=
  match ls with
  | [] => None
  | (k, v, e) :: rest => if String.eqb k key then Some (v, e)
                         else find key rest
  end.

Definition remove (key : string) (ls : list (string * V * Q))
    : list (string * V * Q) :=
  filter (fun l => negb (String.eqb (link_key l) key)) ls.

(** [expire(time)]: drop expired items from the old end. *)
Fixpoint expire_links (time : Q) (ls : list (string * V * Q))
    : list (string * V * Q) :=
  match ls with
  | [] => []
  | l :: rest =>
      if Qlt_bool time (link_expires l) then ls else expire_links time rest
  end.

(** [key in cache] at timer reading [time] *)
Definition contains (time : Q) (key : string) (c : t) : bool :=
  match find key (links c) with
  | Some (_, e) => Qlt_bool time e
  | None => false
  end.

(** [cache[key]] at timer reading [time]; [None] is [KeyError]. *)
Definition getitem (time : Q) (key : string) (c : t) : option V :=
  match find key (links c) with
  | Some (v, e) => if Qlt_bool time e then Some v else None
  | None => None
  end.

(** [while currsize + 1 > maxsize: popitem()] *)
Fixpoint evict (maxsize : Z) (ls : list (string * V * Q))
    : list (string * V * Q) :=
  match ls with
  | [] => []
  | _ :: rest =>
      if (maxsize <? Z.of_nat (List.length ls) + 1)%Z then evict maxsize rest
      else ls
  end.

(** [cache[key] = value] at timer reading [time]; the left result is the
    cache after the [ValueError] for a value larger than [maxsize]. *)
Definition setitem (time : Q) (key : string) (value : V) (c : t)
    : t + t :=
  let live := expire_links time (links c) in
  if (maxsize c <? 1)%Z then inl (mk (maxsize c) (ttl c) live)
  else
    let kept :=
      match find key live with
      | Some _ => remove key live
      | None => evict (maxsize c) live
      end in
    inr (mk (maxsize c) (ttl c) (kept ++ [(key, value, time + ttl c)])).

(** [del cache[key]] *)
Definition delitem (key : string) (c : t) : t :=
  mk (maxsize c) (ttl c) (remove key (links c)).

Definition clear (c : t) : t := mk (maxsize c) (ttl c) [].

(** [iter(cache)], which [cache.keys()] runs: the keys of the items that
    have not expired, oldest first; the timer is consulted once for each
    item. *)
Fixpoint keys (ls : list (string * V * Q)) (c : Clock.t)
    : list string * Clock.t :=
  match ls with
  | [] => ([], c)
  | l :: rest =>
      let (time, c1) := Clock.monotonic c in
      let (ks, c2) := keys rest c1 in
      (if Qlt_bool time (link_expires l) then link_key l :: ks else ks, c2)
  end.

End Items.

Arguments mk {V}.
Arguments maxsize {V}.
Arguments ttl {V}.
Arguments links {V}.
Arguments find {V}.
Arguments remove {V}.
Arguments expire_links {V}.
Arguments contains {V}.
Arguments getitem {V}.
Arguments evict {V}.
Arguments setitem {V}.
Arguments delitem {V}.
Arguments clear {V}.
Arguments keys {V}.

End TTLCache.

(** ** cache.py *)

(** [V] is the type of the Python objects handed to the cache, [None]
    excluded; an [Optional] value is an [option V]. *)

(** [CacheEntry] *)
Module CacheEntry.

Record t (V : Type) := mk { value : option V; expires_at : Q }.
Arguments mk {V}.
Arguments value {V}.
Arguments expires_at {V}.

(** [is_expired] *)
Definition is_expired {V : Type} (e : t V) (c : Clock.t) : bool * Clock.t :=
  let (now, c1) := Clock.time c in
  (Qle_bool (expires_at e) now, c1).

End CacheEntry.

(** What the backend may hold under a key: a [CacheEntry] or any other
    object ([isinstance(entry, CacheEntry)] tells them apart). *)
Inductive cached (V : Type) : Type :=
| IsEntry (e : CacheEntry.t V)
| IsOther (v : V).
Arguments IsEntry {V} e.
Arguments IsOther {V} v.

Module MemoryCacheBackend.

Record t (V : Type) := mk { ttl : Z; _cache : TTLCache.t (cached V) }.
Arguments mk {V}.
Arguments ttl {V}.
Arguments _cache {V}.

(** [__init__] *)
Definition init {V : Type} (max_size : Z) (ttl : Z) : t V :=
  mk ttl (TTLCache.mk max_size (inject_Z ttl) []).

(** [get]: [self._cache.get(key)] is [self[key] if key in self else None],
    each of the two consulting the timer; a [KeyError] in between is
    caught and gives [None]. *)
Definition get {V : Type} (key : string) (b : t V) (c : Clock.t)
    : option (cached V) * Clock.t :=
  let (t1, c1) := Clock.monotonic c in
  if TTLCache.contains t1 key (_cache b) then
    let (t2, c2) := Clock.monotonic c1 in
    (TTLCache.getitem t2 key (_cache b), c2)
  else (None, c1).

(** [set]: the [ttl] argument is not used. *)
Definition set {V : Type} (key : string) (value : cached V) (ttl_arg : Z)
    (b : t V) (c : Clock.t) : result unit * t V * Clock.t :=
  let (t1, c1) := Clock.monotonic c in
  match TTLCache.setitem t1 key value (_cache b) with
  | inr cache' => (Return tt, mk (ttl b) cache', c1)
  | inl cache' =>
      (Raise (CacheError "Failed to store in cache: value too large" "set"),
       mk (ttl b) cache', c1)
  end.

(** [delete] *)
Definition delete {V : Type} (key : string) (b : t V) (c : Clock.t)
    : t V * Clock.t :=
  let (t1, c1) := Clock.monotonic c in
  if TTLCache.contains t1 key (_cache b) then
    let (_, c2) := Clock.monotonic c1 in
    (mk (ttl b) (TTLCache.delitem key (_cache b)), c2)
  else (b, c1).

(** [clear] *)
Definition clear {V : Type} (b : t V) : t V :=
  mk (ttl b) (TTLCache.clear (_cache b)).

End MemoryCacheBackend.

Module CacheManager.

Record t (V : Type) := mk {
  config : CacheConfig.t;
  enabled : bool;
  backend : MemoryCacheBackend.t V
}.
Arguments mk {V}.
Arguments config {V}.
Arguments enabled {V}.
Arguments backend {V}.

(** [__init__] with [config.backend] unset *)
Definition init {V : Type} (config : CacheConfig.t) : t V :=
  mk config (CacheConfig.enabled config)
     (MemoryCacheBackend.init (CacheConfig.max_size config)
                              (CacheConfig.ttl config)).

Definition with_backend {V : Type} (m : t V) (b : MemoryCacheBackend.t V)
    : t V :=
  mk (config m) (enabled m) b.

(** [generate_key(prefix, **kwargs)] *)
Definition generate_key (prefix : string) (kwargs : dict) : string :=
  let param_string := Json.dumps_sort_keys kwargs in
  let hash_hex := MD5.hexdigest param_string in
  prefix ++ ":" ++ hash_hex.

(** [delete] *)
Definition delete {V : Type} (key : string) (m : t V) (c : Clock.t)
    : t V * Clock.t :=
  if negb (enabled m) then (m, c)
  else
    let (b', c1) := MemoryCacheBackend.delete key (backend m) c in
    (with_backend m b', c1).

(** [get] *)
Definition get {V : Type} (key : string) (m : t V) (c : Clock.t)
    : option V * t V * Clock.t :=
  if negb (enabled m) then (None, m, c)
  else
    let (entry, c1) := MemoryCacheBackend.get key (backend m) c in
    match entry with
    | None => (None, m, c1)
    | Some (IsEntry e) =>
        let (expired, c2) := CacheEntry.is_expired e c1 in
        if expired then
          let (m', c3) := delete key m c2 in (None, m', c3)
        else (CacheEntry.value e, m, c2)
    | Some (IsOther v) => (Some v, m, c1)
    end.

(** [ttl or self.config.ttl] *)
Definition ttl_or_default (ttl : option Z) (default : Z) : Z :=
  match ttl with
  | Some t => if (t =? 0)%Z then default else t
  | None => default
  end.

(** [set] *)
Definition set {V : Type} (key : string) (value : option V)
    (ttl : option Z) (m : t V) (c : Clock.t) : t V * Clock.t :=
  if negb (enabled m) then (m, c)
  else
    let ttl := ttl_or_default ttl (CacheConfig.ttl (config m)) in
    if (ttl <=? 0)%Z then (m, c)
    else
      let (now, c1) := Clock.time c in
      let entry := CacheEntry.mk value (now + inject_Z ttl) in
      (* a [CacheError] from the backend is logged and dropped *)
      let '(_, b', c2) :=
        MemoryCacheBackend.set key (IsEntry entry) ttl (backend m) c1 in
      (with_backend m b', c2).

(** [clear] *)
Definition clear {V : Type} (m : t V) : t V :=
  if negb (enabled m) then m
  else with_backend m (MemoryCacheBackend.clear (backend m)).

(** [pattern.replace("*", EmptyString)]: every asterisk is dropped. *)
Fixpoint remove_asterisks (pattern : string) : string :=
  match pattern with
  | EmptyString => EmptyString
  | String a rest =>
      if Ascii.eqb a "*" then remove_asterisks rest
      else String a (remove_asterisks rest)
  end.

(** [needle in key] on strings: [needle] occurs in [key] as a substring. *)
Fixpoint str_in (needle key : string) : bool :=
  String.prefix needle key
  || match key with
     | EmptyString => false
     | String _ rest => str_in needle rest
     end.

(** [invalidate_pattern]: the list of keys is built before the first
    delete; the backend is always a [MemoryCacheBackend] here. *)
Definition invalidate_pattern {V : Type} (pattern : string) (m : t V)
    (c : Clock.t) : t V * Clock.t :=
  if negb (enabled m) then (m, c)
  else
    let (ks, c1) :=
      TTLCache.keys (TTLCache.links (MemoryCacheBackend._cache (backend m)))
                    c in
    let keys_to_delete :=
      filter (fun key => str_in (remove_asterisks pattern) key) ks in
    fold_left (fun (mc : t V * Clock.t) key => delete key (fst mc) (snd mc))
              keys_to_delete (m, c1).

(** [get_or_set]; the factory is a Python callable without
    arguments, here a function that may raise. *)
Definition get_or_set {V : Type} (key : string)
    (factory_fn : unit -> result (option V)) (ttl : option Z)
    (m : t V) (c : Clock.t)
    : result (option V) * t V * Clock.t :=
  let '(cached_value, m1, c1) := get key m c in
  match cached_value with
  | Some v => (Return (Some v), m1, c1)
  | None =>
      match factory_fn tt with
      | Return value =>
          let (m2, c2) := set key value ttl m1 c1 in
          (Return value, m2, c2)
      | Raise e => (Raise e, m1, c1)
      end
  end.

End CacheManager.

(** ** config.py: KraConfig *)

Module KraConfig.

Record t := mk {
  api_key : string;
  base_url : string;
  timeout : Q;
  verify_ssl : bool;
  retry_config : RetryConfig.t;
  cache_config : CacheConfig.t;
  rate_limit_config : RateLimitConfig.t;
  log_level : string;
  user_agent : string
}.

Fixpoint lstrip_char (ch : ascii) (l : list ascii) : list ascii :=
  match l with
  | c :: rest => if Ascii.eqb c ch then lstrip_char ch rest else l
  | [] => []
  end.

(** [s.rstrip(ch)] for a one-character [ch] *)
Definition rstrip_char (ch : ascii) (s : string) : string :=
  string_of_list_ascii (rev (lstrip_char ch (rev (list_ascii_of_string s)))).

Definition log_levels : list string :=
  ["DEBUG"; "INFO"; "WARNING"; "ERROR"; "CRITICAL"]%string.

(** [__post_init__]: the configuration it leaves, [None] when it raises
    [ValueError]. *)
Definition post_init (c : t) : option t :=
  if String.eqb (api_key c) EmptyString then None
  else if Qle_bool (timeout c) 0 then None
  else if negb (existsb (String.eqb (log_level c)) log_levels) then None
  else
    Some (mk (api_key c) (rstrip_char "/" (base_url c)) (timeout c)
             (verify_ssl c) (retry_config c) (cache_config c)
             (rate_limit_config c) (log_level c) (user_agent c)).

End KraConfig.

(** ** Python strings (ASCII) *)

Definition is_space (c : ascii) : bool :=
  let n := N_of_ascii c in
  (((9 <=? n) && (n <=? 13)) || ((28 <=? n) && (n <=? 32)))%N.

Definition is_digit (c : ascii) : bool :=
  let n := N_of_ascii c in ((48 <=? n) && (n <=? 57))%N.

Definition is_upper (c : ascii) : bool :=
  let n := N_of_ascii c in ((65 <=? n) && (n <=? 90))%N.

Definition upper_char (c : ascii) : ascii :=
  let n := N_of_ascii c in
  if ((97 <=? n) && (n <=? 122))%N then ascii_of_N (n - 32) else c.

Fixpoint lstrip (l : list ascii) : list ascii :=
  match l with
  | c :: rest => if is_space c then lstrip rest else l
  | [] => []
  end.

(** [s.strip()] *)
Definition strip (s : string) : string :=
  string_of_list_ascii
    (rev (lstrip (rev (lstrip (list_ascii_of_string s))))).

(** [s.upper()] *)
Definition upper (s : string) : string :=
  string_of_list_ascii (map upper_char (list_ascii_of_string s)).

(** The digits of a decimal literal: single underscores are allowed between
    digits.  [seen] tells whether the character before was a digit; the
    result is the value and the number of digits. *)
Fixpoint int_literal_digits (l : list ascii) (seen : bool) (acc : Z)
    (count : nat) : option (Z * nat) :=
  match l with
  | [] => if seen then Some (acc, count) else None
  | c :: rest =>
      if is_digit c then
        int_literal_digits rest true
          (10 * acc + (Z.of_N (N_of_ascii c) - 48))%Z (S count)
      else if Ascii.eqb c "_" && seen then
        int_literal_digits rest false acc count
      else None
  end.

(** [int(s)] on a string: surrounding whitespace, an optional sign, then
    decimal digits; [None] is [ValueError], which a literal of more than
    4300 digits raises as well ([sys.int_max_str_digits], Python 3.11). *)
Definition int_of_string (s : string) : option Z :=
  let l := list_ascii_of_string (strip s) in
  let (negative, digits) :=
    match l with
    | c :: rest =>
        if Ascii.eqb c "-" then (true, rest)
        else if Ascii.eqb c "+" then (false, rest)
        else (false, l)
    | [] => (false, l)
    end in
  match int_literal_digits digits false 0 0 with
  | Some (z, count) =>
      if (4300 <? count)%nat then None
      else Some (if negative then (- z)%Z else z)
  | None => None
  end.

(** ** The transport (httpx) *)

(** Modelled from the spec: the HTTP transport, the third-party library
    [httpx], as a callable that sends one request and gives a response or a
    failure.  [respond k req] is the outcome of [req] when it is the [k]-th
    request to leave the client; [sent] records the requests in the order
    they left. *)
Inductive http_method : Type := GET | POST | PUT | DELETE.

Record request := mk_request {
  req_method : http_method;
  req_endpoint : string;
  req_data : option dict;
  req_json : option dict
}.

(** [body] is [response.json()], [None] when the body is not JSON; a
    body that is JSON is taken to be an object, the [Dict[str, Any]] that
    [_handle_response] declares it returns.  [retry_after] is
    [response.headers.get("Retry-After")], the text of the header, [None]
    when the response has none. *)
Record response := mk_response {
  status_code : Z;
  body : option dict;
  retry_after : option string
}.

Inductive outcome : Type :=
| Responds (r : response)
| TimeoutException (message : string)
| NetworkError (message : string)
| HTTPError (message : string).

Module Transport.

Record t := mk { respond : nat -> request -> outcome; sent : list request }.

Definition send (req : request) (tr : t) : outcome * t :=
  (respond tr (List.length (sent tr)) req,
   mk (respond tr) (sent tr ++ [req])).

End Transport.

(** ** http_client.py *)

(** The arguments [_create_retry_decorator] hands to [tenacity.retry]. *)
Record retry_decorator := mk_retry_decorator {
  stop_after_attempt : Z;
  wait_exponential_multiplier : Q;
  wait_exponential_max : Q;
  retry_if_ApiTimeoutError : bool;
  reraise : bool
}.

Module HttpClient.

Record t := mk { config : KraConfig.t }.

(** [_create_retry_decorator] *)
Definition _create_retry_decorator (h : t) : retry_decorator :=
  let retry_config := KraConfig.retry_config (config h) in
  mk_retry_decorator
    (RetryConfig.max_attempts retry_config)
    (RetryConfig.initial_delay retry_config)
    (RetryConfig.max_delay retry_config)
    (RetryConfig.retry_on_timeout retry_config)
    true.

(** [_handle_response] *)
Definition _handle_response (r : response) (endpoint : string)
    : result dict :=
  let sc := status_code r in
  if (sc =? 200)%Z then
    match body r with
    | Some data => Return data
    | None => Raise (OtherException "JSONDecodeError")
    end
  else if (sc =? 401)%Z then
    Raise (ApiAuthenticationError "Invalid API key or authentication failed")
  else if (sc =? 429)%Z then
    (* [int(response.headers.get("Retry-After", 60))] *)
    match retry_after r with
    | None => Raise (RateLimitExceededError 60)
    | Some header =>
        match int_of_string header with
        | Some n => Raise (RateLimitExceededError n)
        | None => Raise (OtherException "ValueError")
        end
    end
  else if ((400 <=? sc) && (sc <? 500))%Z then
    let error_message := JStr ("Client error: " ++ str_of_Z sc) in
    (* [error_data.get("message", error_message)], whatever it holds *)
    let error_message :=
      match body r with
      | Some error_data => dict_get_default error_data "message" error_message
      | None => error_message
      end in
    Raise (ApiError error_message (Some sc))
  else if (500 <=? sc)%Z then
    Raise (ApiError (JStr ("Server error: " ++ str_of_Z sc)) (Some sc))
  else
    Raise (ApiError (JStr ("Unexpected status code: " ++ str_of_Z sc))
                    (Some sc)).

(** [get(endpoint, params=None)] *)
Definition get (endpoint : string) (h : t) (tr : Transport.t)
    : result dict * Transport.t :=
  let (o, tr') := Transport.send (mk_request GET endpoint None None) tr in
  match o with
  | Responds response => (_handle_response response endpoint, tr')
  | TimeoutException _ =>
      (Raise (ApiTimeoutError (KraConfig.timeout (config h)) endpoint), tr')
  | NetworkError m =>
      (Raise (ApiError (JStr ("Network error: " ++ m)) None), tr')
  | HTTPError m =>
      (Raise (ApiError (JStr ("HTTP error: " ++ m)) None), tr')
  end.

(** [post(endpoint, data, json_data)] *)
Definition post (endpoint : string) (data json_data : option dict) (h : t)
    (tr : Transport.t) : result dict * Transport.t :=
  let (o, tr') :=
    Transport.send (mk_request POST endpoint data json_data) tr in
  match o with
  | Responds response => (_handle_response response endpoint, tr')
  | TimeoutException _ =>
      (Raise (ApiTimeoutError (KraConfig.timeout (config h)) endpoint), tr')
  | NetworkError m =>
      (Raise (ApiError (JStr ("Network error: " ++ m)) None), tr')
  | HTTPError m =>
      (Raise (ApiError (JStr ("HTTP error: " ++ m)) None), tr')
  end.

(** [put(endpoint, json_data)] *)
Definition put (endpoint : string) (json_data : option dict) (h : t)
    (tr : Transport.t) : result dict * Transport.t :=
  let (o, tr') :=
    Transport.send (mk_request PUT endpoint None json_data) tr in
  match o with
  | Responds response => (_handle_response response endpoint, tr')
  | TimeoutException _ =>
      (Raise (ApiTimeoutError (KraConfig.timeout (config h)) endpoint), tr')
  | NetworkError m =>
      (Raise (ApiError (JStr ("Network error: " ++ m)) None), tr')
  | HTTPError m =>
      (Raise (ApiError (JStr ("HTTP error: " ++ m)) None), tr')
  end.

(** [delete(endpoint)] *)
Definition delete (endpoint : string) (h : t) (tr : Transport.t)
    : result dict * Transport.t :=
  let (o, tr') := Transport.send (mk_request DELETE endpoint None None) tr in
  match o with
  | Responds response => (_handle_response response endpoint, tr')
  | TimeoutException _ =>
      (Raise (ApiTimeoutError (KraConfig.timeout (config h)) endpoint), tr')
  | NetworkError m =>
      (Raise (ApiError (JStr ("Network error: " ++ m)) None), tr')
  | HTTPError m =>
      (Raise (ApiError (JStr ("HTTP error: " ++ m)) None), tr')
  end.

End HttpClient.

(** ** validators.py: validate_pin_format (ASCII input) *)

(** [PIN_REGEX.match(s)] for [^P\d{9}[A-Z]$] on a stripped string *)
Definition PIN_REGEX_match (s : string) : bool :=
  match list_ascii_of_string s with
  | p :: rest =>
      Ascii.eqb p "P" && (List.length rest =? 10)%nat
      && forallb is_digit (firstn 9 rest)
      && forallb is_upper (skipn 9 rest)
  | [] => false
  end.

Definition validate_pin_format (pin_number : string) : result string :=
  if String.eqb pin_number EmptyString then
    Raise (InvalidPinFormatError "PIN number is required")
  else
    let normalized_pin := upper (strip pin_number) in
    if negb (PIN_REGEX_match normalized_pin) then
      Raise (InvalidPinFormatError normalized_pin)
    else Return normalized_pin.

(** [TCC_REGEX.match(s)] for [^TCC\d+$] on a stripped string *)
Definition TCC_REGEX_match (s : string) : bool :=
  match list_ascii_of_string s with
  | t :: c1 :: c2 :: d :: rest =>
      Ascii.eqb t "T" && Ascii.eqb c1 "C" && Ascii.eqb c2 "C"
      && forallb is_digit (d :: rest)
  | _ => false
  end.

Definition validate_tcc_format (tcc_number : string) : result string :=
  if String.eqb tcc_number EmptyString then
    Raise (InvalidTccFormatError "TCC number is required")
  else
    let normalized_tcc := upper (strip tcc_number) in
    if negb (TCC_REGEX_match normalized_tcc) then
      Raise (InvalidTccFormatError normalized_tcc)
    else Return normalized_tcc.

(** ** validators.py: the other validators (ASCII input) *)

(** [ValidationError(field, message)] *)
Record ValidationError := mk_ValidationError {
  field : string;
  message : string
}.

(** The outcome of a check that raises [E] on a bad input. *)
Inductive checked (E A : Type) : Type :=
| Accepted (a : A)
| Rejected (e : E).
Arguments Accepted {E A} a.
Arguments Rejected {E A} e.

(** [int(s)] on a string of decimal digits *)
Definition int_of_digits (l : list ascii) : Z :=
  fold_left (fun acc c => (10 * acc + (Z.of_N (N_of_ascii c) - 48))%Z) l 0%Z.

(** [PERIOD_REGEX.match(s)] for [^\d{6}$] on a stripped string *)
Definition PERIOD_REGEX_match (s : string) : bool :=
  let l := list_ascii_of_string s in
  (List.length l =? 6)%nat && forallb is_digit l.

Definition validate_period_format (period : string)
    : checked ValidationError string :=
  if String.eqb period EmptyString then
    Rejected (mk_ValidationError "period" "Period is required")
  else
    let period := strip period in
    if negb (PERIOD_REGEX_match period) then
      Rejected (mk_ValidationError "period"
        "Period must be in YYYYMM format (e.g., 202401 for January 2024)")
    else
      let year := int_of_digits (firstn 4 (list_ascii_of_string period)) in
      let month := int_of_digits (skipn 4 (list_ascii_of_string period)) in
      if ((year <? 2000) || (2100 <? year))%Z then
        Rejected (mk_ValidationError "period"
                    "Year must be between 2000 and 2100")
      else if ((month <? 1) || (12 <? month))%Z then
        Rejected (mk_ValidationError "period"
                    "Month must be between 01 and 12")
      else Accepted period.

Definition validate_obligation_id (obligation_id : string)
    : checked ValidationError string :=
  if String.eqb obligation_id EmptyString then
    Rejected (mk_ValidationError "obligation_id" "Obligation ID is required")
  else
    let obligation_id := strip obligation_id in
    if (String.length obligation_id <? 3)%nat then
      Rejected (mk_ValidationError "obligation_id"
                  "Obligation ID must be at least 3 characters")
    else Accepted obligation_id.

Definition validate_eslip_number (slip_number : string)
    : checked ValidationError string :=
  if String.eqb slip_number EmptyString then
    Rejected (mk_ValidationError "slip_number" "E-slip number is required")
  else
    let slip_number := strip slip_number in
    if (String.length slip_number <? 5)%nat then
      Rejected (mk_ValidationError "slip_number"
                  "E-slip number must be at least 5 characters")
    else Accepted slip_number.

(** [re.sub(r"[\s\-]", EmptyString, s)]: whitespace and hyphens are
    dropped. *)
Definition remove_spaces_and_hyphens (s : string) : string :=
  string_of_list_ascii
    (filter (fun c => negb (is_space c || Ascii.eqb c "-"))
            (list_ascii_of_string s)).

(** [kenyan_phone_regex.match(s)] for [^\+254[17]\d{8}$] on a string
    without whitespace *)
Definition kenyan_phone_regex_match (s : string) : bool :=
  match list_ascii_of_string s with
  | p :: d2 :: d5 :: d4 :: first :: rest =>
      Ascii.eqb p "+" && Ascii.eqb d2 "2" && Ascii.eqb d5 "5"
      && Ascii.eqb d4 "4"
      && (Ascii.eqb first "1" || Ascii.eqb first "7")
      && (List.length rest =? 8)%nat && forallb is_digit rest
  | _ => false
  end.

Definition validate_phone_number (phone_number : string)
    : checked ValidationError string :=
  if String.eqb phone_number EmptyString then
    Rejected (mk_ValidationError "phone_number" "Phone number is required")
  else
    let phone_number := remove_spaces_and_hyphens phone_number in
    let converted : option string :=
      if String.prefix "0" phone_number then
        Some ("+254" ++ String.substring 1 (String.length phone_number - 1)
                                         phone_number)%string
      else if String.prefix "254" phone_number
              && negb (String.prefix "+" phone_number) then
        Some ("+" ++ phone_number)%string
      else if negb (String.prefix "+254" phone_number) then None
      else Some phone_number in
    match converted with
    | None =>
        Rejected (mk_ValidationError "phone_number"
          "Phone number must be in Kenyan format (+254XXXXXXXXX or 07XXXXXXXX)")
    | Some phone_number =>
        if negb (kenyan_phone_regex_match phone_number) then
          Rejected (mk_ValidationError "phone_number"
            "Invalid Kenyan phone number format (must be +254 followed by 9 digits starting with 7 or 1)")
        else Accepted phone_number
    end.

(** [ch * n]: the empty string for [n <= 0]. *)
Definition str_repeat (ch : ascii) (n : Z) : string :=
  string_of_list_ascii (repeat ch (Z.to_nat n)).

Definition str_len (s : string) : Z := Z.of_nat (String.length s).

(** [s[start:]] with Python's reading of a negative or too large
    [start]. *)
Definition slice_from (start : Z) (s : string) : string :=
  let start :=
    if (start <? 0)%Z then Z.max (str_len s + start) 0
    else Z.min start (str_len s) in
  String.substring (Z.to_nat start) (String.length s - Z.to_nat start) s.

(** [s[:stop]] for [stop >= 0] *)
Definition slice_to (stop : nat) (s : string) : string :=
  String.substring 0 (Nat.min stop (String.length s)) s.

Definition mask_pin (pin_number : string) : string :=
  if String.eqb pin_number EmptyString || (str_len pin_number <? 5)%Z then
    "***"%string
  else
    (slice_to 3 pin_number ++ str_repeat "*" (str_len pin_number - 5)
     ++ slice_from (-2) pin_number)%string.

Definition mask_sensitive_data (data : string) (visible_chars : Z)
    : string :=
  if String.eqb data EmptyString || (str_len data <=? visible_chars)%Z then
    if negb (String.eqb data EmptyString) then str_repeat "*" (str_len data)
    else EmptyString
  else
    (str_repeat "*" (str_len data - visible_chars)
     ++ slice_from (- visible_chars) data)%string.

(** ** models.py

    The result objects with the fields of their declarations.  The
    timestamps that default to [datetime.now] ([verified_at],
    [last_updated]) are left out. *)

Inductive TaxpayerStatus : Type := ACTIVE | INACTIVE | SUSPENDED | DORMANT.

Inductive ObligationStatus : Type :=
| COMPLIANT | NON_COMPLIANT | PENDING | OVERDUE.

(** [datetime.date] *)
Record date := mk_date { year : Z; month : Z; day : Z }.

Record PinVerificationResult := mk_PinVerificationResult {
  pin_number : string;
  is_valid : bool;
  taxpayer_name : option string;
  status : option TaxpayerStatus;
  registration_date : option date;
  business_type : option string;
  postal_address : option string;
  physical_address : option string;
  email : option string;
  phone_number : option string;
  error_message : option string
}.

Record TccVerificationResult := mk_TccVerificationResult {
  tcc_number : string;
  tcc_is_valid : bool;
  tcc_pin_number : option string;
  tcc_taxpayer_name : option string;
  issue_date : option date;
  expiry_date : option date;
  certificate_type : option string;
  tcc_status : option string;
  tcc_error_message : option string
}.

Record TaxObligation := mk_TaxObligation {
  obligation_id : string;
  obligation_type : string;
  description : string;
  frequency : string;
  obligation_status : ObligationStatus;
  due_date : option date;
  last_filed : option date
}.

Record TaxpayerDetails := mk_TaxpayerDetails {
  details_pin_number : string;
  details_taxpayer_name : string;
  business_name : option string;
  details_registration_date : option date;
  details_status : TaxpayerStatus;
  details_business_type : option string;
  details_postal_address : option string;
  details_physical_address : option string;
  details_email : option string;
  details_phone_number : option string;
  tax_obligations : list TaxObligation;
  compliance_status : option ObligationStatus;
  details_tcc_status : option string
}.

(** Modelled from the spec: the validation that the third-party library
    [pydantic] runs when a model class is called with keyword arguments,
    which is not part of the repository.  The call returns the
    model object or raises [pydantic.ValidationError], an exception from
    outside the SDK; the rejection carries its text.  Which keyword
    arguments pass, and with which coercions, is left to the library. *)
Module Pydantic.

Record t := mk {
  PinVerificationResult_init : dict -> checked string PinVerificationResult;
  TccVerificationResult_init : dict -> checked string TccVerificationResult;
  TaxpayerDetails_init : dict -> checked string TaxpayerDetails
}.

End Pydantic.

(** [d.get(key)] as a Python value: [None] for a missing key. *)
Definition dict_get_or_none (d : dict) (key : string) : json :=
  dict_get_default d key JNull.

(** [NilReturnResult.validate_period_format], the field validator of
    [period]; a rejection carries the message of the [ValueError]. *)
Definition NilReturnResult_validate_period_format (value : string)
    : checked string string :=
  let l := list_ascii_of_string value in
  if negb (String.length value =? 6)%nat
     || negb (negb (String.eqb value EmptyString) && forallb is_digit l) then
    Rejected "Period must be in YYYYMM format"%string
  else
    let year := int_of_digits (firstn 4 l) in
    let month := int_of_digits (skipn 4 l) in
    if ((month <? 1) || (12 <? month))%Z then
      Rejected "Month must be between 01 and 12"%string
    else if ((year <? 2000) || (2100 <? year))%Z then
      Rejected "Year must be between 2000 and 2100"%string
    else Accepted value.

(** The objects the client puts in its cache. *)
Inductive model : Type :=
| OfPin (r : PinVerificationResult)
| OfTcc (r : TccVerificationResult)
| OfTaxpayer (r : TaxpayerDetails).

(** ** client.py: KraClient *)

Module KraClient.

Record t := mk {
  config : KraConfig.t;
  http_client : HttpClient.t;
  cache_manager : CacheManager.t model;
  rate_limiter : TokenBucketRateLimiter.t
}.

(** [__init__(config=config)] *)
Definition init (config : KraConfig.t) (c : Clock.t) : t * Clock.t :=
  let (rl, c1) :=
    TokenBucketRateLimiter.init (KraConfig.rate_limit_config config) c in
  (mk config (HttpClient.mk config)
      (CacheManager.init (KraConfig.cache_config config)) rl,
   c1).

Definition with_cache (k : t) (m : CacheManager.t model) : t :=
  mk (config k) (http_client k) m (rate_limiter k).

Definition with_limiter (k : t) (rl : TokenBucketRateLimiter.t) : t :=
  mk (config k) (http_client k) (cache_manager k) rl.

(** The handlers that close each method: [except KraConnectError: raise]
    and [except Exception as e: raise KraConnectError(f"{what}: {e}")]. *)
Definition reraise_as (what : string) (e : exn) : exn :=
  match e with
  | OtherException description =>
      KraConnectError (what ++ ": " ++ description)
  | _ => e
  end.

(** The methods below return the world they leave: the client, the clock
    and the transport.  A cached result is a model object and so always
    true in [if cached_result:].  [fuel] bounds the rounds of the blocking
    [acquire]; [py] is the validation the model classes run. *)
Definition outcome_of (A : Type) : Type :=
  option (result A * t * Clock.t * Transport.t).

(** [verify_pin(pin_number)] *)
Definition verify_pin (py : Pydantic.t) (fuel : nat) (pin_number : string)
    (k : t) (c : Clock.t) (tr : Transport.t) : outcome_of model :=
  match validate_pin_format pin_number with
  | Raise e => Some (Raise e, k, c, tr)
  | Return normalized_pin =>
      let cache_key :=
        CacheManager.generate_key "pin"
          [("pin_number"%string, JStr normalized_pin)] in
      let '(cached_result, m1, c1) :=
        CacheManager.get cache_key (cache_manager k) c in
      let k1 := with_cache k m1 in
      match cached_result with
      | Some r => Some (Return r, k1, c1, tr)
      | None =>
          match TokenBucketRateLimiter.acquire fuel 1 true None
                  (rate_limiter k1) c1 with
          | None => None
          | Some (Raise e, rl, c2) =>
              Some (Raise e, with_limiter k1 rl, c2, tr)
          | Some (Return _, rl, c2) =>
              let k2 := with_limiter k1 rl in
              match HttpClient.post "/verify-pin" None
                      (Some [("pin"%string, JStr normalized_pin)])
                      (http_client k2) tr with
              | (Raise e, tr') =>
                  Some (Raise (reraise_as "PIN verification failed" e),
                        k2, c2, tr')
              | (Return response_data, tr') =>
                  match
                    Pydantic.PinVerificationResult_init py
                      [("pin_number"%string, JStr normalized_pin);
                       ("is_valid"%string,
                        dict_get_default response_data "valid" (JBool false));
                       ("taxpayer_name"%string,
                        dict_get_or_none response_data "taxpayer_name");
                       ("status"%string,
                        dict_get_or_none response_data "status");
                       ("registration_date"%string,
                        dict_get_or_none response_data "registration_date");
                       ("business_type"%string,
                        dict_get_or_none response_data "business_type");
                       ("postal_address"%string,
                        dict_get_or_none response_data "postal_address");
                       ("physical_address"%string,
                        dict_get_or_none response_data "physical_address");
                       ("email"%string,
                        dict_get_or_none response_data "email");
                       ("phone_number"%string,
                        dict_get_or_none response_data "phone_number")]
                  with
                  | Rejected text =>
                      Some (Raise (reraise_as "PIN verification failed"
                                              (OtherException text)),
                            k2, c2, tr')
                  | Accepted object =>
                      let result := OfPin object in
                      let (m2, c3) :=
                        CacheManager.set cache_key (Some result) None
                                         (cache_manager k2) c2 in
                      Some (Return result, with_cache k2 m2, c3, tr')
                  end
              end
          end
      end
  end.

(** [verify_tcc(tcc_number)] *)
Definition verify_tcc (py : Pydantic.t) (fuel : nat) (tcc_number : string)
    (k : t) (c : Clock.t) (tr : Transport.t) : outcome_of model :=
  match validate_tcc_format tcc_number with
  | Raise e => Some (Raise e, k, c, tr)
  | Return normalized_tcc =>
      let cache_key :=
        CacheManager.generate_key "tcc"
          [("tcc_number"%string, JStr normalized_tcc)] in
      let '(cached_result, m1, c1) :=
        CacheManager.get cache_key (cache_manager k) c in
      let k1 := with_cache k m1 in
      match cached_result with
      | Some r => Some (Return r, k1, c1, tr)
      | None =>
          match TokenBucketRateLimiter.acquire fuel 1 true None
                  (rate_limiter k1) c1 with
          | None => None
          | Some (Raise e, rl, c2) =>
              Some (Raise e, with_limiter k1 rl, c2, tr)
          | Some (Return _, rl, c2) =>
              let k2 := with_limiter k1 rl in
              match HttpClient.post "/verify-tcc" None
                      (Some [("tcc"%string, JStr normalized_tcc)])
                      (http_client k2) tr with
              | (Raise e, tr') =>
                  Some (Raise (reraise_as "TCC verification failed" e),
                        k2, c2, tr')
              | (Return response_data, tr') =>
                  match
                    Pydantic.TccVerificationResult_init py
                      [("tcc_number"%string, JStr normalized_tcc);
                       ("is_valid"%string,
                        dict_get_default response_data "valid" (JBool false));
                       ("pin_number"%string,
                        dict_get_or_none response_data "pin_number");
                       ("taxpayer_name"%string,
                        dict_get_or_none response_data "taxpayer_name");
                       ("issue_date"%string,
                        dict_get_or_none response_data "issue_date");
                       ("expiry_date"%string,
                        dict_get_or_none response_data "expiry_date");
                       ("certificate_type"%string,
                        dict_get_or_none response_data "certificate_type");
                       ("status"%string,
                        dict_get_or_none response_data "status")]
                  with
                  | Rejected text =>
                      Some (Raise (reraise_as "TCC verification failed"
                                              (OtherException text)),
                            k2, c2, tr')
                  | Accepted object =>
                      let result := OfTcc object in
                      let (m2, c3) :=
                        CacheManager.set cache_key (Some result) None
                                         (cache_manager k2) c2 in
                      Some (Return result, with_cache k2 m2, c3, tr')
                  end
              end
          end
      end
  end.

(** [get_taxpayer_details(pin_number)]; the keyword arguments that
    [TaxpayerDetails] receives are the items of the response itself. *)
Definition get_taxpayer_details (py : Pydantic.t) (fuel : nat)
    (pin_number : string) (k : t) (c : Clock.t) (tr : Transport.t)
    : outcome_of model :=
  match validate_pin_format pin_number with
  | Raise e => Some (Raise e, k, c, tr)
  | Return normalized_pin =>
      let cache_key :=
        CacheManager.generate_key "taxpayer"
          [("pin_number"%string, JStr normalized_pin)] in
      let '(cached_result, m1, c1) :=
        CacheManager.get cache_key (cache_manager k) c in
      let k1 := with_cache k m1 in
      match cached_result with
      | Some r => Some (Return r, k1, c1, tr)
      | None =>
          match TokenBucketRateLimiter.acquire fuel 1 true None
                  (rate_limiter k1) c1 with
          | None => None
          | Some (Raise e, rl, c2) =>
              Some (Raise e, with_limiter k1 rl, c2, tr)
          | Some (Return _, rl, c2) =>
              let k2 := with_limiter k1 rl in
              match HttpClient.get ("/taxpayer-details/" ++ normalized_pin)
                      (http_client k2) tr with
              | (Raise e, tr') =>
                  Some (Raise (reraise_as
                                 "Failed to retrieve taxpayer details" e),
                        k2, c2, tr')
              | (Return response_data, tr') =>
                  match Pydantic.TaxpayerDetails_init py response_data with
                  | Rejected text =>
                      Some (Raise (reraise_as
                                     "Failed to retrieve taxpayer details"
                                     (OtherException text)),
                            k2, c2, tr')
                  | Accepted object =>
                      let result := OfTaxpayer object in
                      let (m2, c3) :=
                        CacheManager.set cache_key (Some result)
                                         (Some 1800%Z) (cache_manager k2) c2 in
                      Some (Return result, with_cache k2 m2, c3, tr')
                  end
              end
          end
      end
  end.

End KraClient.

(** * Specification predicates *)

Module TB := TokenBucketRateLimiter.

(** The limiter and the clock it runs on are consistent: time does not run
    backwards, the last refill lies in the past, the bucket is not in debt
    and the configuration passed [__post_init__]. *)
Definition tb_wf (s : TB.t) (c : Clock.t) : Prop :=
  Clock.monotone c /\
  TB.last_refill s <= Clock.now c /\
  0 <= TB.tokens s /\
  0 < TB.refill_rate s /\
  (0 < TB.max_requests s)%Z.

Definition capacity (s : TB.t) : Q := inject_Z (TB.max_requests s).

(** Fields that no method assigns after [__init__]. *)
Definition tb_same_config (s s' : TB.t) : Prop :=
  TB.enabled s' = TB.enabled s /\
  TB.max_requests s' = TB.max_requests s /\
  TB.window_seconds s' = TB.window_seconds s /\
  TB.refill_rate s' = TB.refill_rate s.

(** What [acquire] promises about the state it leaves, by outcome. *)
Definition tb_outcome_ok (n : Z) (block : bool) (timeout : option Q)
    (s : TB.t) (r : result bool) (s' : TB.t) : Prop :=
  match r with
  | Return true =>
      0 <= TB.tokens s' /\ TB.tokens s' + inject_Z n <= capacity s
  | Return false =>
      block = true /\ timeout <> None /\
      TB.tokens s' <= capacity s /\ TB.tokens s' < inject_Z n
  | Raise e =>
      block = false /\ e = RateLimitExceededError (TB.window_seconds s) /\
      TB.tokens s' <= capacity s /\ TB.tokens s' < inject_Z n
  end.

(** The state a single refill at clock reading [t] produces: the only
    bookkeeping [_refill_tokens] does. *)
Definition refill_at (t : Q) (s : TB.t) : TB.t :=
  TB.mk (TB.enabled s) (TB.max_requests s) (TB.window_seconds s)
        (Qmin (TB.tokens s + (t - TB.last_refill s) * TB.refill_rate s)
              (inject_Z (TB.max_requests s)))
        t (TB.refill_rate s).

(** Equality of limiter states, up to the representation of rationals. *)
Definition tb_equiv (s s' : TB.t) : Prop :=
  tb_same_config s s' /\
  TB.tokens s' == TB.tokens s /\
  TB.last_refill s' == TB.last_refill s.

(** A small limiter used in the examples: one request per second, with an
    empty bucket last refilled at time 0. *)
Definition tb_drained : TB.t := TB.mk true 1 1 0 0 1.

(** Two requests per second: five blocking acquisitions in a row, a
    non-blocking one on the empty bucket, one that times out and a look at
    the bucket. *)
Definition tb_demo_config : RateLimitConfig.t := RateLimitConfig.mk 2 1 true.

Definition tb_demo_ops : list tb_op :=
  [TbAcquire 3 1 true None; TbAcquire 3 1 true None; TbAcquire 3 1 true None;
   TbAcquire 3 1 true None; TbAcquire 3 1 true None;
   TbAcquire 1 1 false None; TbAcquire 9 3 true (Some 2.5);
   TbGetAvailableTokens].

(** The state and the clock a run of the operations ends in. *)
Definition tb_demo_run : option (TB.t * Clock.t) :=
  let (s0, c0) := TB.init tb_demo_config (Clock.ideal 0) in
  tb_run tb_demo_ops s0 c0.

Module SW := SlidingWindowRateLimiter.

(** The window and its clock are consistent: time does not run backwards,
    the timestamps are stored oldest first, none lies in the future and
    there are at most [max_requests] of them. *)
Definition sw_wf (s : SW.t) (c : Clock.t) : Prop :=
  Clock.monotone c /\
  StronglySorted Qle (SW.requests s) /\
  Forall (fun t => t <= Clock.now c) (SW.requests s) /\
  (SW.len s <= SW.max_requests s)%Z.

Definition sw_same_config (s s' : SW.t) : Prop :=
  SW.enabled s' = SW.enabled s /\
  SW.max_requests s' = SW.max_requests s /\
  SW.window_seconds s' = SW.window_seconds s.

(** Every retained timestamp lies in the trailing window that ends at
    [now]. *)
Definition in_window (now : Q) (s : SW.t) : Prop :=
  Forall (fun t => now - inject_Z (SW.window_seconds s) <= t /\ t <= now)
         (SW.requests s).

Definition sw_demo_ops : list sw_op :=
  [SwAcquire 1 true None; SwAcquire 1 true None; SwAcquire 1 false None;
   SwAcquire 20 true (Some 0.5); SwAcquire 20 true None; SwGetRequestCount].

Definition sw_demo_run : option (SW.t * Clock.t) :=
  sw_run sw_demo_ops (SW.init (RateLimitConfig.mk 2 1 true)) (Clock.ideal 0).

(** A cache manager as [CacheManager.__init__] builds it from a valid
    configuration, caching enabled, at any later point of its life. *)
Definition cm_wf {V : Type} (m : CacheManager.t V) : Prop :=
  CacheManager.enabled m = true /\
  CacheConfig.post_init (CacheManager.config m) = true /\
  TTLCache.maxsize (MemoryCacheBackend._cache (CacheManager.backend m))
    = CacheConfig.max_size (CacheManager.config m) /\
  TTLCache.ttl (MemoryCacheBackend._cache (CacheManager.backend m))
    = inject_Z (CacheConfig.ttl (CacheManager.config m)).

(** A manager whose backend keeps items for 10 seconds. *)
Definition cm_demo : CacheManager.t string :=
  CacheManager.init (CacheConfig.mk true 10 1000).

(** The manager and the clock after [set("k", "v", ttl)] at time 0. *)
Definition cm_demo_set (ttl : Z) : CacheManager.t string * Clock.t :=
  CacheManager.set "k" (Some "v"%string) (Some ttl) cm_demo (Clock.ideal 0).

(** [get("k")] after a further [elapsed] seconds. *)
Definition cm_demo_get (ttl : Z) (elapsed : Q)
    : option string * CacheManager.t string * Clock.t :=
  CacheManager.get "k" (fst (cm_demo_set ttl))
                   (Clock.sleep elapsed (snd (cm_demo_set ttl))).


(** ** Scenarios *)

Definition demo_config : KraConfig.t :=
  KraConfig.mk "test-key" "https://api.kra.go.ke/gavaconnect/v1" 30 true
    RetryConfig.default CacheConfig.default RateLimitConfig.default
    "INFO" "kra-connect-python/0.1.0".

Definition ok_response : response :=
  mk_response 200 (Some [("valid"%string, JBool true)]) None.

(** A server that times out on the first two requests and answers the
    third. *)
Definition flaky_transport : Transport.t :=
  Transport.mk
    (fun k _ => if (k <? 2)%nat then TimeoutException "timed out"
                else Responds ok_response)
    [].

(** A server that answers every request. *)
Definition ok_transport : Transport.t :=
  Transport.mk (fun _ _ => Responds ok_response) [].

(** A validation for the examples.  It accepts keyword arguments that
    [pydantic] accepts without coercion: a string PIN or TCC number with a
    boolean [is_valid], or a string PIN and taxpayer name with the status
    [active], every optional field being [None] or not given and the
    fields with a default factory not given; it rejects all others. *)
Definition all_none (kwargs : dict) (keys : list string) : bool :=
  forallb (fun key => match dict_get_or_none kwargs key with
                      | JNull => true
                      | _ => false
                      end) keys.

Definition not_given (kwargs : dict) (keys : list string) : bool :=
  forallb (fun key => match dict_get kwargs key with
                      | None => true
                      | Some _ => false
                      end) keys.

Definition demo_pydantic : Pydantic.t :=
  Pydantic.mk
    (fun kwargs =>
       match dict_get kwargs "pin_number", dict_get kwargs "is_valid" with
       | Some (JStr pin), Some (JBool valid) =>
           if all_none kwargs
                ["taxpayer_name"; "status"; "registration_date";
                 "business_type"; "postal_address"; "physical_address";
                 "email"; "phone_number"; "error_message"]%string
           then Accepted (mk_PinVerificationResult pin valid None None None
                            None None None None None None)
           else Rejected "validation error for PinVerificationResult"%string
       | _, _ => Rejected "validation error for PinVerificationResult"%string
       end)
    (fun kwargs =>
       match dict_get kwargs "tcc_number", dict_get kwargs "is_valid" with
       | Some (JStr tcc), Some (JBool valid) =>
           if all_none kwargs
                ["pin_number"; "taxpayer_name"; "issue_date"; "expiry_date";
                 "certificate_type"; "status"; "error_message"]%string
           then Accepted (mk_TccVerificationResult tcc valid None None None
                            None None None None)
           else Rejected "validation error for TccVerificationResult"%string
       | _, _ => Rejected "validation error for TccVerificationResult"%string
       end)
    (fun kwargs =>
       match dict_get kwargs "pin_number", dict_get kwargs "taxpayer_name",
             dict_get kwargs "status" with
       | Some (JStr pin), Some (JStr name), Some (JStr "active") =>
           if all_none kwargs
                ["business_name"; "registration_date"; "business_type";
                 "postal_address"; "physical_address"; "email";
                 "phone_number"; "compliance_status"; "tcc_status"]%string
              && not_given kwargs ["tax_obligations"; "last_updated"]%string
           then Accepted (mk_TaxpayerDetails pin name None None ACTIVE None
                            None None None None [] None None)
           else Rejected "validation error for TaxpayerDetails"%string
       | _, _, _ => Rejected "validation error for TaxpayerDetails"%string
       end).

(** A fresh client, and the same client after one successful
    [verify_pin("P051234567A")]. *)
Definition demo_client : KraClient.t * Clock.t :=
  KraClient.init demo_config (Clock.ideal 0).

Definition demo_client_warm : KraClient.t * Clock.t * Transport.t :=
  match KraClient.verify_pin demo_pydantic 1 "P051234567A" (fst demo_client)
          (snd demo_client) ok_transport with
  | Some (_, k, c, tr) => (k, c, tr)
  | None => (fst demo_client, snd demo_client, ok_transport)
  end.

(** The order [sorted] puts dict items in. *)
Definition key_le {A : Type} (x y : string * A) : Prop :=
  String.leb (fst x) (fst y) = true.

(** A lower-case hexadecimal digit. *)
Definition is_hex (c : ascii) : Prop :=
  In c (list_ascii_of_string "0123456789abcdef").

(** The cache lookup the second [verify_pin] of the warm client makes. *)
Definition demo_hit : option model * CacheManager.t model * Clock.t :=
  CacheManager.get
    (CacheManager.generate_key "pin"
       [("pin_number"%string, JStr "P051234567A")])
    (KraClient.cache_manager (fst (fst demo_client_warm)))
    (snd (fst demo_client_warm)).

(** ** Callers of the limiters *)

(** A caller that makes [k] acquisitions in a row and keeps the results. *)
Fixpoint tb_acquire_many (k fuel : nat) (n : Z) (block : bool)
    (timeout : option Q) (s : TB.t) (c : Clock.t)
    : option (list (result bool) * TB.t * Clock.t) :=
  match k with
  | O => Some ([], s, c)
  | S k' =>
      match TB.acquire fuel n block timeout s c with
      | Some (r, s1, c1) =>
          match tb_acquire_many k' fuel n block timeout s1 c1 with
          | Some (rs, s2, c2) => Some (r :: rs, s2, c2)
          | None => None
          end
      | None => None
      end
  end.

Fixpoint sw_acquire_many (k fuel : nat) (block : bool) (timeout : option Q)
    (s : SW.t) (c : Clock.t)
    : option (list (result bool) * SW.t * Clock.t) :=
  match k with
  | O => Some ([], s, c)
  | S k' =>
      match SW.acquire fuel block timeout s c with
      | Some (r, s1, c1) =>
          match sw_acquire_many k' fuel block timeout s1 c1 with
          | Some (rs, s2, c2) => Some (r :: rs, s2, c2)
          | None => None
          end
      | None => None
      end
  end.

(** The result of an [async] acquisition, in the shape of the blocking
    one. *)
Definition lift_async {S : Type} (o : option (bool * S * Clock.t))
    : option (result bool * S * Clock.t) :=
  match o with
  | Some (b, s, c) => Some (Return b, s, c)
  | None => None
  end.

(** ** Cache bookkeeping *)

(** The items the backend of a manager holds, expired ones included. *)
Definition cm_links {V : Type} (m : CacheManager.t V)
    : list (string * cached V * Q) :=
  TTLCache.links (MemoryCacheBackend._cache (CacheManager.backend m)).

(** No item stored under [key] can still be read at time [t]. *)
Definition cm_absent {V : Type} (key : string) (t : Q)
    (m : CacheManager.t V) : Prop :=
  forall x e, TTLCache.find key (cm_links m) = Some (x, e) -> e <= t.

(** The demo manager after [set("k", "v", 5)] and [delete("k")]. *)
Definition cm_demo_deleted : CacheManager.t string * Clock.t :=
  CacheManager.delete "k" (fst (cm_demo_set 5)) (snd (cm_demo_set 5)).

(** The demo manager holding one PIN result and one TCC result, and the
    same after [invalidate_pattern("pin:*")]. *)
Definition cm_demo_two : CacheManager.t string * Clock.t :=
  let (m1, c1) :=
    CacheManager.set "pin:a" (Some "A"%string) None cm_demo (Clock.ideal 0) in
  CacheManager.set "tcc:b" (Some "B"%string) None m1 c1.

Definition cm_demo_invalidated : CacheManager.t string * Clock.t :=
  CacheManager.invalidate_pattern "pin:*" (fst cm_demo_two) (snd cm_demo_two).

(** A caller's use of one cache manager over time. *)
Inductive cm_op (V : Type) : Type :=
| CmGet (key : string)
| CmSet (key : string) (value : option V) (ttl : option Z)
| CmDelete (key : string)
| CmClear
| CmGetOrSet (key : string) (factory_fn : unit -> result (option V))
             (ttl : option Z)
| CmInvalidatePattern (pattern : string).
Arguments CmGet {V} key.
Arguments CmSet {V} key value ttl.
Arguments CmDelete {V} key.
Arguments CmClear {V}.
Arguments CmGetOrSet {V} key factory_fn ttl.
Arguments CmInvalidatePattern {V} pattern.

Definition cm_step {V : Type} (o : cm_op V) (m : CacheManager.t V)
    (c : Clock.t) : CacheManager.t V * Clock.t :=
  match o with
  | CmGet key => let '(_, m', c') := CacheManager.get key m c in (m', c')
  | CmSet key value ttl => CacheManager.set key value ttl m c
  | CmDelete key => CacheManager.delete key m c
  | CmClear => (CacheManager.clear m, c)
  | CmGetOrSet key factory_fn ttl =>
      let '(_, m', c') := CacheManager.get_or_set key factory_fn ttl m c in
      (m', c')
  | CmInvalidatePattern pattern => CacheManager.invalidate_pattern pattern m c
  end.

Fixpoint cm_run {V : Type} (ops : list (cm_op V)) (m : CacheManager.t V)
    (c : Clock.t) : CacheManager.t V * Clock.t :=
  match ops with
  | [] => (m, c)
  | o :: ops' => let (m', c') := cm_step o m c in cm_run ops' m' c'
  end.

(** The manager was built from a valid configuration and its backend is
    within bounds. *)
Definition cm_inv {V : Type} (cfg : CacheConfig.t) (m : CacheManager.t V)
    : Prop :=
  CacheManager.config m = cfg /\
  TTLCache.maxsize (MemoryCacheBackend._cache (CacheManager.backend m))
    = CacheConfig.max_size cfg /\
  (Z.of_nat (List.length (cm_links m)) <= CacheConfig.max_size cfg)%Z.

(** Sets under three keys, reads, an invalidation and a clear on a manager
    that holds two items at most. *)
Definition cm_demo_ops : list (cm_op string) :=
  [CmSet "pin:a" (Some "A"%string) None; CmSet "pin:b" (Some "B"%string) None;
   CmSet "tcc:c" (Some "C"%string) (Some 5%Z); CmGet "pin:a";
   CmGetOrSet "pin:d" (fun _ => Return (Some "D"%string)) None;
   CmInvalidatePattern "pin:*"; CmDelete "tcc:c"; CmClear].

(** Two [get_or_set] calls for one key, three seconds apart, with
    factories that would return different values. *)
Definition cm_demo_first
    : result (option string) * CacheManager.t string * Clock.t :=
  CacheManager.get_or_set "k" (fun _ => Return (Some "v"%string)) None
                          cm_demo (Clock.ideal 0).

Definition cm_demo_second
    : result (option string) * CacheManager.t string * Clock.t :=
  CacheManager.get_or_set "k" (fun _ => Return (Some "w"%string)) (Some 1%Z)
                          (snd (fst cm_demo_first))
                          (Clock.sleep 3 (snd cm_demo_first)).

(** ** Callers of the client *)







(** A bucket of one request per second that is full. *)
Definition tb_full : TB.t := TB.mk true 1 1 1 0 1.
(** * Properties *)

(** Split conjunctions only (never unfold an order on [Q]). *)
Ltac conj :=
  repeat match goal with
         | |- _ /\ _ => split
         | |- tb_wf _ _ => unfold tb_wf
         | |- tb_same_config _ _ => unfold tb_same_config
         end.

(** ** Comparisons and the clock *)

Lemma Qle_bool_false (x y : Q) : Qle_bool x y = false -> y < x.
Proof.
  intros H. destruct (Qlt_le_dec y x) as [L | L]; [exact L |].
  apply Qle_bool_iff in L. congruence.
Qed.

Lemma Qlt_bool_true (x y : Q) : Qlt_bool x y = true -> x < y.
Proof.
  unfold Qlt_bool. intros H. apply Qle_bool_false.
  now apply negb_true_iff.
Qed.

Lemma Qlt_bool_false (x y : Q) : Qlt_bool x y = false -> y <= x.
Proof.
  unfold Qlt_bool. intros H. apply Qle_bool_iff.
  now apply negb_false_iff.
Qed.

Lemma clock_time_spec {c c' : Clock.t} {r : Q} :
  Clock.monotone c -> Clock.time c = (r, c') ->
  Clock.now c <= r /\ Clock.now c' = r /\ Clock.monotone c'.
Proof.
  unfold Clock.time, Clock.monotone. intros M E. inversion E; subst; clear E.
  cbn. conj; auto.
  specialize (M (Clock.ticks c)). lra.
Qed.

Lemma clock_sleep_monotone (c : Clock.t) (w : Q) :
  Clock.monotone c -> Clock.monotone (Clock.sleep w c).
Proof. unfold Clock.monotone, Clock.sleep. cbn. auto. Qed.

(** ** Token bucket *)

Ltac tb_simpl :=
  cbn [TB.last_refill TB.tokens TB.refill_rate TB.max_requests
       TB.enabled TB.window_seconds TB.set_tokens].

Lemma tb_same_config_refl s : tb_same_config s s.
Proof. conj; reflexivity. Qed.

Lemma tb_same_config_trans s1 s2 s3 :
  tb_same_config s1 s2 -> tb_same_config s2 s3 -> tb_same_config s1 s3.
Proof.
  unfold tb_same_config. intros (A1 & A2 & A3 & A4) (B1 & B2 & B3 & B4).
  conj; congruence.
Qed.

Lemma capacity_pos (s : TB.t) : (0 < TB.max_requests s)%Z -> 0 < capacity s.
Proof.
  intros H. unfold capacity. change 0 with (inject_Z 0).
  now rewrite <- Zlt_Qlt.
Qed.

Lemma refill_upper {s s1 : TB.t} {c c1 : Clock.t} :
  TB._refill_tokens s c = (s1, c1) -> TB.tokens s1 <= capacity s1.
Proof.
  unfold TB._refill_tokens, Clock.time. intros E. inversion E; subst; clear E.
  cbn. apply Q.le_min_r.
Qed.

Lemma refill_spec {s s1 : TB.t} {c c1 : Clock.t} :
  tb_wf s c -> TB._refill_tokens s c = (s1, c1) ->
  tb_wf s1 c1 /\ tb_same_config s s1 /\
  TB.last_refill s1 = Clock.now c1 /\
  TB.tokens s1 <= capacity s /\
  Qmin (TB.tokens s + (Clock.now c - TB.last_refill s) * TB.refill_rate s)
       (capacity s) <= TB.tokens s1 /\
  TB.tokens s1 ==
    Qmin (TB.tokens s + (Clock.now c1 - TB.last_refill s) * TB.refill_rate s)
         (capacity s).
Proof.
  intros (M & L & T & R & P) E. unfold TB._refill_tokens in E.
  destruct (Clock.time c) as [now c'] eqn:Ec.
  destruct (clock_time_spec M Ec) as (Hle & Hnow & M').
  inversion E; subst s1 c1; clear E. cbn.
  assert (Hel : 0 <= (now - TB.last_refill s) * TB.refill_rate s).
  { apply Qmult_le_0_compat; lra. }
  assert (Hcap := capacity_pos s P).
  conj; cbn; auto; try lra.
  - rewrite Hnow. lra.
  - apply Q.min_glb; unfold capacity in *; lra.
  - apply Q.le_min_r.
  - apply Q.min_le_compat_r.
    assert ((Clock.now c - TB.last_refill s) * TB.refill_rate s
            <= (now - TB.last_refill s) * TB.refill_rate s).
    { apply Qmult_le_compat_r; lra. }
    lra.
  - rewrite Hnow. reflexivity.
Qed.

Lemma wait_time_pos {n : Z} {s : TB.t} :
  0 < TB.refill_rate s -> TB.tokens s < inject_Z n ->
  0 < Qmin ((inject_Z n - TB.tokens s) / TB.refill_rate s) 1.
Proof.
  intros R D. apply Q.min_glb_lt; [| lra].
  apply Qlt_shift_div_l; lra.
Qed.

Lemma tb_wf_sleep {s : TB.t} {c : Clock.t} {w : Q} :
  tb_wf s c -> 0 <= w -> tb_wf s (Clock.sleep w c).
Proof.
  intros (M & L & T & R & P) W. conj; auto.
  cbn. lra.
Qed.

Lemma tb_wf_time {s : TB.t} {c c' : Clock.t} {r : Q} :
  tb_wf s c -> Clock.time c = (r, c') -> tb_wf s c'.
Proof.
  intros (M & L & T & R & P) E.
  destruct (clock_time_spec M E) as (Hle & Hnow & M').
  conj; auto. rewrite Hnow. lra.
Qed.

Lemma acquire_loop_post (fuel : nat) :
  forall n block timeout start s c r s' c',
    tb_wf s c ->
    TB.acquire_loop fuel n block timeout start s c = Some (r, s', c') ->
    tb_wf s' c' /\ tb_same_config s s' /\
    tb_outcome_ok n block timeout s r s'.
Proof.
  induction fuel as [| fuel IH]; intros n block timeout start s c r s' c' W E.
  - discriminate.
  - cbn [TB.acquire_loop] in E.
    destruct (TB._refill_tokens s c) as [s1 c1] eqn:Er.
    destruct (refill_spec W Er) as (W1 & SC & LR & UP & _ & _).
    assert (Hcfg : capacity s1 = capacity s /\
                   TB.window_seconds s1 = TB.window_seconds s).
    { destruct SC as (_ & A & B & _). unfold capacity. now rewrite A, B. }
    destruct Hcfg as (Hcap & Hwin).
    destruct (Qle_bool (inject_Z n) (TB.tokens s1)) eqn:Eg.
    { (* granted *)
      inversion E; subst; clear E. apply Qle_bool_iff in Eg.
      destruct W1 as (M1 & L1 & T1 & R1 & P1).
      split; [conj; cbn; auto; lra |].
      split; [exact SC |]. cbn. lra. }
    apply Qle_bool_false in Eg.
    destruct block; cbn [negb] in E.
    2:{ (* non-blocking: raise *)
      inversion E; subst; clear E.
      split; [exact W1 |]. split; [exact SC |].
      cbn. conj; auto. now rewrite Hwin. }
    assert (Hw : 0 < Qmin ((inject_Z n - TB.tokens s1) / TB.refill_rate s1) 1).
    { apply wait_time_pos; [apply W1 | exact Eg]. }
    destruct timeout as [tmo |].
    + destruct (Clock.time c1) as [t2 c2] eqn:Et.
      assert (W2 := tb_wf_time W1 Et).
      destruct (Qle_bool tmo (t2 - start)) eqn:Eto.
      * inversion E; subst; clear E.
        split; [exact W2 |]. split; [exact SC |].
        cbn. conj; auto. discriminate.
      * apply IH in E; [| apply tb_wf_sleep; [exact W2 | lra]].
        destruct E as (W' & SC' & O).
        split; [exact W' |]. split; [eapply tb_same_config_trans; eauto |].
        destruct r as [[|] | e]; cbn in *; rewrite ?Hcap, ?Hwin in O; exact O.
    + apply IH in E; [| apply tb_wf_sleep; [exact W1 | lra]].
      destruct E as (W' & SC' & O).
      split; [exact W' |]. split; [eapply tb_same_config_trans; eauto |].
      destruct r as [[|] | e]; cbn in *; rewrite ?Hcap, ?Hwin in O; exact O.
Qed.

Lemma tb_init_wf {config : RateLimitConfig.t} {c c0 : Clock.t} {s0 : TB.t} :
  RateLimitConfig.post_init config = true -> Clock.monotone c ->
  TB.init config c = (s0, c0) ->
  tb_wf s0 c0 /\ TB.tokens s0 == capacity s0 /\
  TB.max_requests s0 = RateLimitConfig.max_requests config /\
  TB.enabled s0 = RateLimitConfig.enabled config.
Proof.
  unfold RateLimitConfig.post_init, TB.init. intros V M E.
  destruct (RateLimitConfig.max_requests config <=? 0)%Z eqn:E1;
    [discriminate |].
  destruct (RateLimitConfig.window_seconds config <=? 0)%Z eqn:E2;
    [discriminate |].
  apply Z.leb_gt in E1, E2.
  destruct (Clock.time c) as [now c1] eqn:Ec.
  destruct (clock_time_spec M Ec) as (Hle & Hnow & M').
  inversion E; subst s0 c0; clear E. unfold capacity. cbn.
  assert (H1 : 0 < inject_Z (RateLimitConfig.max_requests config)).
  { change 0 with (inject_Z 0). now rewrite <- Zlt_Qlt. }
  assert (H2 : 0 < inject_Z (RateLimitConfig.window_seconds config)).
  { change 0 with (inject_Z 0). now rewrite <- Zlt_Qlt. }
  conj; cbn [TB.last_refill TB.tokens TB.refill_rate TB.max_requests
             TB.enabled]; rewrite ?Hnow; auto; try reflexivity; try lra.
  apply Qlt_shift_div_l; lra.
Qed.

Lemma tb_acquire_post {fuel n block timeout s c r s' c'} :
  tb_wf s c ->
  TB.acquire fuel n block timeout s c = Some (r, s', c') ->
  tb_wf s' c' /\ tb_same_config s s' /\
  (TB.enabled s = true -> tb_outcome_ok n block timeout s r s') /\
  (TB.enabled s = false -> r = Return true /\ s' = s).
Proof.
  unfold TB.acquire. intros W E.
  destruct (TB.enabled s) eqn:En; cbn [negb] in E.
  - destruct (Clock.time c) as [start c0] eqn:Ec.
    apply acquire_loop_post in E; [| eapply tb_wf_time; eauto].
    destruct E as (W' & SC & O).
    split; [exact W' |]. split; [exact SC |].
    split; [intros _; exact O | intros Hf; discriminate].
  - inversion E; subst; clear E.
    split; [exact W |]. split; [apply tb_same_config_refl |].
    split; [intros Hf; discriminate | auto].
Qed.

Lemma tb_step_inv {o : tb_op} {s c s' c'} :
  tb_wf s c -> tb_step o s c = Some (s', c') ->
  tb_wf s' c' /\ tb_same_config s s' /\
  (tb_nonneg o -> TB.tokens s <= capacity s -> TB.tokens s' <= capacity s').
Proof.
  intros W E. destruct o as [fuel n block timeout | | n |]; cbn [tb_step] in E.
  - destruct (TB.acquire fuel n block timeout s c) as [[[r s1] c1] |] eqn:Ea;
      [| discriminate].
    inversion E; subst; clear E.
    destruct (tb_acquire_post W Ea) as (W' & SC & On & Off).
    split; [exact W' |]. split; [exact SC |]. cbn. intros Hn Hc.
    assert (Hcap : capacity s' = capacity s).
    { unfold capacity. destruct SC as (_ & A & _). now rewrite A. }
    rewrite Hcap.
    destruct (TB.enabled s).
    + specialize (On eq_refl).
      assert (0 <= inject_Z n).
      { change 0 with (inject_Z 0). now rewrite <- Zle_Qle. }
      destruct r as [[|] | e]; cbn in On; lra.
    + destruct (Off eq_refl) as (_ & ->). exact Hc.
  - unfold TB.get_available_tokens in E.
    destruct (TB._refill_tokens s c) as [s1 c1] eqn:Er.
    assert (s' = s1 /\ c' = c1) as (-> & ->) by (cbn in E; inversion E; auto).
    destruct (refill_spec W Er) as (W1 & SC & _).
    split; [exact W1 |]. split; [exact SC |].
    intros Hn Hc. eapply refill_upper; eauto.
  - unfold TB.get_wait_time in E.
    destruct (TB._refill_tokens s c) as [s1 c1] eqn:Er.
    destruct (refill_spec W Er) as (W1 & SC & _).
    assert (s' = s1 /\ c' = c1) as (-> & ->).
    { destruct (Qle_bool (inject_Z n) (TB.tokens s1)); cbn in E; inversion E; auto. }
    split; [exact W1 |]. split; [exact SC |].
    intros Hn Hc. eapply refill_upper; eauto.
  - unfold TB.reset in E. destruct W as (M & L & T & R & P).
    destruct (Clock.time c) as [now c1] eqn:Ec.
    destruct (clock_time_spec M Ec) as (Hle & Hnow & M').
    inversion E; subst s' c'; clear E. unfold capacity.
    assert (Hc := capacity_pos s P). unfold capacity in Hc.
    split; [conj; tb_simpl; auto; rewrite ?Hnow; lra |].
    split; [conj; reflexivity |].
    tb_simpl. intros Hn Hc'. lra.
Qed.

Lemma tb_run_inv {ops : list tb_op} : forall {s c s' c'},
  tb_wf s c -> tb_run ops s c = Some (s', c') ->
  tb_wf s' c' /\ tb_same_config s s' /\
  (Forall tb_nonneg ops -> TB.tokens s <= capacity s ->
   TB.tokens s' <= capacity s').
Proof.
  induction ops as [| o ops IH]; intros s c s' c' W E; cbn in E.
  - inversion E; subst.
    split; [exact W |]. split; [apply tb_same_config_refl | auto].
  - destruct (tb_step o s c) as [[s1 c1] |] eqn:Es; [| discriminate].
    destruct (tb_step_inv W Es) as (W1 & SC1 & U1).
    destruct (IH _ _ _ _ W1 E) as (W' & SC' & U').
    split; [exact W' |]. split; [eapply tb_same_config_trans; eauto |].
    intros F Hc. inversion F; subst. auto.
Qed.

(** A granted acquire never leaves the bucket in debt, whatever the state
    and the clock it started from. *)
Lemma acquire_loop_granted_nonneg (fuel : nat) :
  forall n block timeout start s c s' c',
    TB.acquire_loop fuel n block timeout start s c
      = Some (Return true, s', c') ->
    0 <= TB.tokens s'.
Proof.
  induction fuel as [| fuel IH]; intros n block timeout start s c s' c' E;
    [discriminate |].
  cbn [TB.acquire_loop] in E.
  destruct (TB._refill_tokens s c) as [s1 c1].
  destruct (Qle_bool (inject_Z n) (TB.tokens s1)) eqn:Eg.
  - apply Qle_bool_iff in Eg. injection E as <- <-. tb_simpl. lra.
  - destruct block; cbn [negb] in E; [| discriminate].
    destruct timeout as [tmo |].
    + destruct (Clock.time c1) as [t2 c2].
      destruct (Qle_bool tmo (t2 - start)); [discriminate |].
      eapply IH; eauto.
    + eapply IH; eauto.
Qed.

(** C5. The two bounds hold for every state and every clock: a refill
    leaves at most [max_requests] tokens, and a granted acquire leaves at
    least 0.  For every sequence of operations on a token bucket built from
    a valid configuration, under a clock that never runs backwards, the
    bucket is never in debt, and when no acquisition asks for a negative
    amount it holds between 0 and [max_requests] tokens at every point. *)
Theorem token_bucket_invariant :
  (forall s c s1 c1,
     TB._refill_tokens s c = (s1, c1) ->
     TB.tokens s1 <= inject_Z (TB.max_requests s1)) /\
  (forall fuel n block timeout s c s' c',
     TB.enabled s = true ->
     TB.acquire fuel n block timeout s c = Some (Return true, s', c') ->
     0 <= TB.tokens s') /\
  (forall config c c0 s0 ops s' c',
     RateLimitConfig.post_init config = true ->
     Clock.monotone c ->
     TB.init config c = (s0, c0) ->
     tb_run ops s0 c0 = Some (s', c') ->
     0 <= TB.tokens s' /\
     (Forall tb_nonneg ops ->
      TB.tokens s' <= inject_Z (RateLimitConfig.max_requests config))).
Proof.
  split; [| split].
  - intros s c s1 c1 E. exact (refill_upper E).
  - intros fuel n block timeout s c s' c' En E.
    unfold TB.acquire in E. rewrite En in E. cbn [negb] in E.
    destruct (Clock.time c) as [start c0].
    eapply acquire_loop_granted_nonneg; eauto.
  - intros config c c0 s0 ops s' c' V M Ei Er.
    destruct (tb_init_wf V M Ei) as (W0 & T0 & Hmax & _).
    destruct (tb_run_inv W0 Er) as (W' & SC & U).
    assert (Hcap : capacity s'
                   = inject_Z (RateLimitConfig.max_requests config)).
    { unfold capacity. destruct SC as (_ & A & _). now rewrite A, Hmax. }
    split; [apply W' |].
    intros F. rewrite <- Hcap. apply U; [exact F |]. rewrite T0. lra.
Qed.

(** C7. With the limiter enabled, a non-blocking acquire that finds fewer
    than [n] tokens after its refill raises [RateLimitExceededError] with
    [retry_after] equal to [window_seconds]; the state it leaves is the
    refilled state, so nothing was taken from the bucket. *)
Theorem acquire_nonblocking_raises (fuel : nat) (n : Z) (timeout : option Q)
    (s s1 : TB.t) (c c0 c1 : Clock.t) (start : Q) :
  TB.enabled s = true ->
  Clock.time c = (start, c0) ->
  TB._refill_tokens s c0 = (s1, c1) ->
  TB.tokens s1 < inject_Z n ->
  TB.acquire (S fuel) n false timeout s c
    = Some (Raise (RateLimitExceededError (TB.window_seconds s)), s1, c1) /\
  (tb_wf s c -> Qmin (TB.tokens s) (capacity s) <= TB.tokens s1).
Proof.
  intros En Ec Er Hlt. split.
  - unfold TB.acquire. rewrite En, Ec. cbn [negb TB.acquire_loop].
    rewrite Er.
    destruct (Qle_bool (inject_Z n) (TB.tokens s1)) eqn:Eg.
    + apply Qle_bool_iff in Eg. lra.
    + cbn [negb]. unfold TB._refill_tokens in Er.
      destruct (Clock.time c0). inversion Er; subst. reflexivity.
  - intros W. assert (W0 := tb_wf_time W Ec).
    destruct (refill_spec W0 Er) as (_ & _ & _ & _ & Hlow & _).
    destruct W0 as (_ & L & _ & R & _).
    eapply Qle_trans; [| exact Hlow]. apply Q.min_le_compat_r.
    assert (0 <= (Clock.now c0 - TB.last_refill s) * TB.refill_rate s).
    { apply Qmult_le_0_compat; lra. }
    lra.
Qed.

(** *** Termination of the blocking acquire *)

Lemma Q_archimedean (x : Q) : exists k : nat, x <= inject_Z (Z.of_nat k).
Proof.
  exists (Z.to_nat (Qceiling x)).
  eapply Qle_trans; [apply Qle_ceiling |].
  rewrite <- Zle_Qle. lia.
Qed.

Lemma inject_Z_succ (k : nat) :
  inject_Z (Z.of_nat (S k)) == inject_Z (Z.of_nat k) + 1.
Proof. rewrite Nat2Z.inj_succ. unfold Z.succ. now rewrite inject_Z_plus. Qed.

(** A request above capacity is never granted: every refill caps the
    bucket at [max_requests]. *)
Lemma acquire_loop_above_capacity (n : Z) (start : Q) (fuel : nat) :
  forall s c,
    (TB.max_requests s < n)%Z ->
    TB.acquire_loop fuel n true None start s c = None.
Proof.
  induction fuel as [| fuel IH]; intros s c Hn; [reflexivity |].
  cbn [TB.acquire_loop].
  destruct (TB._refill_tokens s c) as [s1 c1] eqn:Er.
  assert (Hup := refill_upper Er).
  assert (Hm : TB.max_requests s1 = TB.max_requests s).
  { unfold TB._refill_tokens in Er. destruct (Clock.time c).
    inversion Er; subst. reflexivity. }
  destruct (Qle_bool (inject_Z n) (TB.tokens s1)) eqn:Eg.
  - apply Qle_bool_iff in Eg. unfold capacity in Hup. rewrite Hm in Hup.
    rewrite Zlt_Qlt in Hn. lra.
  - cbn [negb]. apply IH. now rewrite Hm.
Qed.

(** With a request within capacity the loop ends after at most [S k]
    rounds, where [k] bounds the missing tokens in units of one second of
    refill; without a timeout it can only end by granting. *)
Lemma acquire_loop_returns (n : Z) (timeout : option Q) (start : Q)
    (k : nat) :
  forall s c,
    tb_wf s c ->
    (n <= TB.max_requests s)%Z ->
    inject_Z n
      - (TB.tokens s + (Clock.now c - TB.last_refill s) * TB.refill_rate s)
      <= inject_Z (Z.of_nat k) * TB.refill_rate s ->
    exists b s' c',
      TB.acquire_loop (S k) n true timeout start s c
      = Some (Return b, s', c') /\ (timeout = None -> b = true).
Proof.
  induction k as [| k IH]; intros s c W Hn Hd; cbn [TB.acquire_loop].
  - destruct (TB._refill_tokens s c) as [s1 c1] eqn:Er.
    destruct (refill_spec W Er) as (_ & _ & _ & _ & Hlow & _).
    destruct (Qle_bool (inject_Z n) (TB.tokens s1)) eqn:Eg; [eauto 6 |].
    apply Qle_bool_false in Eg. exfalso.
    rewrite Zle_Qle in Hn. fold (capacity s) in Hn.
    cbn [Z.of_nat] in Hd. change (inject_Z 0) with 0 in Hd.
    assert (inject_Z n <=
            Qmin (TB.tokens s
                  + (Clock.now c - TB.last_refill s) * TB.refill_rate s)
                 (capacity s)).
    { apply Q.min_glb; lra. }
    lra.
  - destruct (TB._refill_tokens s c) as [s1 c1] eqn:Er.
    destruct (refill_spec W Er) as (W1 & SC & LR & _ & Hlow & _).
    destruct (Qle_bool (inject_Z n) (TB.tokens s1)) eqn:Eg; [eauto 6 |].
    apply Qle_bool_false in Eg. cbn [negb].
    destruct SC as (_ & Hm & _ & Hr).
    assert (R : 0 < TB.refill_rate s) by apply W.
    assert (Hw : 0 < Qmin ((inject_Z n - TB.tokens s1) / TB.refill_rate s1) 1).
    { apply wait_time_pos; [apply W1 | exact Eg]. }
    (* the state of the clock when the loop goes to sleep *)
    assert (Hgo : forall c2, tb_wf s1 c2 -> Clock.now c1 <= Clock.now c2 ->
      exists b s' c',
        TB.acquire_loop (S k) n true timeout start s1
          (Clock.sleep
             (Qmin ((inject_Z n - TB.tokens s1) / TB.refill_rate s1) 1) c2)
        = Some (Return b, s', c') /\ (timeout = None -> b = true)).
    { intros c2 W2 H12. apply IH.
      - apply tb_wf_sleep; [exact W2 | lra].
      - now rewrite Hm.
      - cbn [Clock.sleep Clock.now]. rewrite LR, Hr in *.
        rewrite inject_Z_succ in Hd.
        rewrite Zle_Qle in Hn. fold (capacity s) in Hn.
        set (phi := TB.tokens s
              + (Clock.now c - TB.last_refill s) * TB.refill_rate s) in *.
        assert (Hphi : phi <= TB.tokens s1).
        { destruct (Q.min_spec phi (capacity s)) as [[_ Hq] | [_ Hq]];
            rewrite Hq in Hlow; lra. }
        set (d := inject_Z n - TB.tokens s1) in *.
        assert (Hadv : 0 <= (Clock.now c2 - Clock.now c1) * TB.refill_rate s).
        { apply Qmult_le_0_compat; lra. }
        destruct (Q.min_spec (d / TB.refill_rate s) 1)
          as [[Hlt Hq] | [Hge Hq]]; rewrite Hq.
        + assert (Hk : 0 <= inject_Z (Z.of_nat k) * TB.refill_rate s).
          { apply Qmult_le_0_compat; [| lra].
            change 0 with (inject_Z 0). rewrite <- Zle_Qle. lia. }
          assert (He : (Clock.now c2 + d / TB.refill_rate s - Clock.now c1)
                       * TB.refill_rate s
                       == (Clock.now c2 - Clock.now c1) * TB.refill_rate s + d).
          { field. lra. }
          rewrite He. unfold d. lra.
        + unfold d in *. lra. }
    destruct timeout as [tmo |].
    + destruct (Clock.time c1) as [t2 c2] eqn:Et.
      destruct (Qle_bool tmo (t2 - start)).
      { exists false, s1, c2. split; [reflexivity | discriminate]. }
      apply Hgo; [eapply tb_wf_time; eauto |].
      destruct (clock_time_spec (proj1 W1) Et) as (Hle & Hnow & _).
      rewrite Hnow. exact Hle.
    + apply Hgo; [exact W1 | lra].
Qed.





Lemma tb_equiv_sym (s1 s2 : TB.t) : tb_equiv s1 s2 -> tb_equiv s2 s1.
Proof.
  unfold tb_equiv, tb_same_config. intros ((A1 & A2 & A3 & A4) & B & C).
  conj; (symmetry; assumption).
Qed.



Lemma Q_archimedean_mult (y w : Q) :
  0 < w -> exists k : nat, y <= inject_Z (Z.of_nat k) * w.
Proof.
  intros Hw. destruct (Q_archimedean (y / w)) as [k Hk]. exists k.
  assert (E : y == y / w * w) by (field; lra).
  rewrite E at 1. apply Qmult_le_compat_r; lra.
Qed.

(** C10. With the limiter enabled, a blocking acquire without timeout
    returns (and then returns [True]) exactly when the request is at most
    [max_requests]; a larger request is still looping after any number of
    rounds. *)
Theorem blocking_acquire_terminates_iff (n : Z) (s : TB.t) (c : Clock.t) :
  tb_wf s c -> TB.enabled s = true ->
  ((exists fuel s' c',
       TB.acquire fuel n true None s c = Some (Return true, s', c'))
   <-> (n <= TB.max_requests s)%Z) /\
  ((TB.max_requests s < n)%Z ->
   forall fuel, TB.acquire fuel n true None s c = None) /\
  (forall fuel r s' c',
     TB.acquire fuel n true None s c = Some (r, s', c') -> r = Return true).
Proof.
  intros W En.
  assert (Hloop : (TB.max_requests s < n)%Z ->
                  forall fuel, TB.acquire fuel n true None s c = None).
  { intros Hn fuel. unfold TB.acquire. rewrite En. cbn [negb].
    destruct (Clock.time c) as [start c0].
    now apply acquire_loop_above_capacity. }
  split; [split |]; [| | split; [exact Hloop |]].
  - intros (fuel & s' & c' & E).
    destruct (Z_le_gt_dec n (TB.max_requests s)) as [H | H]; [exact H |].
    rewrite Hloop in E by lia. discriminate.
  - intros Hn. unfold TB.acquire. rewrite En. cbn [negb].
    destruct (Clock.time c) as [start c0] eqn:Ec.
    assert (W0 := tb_wf_time W Ec).
    destruct (Q_archimedean_mult
                (inject_Z n - (TB.tokens s + (Clock.now c0 - TB.last_refill s)
                                             * TB.refill_rate s))
                (TB.refill_rate s)) as [k Hk]; [apply W |].
    destruct (acquire_loop_returns n None start k s c0 W0 Hn Hk)
      as (b & s' & c' & E & Hb).
    rewrite (Hb eq_refl) in E. eauto.
  - intros fuel r s' c' E.
    destruct (tb_acquire_post W E) as (_ & _ & O & _).
    specialize (O En). destruct r as [[|] | e]; cbn in O.
    + reflexivity.
    + destruct O as (_ & Hnone & _). now elim Hnone.
    + destruct O as (Hb & _). discriminate.
Qed.


(** *** Examples *)

Lemma ideal_monotone (t : Q) : Clock.monotone (Clock.ideal t).
Proof. intros k. cbn. apply Qle_refl. Qed.

Lemma tb_drained_wf : tb_wf tb_drained (Clock.ideal 0).
Proof.
  unfold tb_wf, tb_drained. tb_simpl. cbn [Clock.ideal Clock.now].
  split; [apply ideal_monotone |]. conj; try lra. lia.
Qed.



Lemma tb_demo_ops_nonneg : Forall tb_nonneg tb_demo_ops.
Proof. unfold tb_demo_ops. repeat constructor; cbn; lia. Qed.

Lemma token_bucket_invariant_witness :
  match tb_demo_run with
  | Some (s', _) => 0 <= TB.tokens s' /\ TB.tokens s' <= 2
  | None => False
  end.
Proof.
  unfold tb_demo_run.
  destruct (TB.init tb_demo_config (Clock.ideal 0)) as [s0 c0] eqn:Ei.
  destruct (tb_run tb_demo_ops s0 c0) as [[s' c'] |] eqn:Er.
  - destruct (proj2 (proj2 token_bucket_invariant) tb_demo_config
                (Clock.ideal 0) c0 s0 tb_demo_ops s' c'
                eq_refl (ideal_monotone 0) Ei Er) as (H0 & H1).
    split; [exact H0 | exact (H1 tb_demo_ops_nonneg)].
  - injection Ei as <- <-. vm_compute in Er. discriminate Er.
Defined.

Lemma acquire_nonblocking_raises_witness :
  TB.acquire 1 1 false None tb_drained (Clock.ideal 0)
  = Some (Raise (RateLimitExceededError 1),
          refill_at 0 tb_drained, Clock.mk 0 2 (fun _ => 0)).
Proof.
  apply (acquire_nonblocking_raises 0 1 None tb_drained
           (refill_at 0 tb_drained)
           (Clock.ideal 0) (Clock.mk 0 1 (fun _ => 0))
           (Clock.mk 0 2 (fun _ => 0)) 0).
  - reflexivity.
  - reflexivity.
  - reflexivity.
  - vm_compute. reflexivity.
Defined.

Lemma blocking_acquire_terminates_iff_witness :
  (exists fuel s' c',
      TB.acquire fuel 1 true None tb_drained (Clock.ideal 0)
      = Some (Return true, s', c'))
  <-> (1 <= TB.max_requests tb_drained)%Z.
Proof.
  apply (blocking_acquire_terminates_iff 1 tb_drained (Clock.ideal 0)
           tb_drained_wf eq_refl).
Defined.

(** ** Sliding window *)

Lemma popleft_while_spec (cutoff : Q) (l : list Q) :
  StronglySorted Qle l ->
  StronglySorted Qle (SW.popleft_while cutoff l) /\
  Forall (fun t => cutoff <= t) (SW.popleft_while cutoff l) /\
  (exists old, l = old ++ SW.popleft_while cutoff l) /\
  (List.length (SW.popleft_while cutoff l) <= List.length l)%nat.
Proof.
  induction l as [| r rest IH]; intros S; cbn [SW.popleft_while].
  - split; [constructor |]. split; [constructor |].
    split; [exists []; reflexivity | lia].
  - apply StronglySorted_inv in S. destruct S as (Srest & Hr).
    destruct (Qlt_bool r cutoff) eqn:E.
    + destruct (IH Srest) as (A & B & (old & C) & D).
      split; [exact A |]. split; [exact B |].
      split; [exists (r :: old); cbn; now rewrite <- C | cbn; lia].
    + apply Qlt_bool_false in E.
      split; [now constructor |]. split.
      * constructor; [exact E |].
        eapply Forall_impl; [| exact Hr]. cbn. intros t Ht.
        eapply Qle_trans; eauto.
      * split; [exists []; reflexivity | lia].
Qed.

Lemma Forall_suffix {A : Type} (P : A -> Prop) (old l : list A) :
  Forall P (old ++ l) -> Forall P l.
Proof. intros H. apply Forall_app in H. apply H. Qed.

Lemma StronglySorted_snoc (l : list Q) (x : Q) :
  StronglySorted Qle l -> Forall (fun t => t <= x) l ->
  StronglySorted Qle (l ++ [x]).
Proof.
  induction l as [| a l IH]; intros S F; cbn.
  - repeat constructor.
  - apply StronglySorted_inv in S. destruct S as (S & Ha).
    apply Forall_cons_iff in F. destruct F as (Fa & F).
    constructor; [auto |]. apply Forall_app. split; [exact Ha |].
    now repeat constructor.
Qed.

Lemma sw_wf_later {s : SW.t} {c c' : Clock.t} :
  sw_wf s c -> Clock.monotone c' -> Clock.now c <= Clock.now c' ->
  sw_wf s c'.
Proof.
  intros (M & S & F & L) M' H. unfold sw_wf. conj; auto.
  eapply Forall_impl; [| exact F]. cbn. intros t Ht. lra.
Qed.

Lemma sw_wf_time {s : SW.t} {c c' : Clock.t} {r : Q} :
  sw_wf s c -> Clock.time c = (r, c') -> sw_wf s c'.
Proof.
  intros W E. destruct (clock_time_spec (proj1 W) E) as (Hle & Hnow & M').
  apply (sw_wf_later W M'). rewrite Hnow. exact Hle.
Qed.

Lemma clean_spec {s s1 : SW.t} {c c1 : Clock.t} {now : Q} :
  sw_wf s c -> SW._clean_old_requests s c = (now, s1, c1) ->
  sw_wf s1 c1 /\ sw_same_config s s1 /\ in_window now s1 /\
  Clock.now c1 = now.
Proof.
  intros W E. unfold SW._clean_old_requests in E.
  destruct (Clock.time c) as [t c'] eqn:Ec.
  assert (W' := sw_wf_time W Ec).
  destruct (clock_time_spec (proj1 W) Ec) as (Hle & Hnow & M').
  inversion E; subst now s1 c1; clear E.
  destruct W' as (_ & S & F & L).
  destruct (popleft_while_spec (t - inject_Z (SW.window_seconds s)) _ S)
    as (S1 & F1 & (old & Hold) & Hlen).
  assert (F2 : Forall (fun x => x <= Clock.now c')
                 (SW.popleft_while (t - inject_Z (SW.window_seconds s))
                                   (SW.requests s))).
  { rewrite Hold in F. exact (Forall_suffix _ _ _ F). }
  unfold sw_wf, sw_same_config, in_window, SW.len in *.
  cbn [SW.requests SW.max_requests SW.window_seconds SW.enabled].
  conj; auto; try lia.
  rewrite Hnow in F2. apply Forall_and; assumption.
Qed.

Lemma sw_same_config_trans s1 s2 s3 :
  sw_same_config s1 s2 -> sw_same_config s2 s3 -> sw_same_config s1 s3.
Proof.
  unfold sw_same_config. intros (A1 & A2 & A3) (B1 & B2 & B3).
  conj; congruence.
Qed.

Lemma sw_acquire_loop_post (fuel : nat) :
  forall block timeout start s c r s' c',
    sw_wf s c ->
    SW.acquire_loop fuel block timeout start s c = Some (r, s', c') ->
    sw_wf s' c' /\ sw_same_config s s'.
Proof.
  induction fuel as [| fuel IH];
    intros block timeout start s c r s' c' W E; [discriminate |].
  cbn [SW.acquire_loop] in E.
  destruct (SW._clean_old_requests s c) as [[now s1] c1] eqn:Ecl.
  destruct (clean_spec W Ecl) as (W1 & SC & _ & _).
  destruct (SW.len s1 <? SW.max_requests s1)%Z eqn:Eg.
  { (* granted: the new timestamp is the latest *)
    apply Z.ltb_lt in Eg.
    destruct (Clock.time c1) as [stamp c2] eqn:Et.
    destruct (clock_time_spec (proj1 W1) Et) as (Hle & Hnow & M2).
    inversion E; subst r s' c'; clear E.
    split; [| exact SC].
    destruct W1 as (_ & S & F & L).
    assert (F' : Forall (fun t => t <= stamp) (SW.requests s1)).
    { eapply Forall_impl; [| exact F]. cbn. intros t Ht. lra. }
    unfold sw_wf, SW.append, SW.len in *.
    cbn [SW.requests SW.max_requests]. rewrite Hnow.
    conj; auto.
    - now apply StronglySorted_snoc.
    - apply Forall_app. split; [exact F' |].
      constructor; [apply Qle_refl | constructor].
    - rewrite length_app. cbn [List.length]. lia. }
  destruct block; cbn [negb] in E.
  2:{ inversion E; subst; clear E. auto. }
  assert (Hrec : forall c2, sw_wf s1 c2 ->
    (let (wait_time, c3) :=
       match SW.requests s1 with
       | [] => (0.1, c2)
       | oldest_request :: _ =>
           let (t3, c3) := Clock.time c2 in
           (Qmax 0.1
              (Qmin (oldest_request + inject_Z (SW.window_seconds s1) - t3) 1),
            c3)
       end in
     SW.acquire_loop fuel true timeout start s1 (Clock.sleep wait_time c3))
    = Some (r, s', c') ->
    sw_wf s' c' /\ sw_same_config s s').
  { intros c2 W2 E2.
    assert (Hsleep : forall w c3, sw_wf s1 c3 -> 0.1 <= w ->
              sw_wf s1 (Clock.sleep w c3)).
    { intros w c3 W3 Hw. apply (sw_wf_later W3).
      - apply clock_sleep_monotone, W3.
      - cbn. lra. }
    destruct (SW.requests s1) as [| oldest rest].
    - apply IH in E2; [| apply Hsleep; [exact W2 | lra]].
      destruct E2 as (A & B). split; [exact A |].
      eapply sw_same_config_trans; eauto.
    - destruct (Clock.time c2) as [t3 c3] eqn:Et3.
      apply IH in E2;
        [| apply Hsleep; [eapply sw_wf_time; eauto | apply Q.le_max_l]].
      destruct E2 as (A & B). split; [exact A |].
      eapply sw_same_config_trans; eauto. }
  destruct timeout as [tmo |].
  - destruct (Clock.time c1) as [t2 c2] eqn:Et.
    assert (W2 := sw_wf_time W1 Et).
    destruct (Qle_bool tmo (t2 - start)).
    + inversion E; subst; clear E. auto.
    + apply (Hrec c2 W2 E).
  - apply (Hrec c1 W1 E).
Qed.

Lemma sw_step_inv {o : sw_op} {s c s' c'} :
  sw_wf s c -> sw_step o s c = Some (s', c') ->
  sw_wf s' c' /\ sw_same_config s s'.
Proof.
  intros W E. destruct o as [fuel block timeout | |]; cbn [sw_step] in E.
  - destruct (SW.acquire fuel block timeout s c) as [[[r s1] c1] |] eqn:Ea;
      [| discriminate].
    assert (s' = s1 /\ c' = c1) as (-> & ->) by (inversion E; auto).
    unfold SW.acquire in Ea. destruct (SW.enabled s); cbn [negb] in Ea.
    + destruct (Clock.time c) as [start c0] eqn:Ec.
      eapply sw_acquire_loop_post; [| exact Ea]. eapply sw_wf_time; eauto.
    + inversion Ea; subst. split; [exact W |]. unfold sw_same_config. auto.
  - unfold SW.get_request_count in E.
    destruct (SW._clean_old_requests s c) as [[now s1] c1] eqn:Ecl.
    assert (s' = s1 /\ c' = c1) as (-> & ->) by (inversion E; auto).
    destruct (clean_spec W Ecl) as (W1 & SC & _). auto.
  - inversion E; subst; clear E. destruct W as (M & S & F & L).
    unfold sw_wf, sw_same_config, SW.reset, SW.len in *.
    cbn [SW.requests SW.max_requests SW.window_seconds SW.enabled
         List.length].
    conj; auto; try constructor.
    cbn. lia.
Qed.

Lemma sw_run_inv (ops : list sw_op) : forall s c s' c',
  sw_wf s c -> sw_run ops s c = Some (s', c') ->
  sw_wf s' c' /\ sw_same_config s s'.
Proof.
  induction ops as [| o ops IH]; intros s c s' c' W E; cbn [sw_run] in E.
  - inversion E; subst. split; [exact W |]. unfold sw_same_config. auto.
  - destruct (sw_step o s c) as [[s1 c1] |] eqn:Es; [| discriminate].
    destruct (sw_step_inv W Es) as (W1 & SC1).
    destruct (IH _ _ _ _ W1 E) as (W' & SC').
    split; [exact W' | eapply sw_same_config_trans; eauto].
Qed.

Lemma sw_init_wf (config : RateLimitConfig.t) (c : Clock.t) :
  RateLimitConfig.post_init config = true -> Clock.monotone c ->
  sw_wf (SW.init config) c.
Proof.
  unfold RateLimitConfig.post_init. intros V M.
  destruct (RateLimitConfig.max_requests config <=? 0)%Z eqn:E1;
    [discriminate |].
  apply Z.leb_gt in E1.
  unfold sw_wf, SW.init, SW.len. cbn [SW.requests SW.max_requests List.length].
  conj; auto; try constructor. cbn. lia.
Qed.

(** C6. For every sequence of operations on a sliding window built from a
    valid configuration, under a clock that never runs backwards: the
    window never holds more than [max_requests] timestamps, in particular
    not after a granted acquire; and after the trim step at clock reading
    [now] every retained timestamp lies in
    [[now - window_seconds, now]]. *)
Theorem sliding_window_invariant (config : RateLimitConfig.t) (c : Clock.t)
    (ops : list sw_op) (s' : SW.t) (c' : Clock.t) :
  RateLimitConfig.post_init config = true ->
  Clock.monotone c ->
  sw_run ops (SW.init config) c = Some (s', c') ->
  (SW.len s' <= RateLimitConfig.max_requests config)%Z /\
  (forall now s2 c2,
     SW._clean_old_requests s' c' = (now, s2, c2) ->
     Forall (fun t =>
               now - inject_Z (RateLimitConfig.window_seconds config) <= t
               /\ t <= now)
            (SW.requests s2) /\
     (SW.len s2 <= RateLimitConfig.max_requests config)%Z).
Proof.
  intros V M E.
  destruct (sw_run_inv _ _ _ _ _ (sw_init_wf config c V M) E) as (W' & SC).
  destruct SC as (_ & Hm & Hw). cbn [SW.init SW.max_requests
                                      SW.window_seconds] in Hm, Hw.
  split.
  - rewrite <- Hm. apply W'.
  - intros now s2 c2 Ecl.
    destruct (clean_spec W' Ecl) as (W2 & (_ & Hm2 & Hw2) & IW & _).
    split.
    + unfold in_window in IW. rewrite Hw2, Hw in IW. exact IW.
    + rewrite <- Hm, <- Hm2. apply W2.
Qed.

Lemma sliding_window_invariant_witness :
  match sw_demo_run with
  | Some (s', _) => (SW.len s' <= 2)%Z
  | None => False
  end.
Proof.
  unfold sw_demo_run.
  destruct (sw_run sw_demo_ops (SW.init (RateLimitConfig.mk 2 1 true))
                   (Clock.ideal 0)) as [[s' c'] |] eqn:Er.
  - exact (proj1 (sliding_window_invariant (RateLimitConfig.mk 2 1 true)
                    (Clock.ideal 0) sw_demo_ops s' c'
                    eq_refl (ideal_monotone 0) Er)).
  - vm_compute in Er. discriminate Er.
Defined.

(** ** Cache *)

Section CacheFacts.
Context {V : Type}.
Implicit Types (ls : list (string * cached V * Q)) (key : string).

Lemma find_app key ls ls' :
  TTLCache.find key (ls ++ ls')
  = match TTLCache.find key ls with
    | Some x => Some x
    | None => TTLCache.find key ls'
    end.
Proof.
  induction ls as [| [[k v] e] ls IH]; cbn; [reflexivity |].
  destruct (String.eqb k key); auto.
Qed.

Lemma find_remove key ls : TTLCache.find key (TTLCache.remove key ls) = None.
Proof.
  induction ls as [| [[k v] e] ls IH]; cbn; [reflexivity |].
  unfold TTLCache.link_key. cbn.
  destruct (String.eqb k key) eqn:E; cbn; [exact IH |].
  now rewrite E.
Qed.

Lemma find_evict_none key (maxsize : Z) ls :
  TTLCache.find key ls = None ->
  TTLCache.find key (TTLCache.evict maxsize ls) = None.
Proof.
  induction ls as [| [[k v] e] ls IH]; intros H; [reflexivity |].
  cbn [TTLCache.evict].
  assert (Hrest : TTLCache.find key ls = None).
  { cbn in H. destruct (String.eqb k key); [discriminate | exact H]. }
  destruct (maxsize <? Z.of_nat (List.length ((k, v, e) :: ls)) + 1)%Z;
    auto.
Qed.

Lemma find_self key (x : cached V) (e : Q) :
  TTLCache.find key [(key, x, e)] = Some (x, e).
Proof. cbn. now rewrite String.eqb_refl. Qed.

(** Storing under [key] makes [key] map to the stored value, which expires
    [ttl] after the store. *)
Lemma setitem_find (time : Q) key (x : cached V)
    (c c' : TTLCache.t (cached V)) :
  (1 <= TTLCache.maxsize c)%Z ->
  TTLCache.setitem time key x c = inr c' ->
  TTLCache.find key (TTLCache.links c') = Some (x, time + TTLCache.ttl c) /\
  TTLCache.maxsize c' = TTLCache.maxsize c /\
  TTLCache.ttl c' = TTLCache.ttl c.
Proof.
  unfold TTLCache.setitem. intros Hm E.
  destruct (TTLCache.maxsize c <? 1)%Z eqn:Em; [discriminate |].
  inversion E; subst c'; clear E. cbn [TTLCache.links TTLCache.maxsize
                                       TTLCache.ttl].
  split; [| auto]. rewrite find_app.
  destruct (TTLCache.find key (TTLCache.expire_links time (TTLCache.links c)))
    eqn:Ef.
  - rewrite find_remove. apply find_self.
  - rewrite find_evict_none by exact Ef. apply find_self.
Qed.

Lemma setitem_succeeds (time : Q) key (x : cached V)
    (c : TTLCache.t (cached V)) :
  (1 <= TTLCache.maxsize c)%Z ->
  exists c', TTLCache.setitem time key x c = inr c'.
Proof.
  unfold TTLCache.setitem. intros Hm.
  destruct (TTLCache.maxsize c <? 1)%Z eqn:Em; [| eauto].
  apply Z.ltb_lt in Em. lia.
Qed.

End CacheFacts.

Section CacheTTL.
Context {V : Type}.

Lemma cm_delete_clock (key : string) (m m' : CacheManager.t V)
    (c c' : Clock.t) :
  Clock.monotone c -> CacheManager.delete key m c = (m', c') ->
  Clock.now c <= Clock.now c'.
Proof.
  unfold CacheManager.delete, MemoryCacheBackend.delete, Clock.monotonic.
  intros M E.
  destruct (negb (CacheManager.enabled m)).
  { injection E as <- <-. apply Qle_refl. }
  destruct (Clock.time c) as [t1 c1] eqn:E1.
  destruct (clock_time_spec M E1) as (H1 & N1 & M1).
  destruct (TTLCache.contains t1 key
              (MemoryCacheBackend._cache (CacheManager.backend m))).
  - destruct (Clock.time c1) as [t2 c2] eqn:E2.
    destruct (clock_time_spec M1 E2) as (H2 & N2 & M2).
    injection E as <- <-. rewrite N2. rewrite N1 in H2. lra.
  - injection E as <- <-. rewrite N1. lra.
Qed.

(** What [set] with a positive [ttl] leaves in the backend. *)
Lemma cm_set_spec (key : string) (v : option V) (T : Z)
    (m m1 : CacheManager.t V) (c c1 : Clock.t) :
  cm_wf m -> Clock.monotone c -> (0 < T)%Z ->
  CacheManager.set key v (Some T) m c = (m1, c1) ->
  exists t_mono,
    fst (Clock.time c) <= t_mono /\ t_mono <= Clock.now c1 /\
    CacheManager.enabled m1 = true /\
    TTLCache.find key
      (TTLCache.links (MemoryCacheBackend._cache (CacheManager.backend m1)))
    = Some (IsEntry (CacheEntry.mk v (fst (Clock.time c) + inject_Z T)),
            t_mono + inject_Z (CacheConfig.ttl (CacheManager.config m))).
Proof.
  intros (En & Vc & Hms & Httl) M HT E.
  unfold CacheManager.set in E. rewrite En in E. cbn [negb] in E.
  unfold CacheManager.ttl_or_default in E.
  replace (T =? 0)%Z with false in E by (symmetry; apply Z.eqb_neq; lia).
  replace (T <=? 0)%Z with false in E by (symmetry; apply Z.leb_gt; lia).
  destruct (Clock.time c) as [t_set c0] eqn:Ec.
  destruct (clock_time_spec M Ec) as (H0 & N0 & M0).
  unfold MemoryCacheBackend.set, Clock.monotonic in E.
  destruct (Clock.time c0) as [t_mono c0'] eqn:Ec0.
  destruct (clock_time_spec M0 Ec0) as (H1 & N1 & M1).
  assert (Hmax : (1 <= TTLCache.maxsize
                        (MemoryCacheBackend._cache (CacheManager.backend m)))%Z).
  { rewrite Hms. unfold CacheConfig.post_init in Vc.
    destruct (CacheConfig.ttl (CacheManager.config m) <=? 0)%Z;
      [discriminate |].
    destruct (CacheConfig.max_size (CacheManager.config m) <=? 0)%Z eqn:E2;
      [discriminate |].
    apply Z.leb_gt in E2. lia. }
  destruct (setitem_succeeds t_mono key
              (IsEntry (CacheEntry.mk v (t_set + inject_Z T))) _ Hmax)
    as [cache' Es].
  rewrite Es in E. inversion E; subst m1 c1; clear E.
  destruct (setitem_find _ _ _ _ _ Hmax Es) as (Hf & _ & _).
  exists t_mono. cbn [fst CacheManager.with_backend CacheManager.backend
                      CacheManager.enabled MemoryCacheBackend._cache].
  rewrite N1, <- Httl. rewrite N0 in H1.
  split; [exact H1 |]. split; [apply Qle_refl |]. split; [exact En | exact Hf].
Qed.

(** C2 (as the code has it). After [set(key, v, ttl=T)] with [T > 0] on an
    enabled manager over the in-memory backend, a later [get(key)] returns
    [v] as long as the time elapsed since the set is below both [T] and
    the backend's own [ttl] (the configured default), and returns [None]
    once the elapsed time has reached [T]. *)
Theorem cache_get_after_set (key : string) (v : option V) (T : Z)
    (m m1 m2 : CacheManager.t V) (c c1 c2 c3 : Clock.t) (r : option V) :
  cm_wf m -> Clock.monotone c -> (0 < T)%Z ->
  CacheManager.set key v (Some T) m c = (m1, c1) ->
  Clock.monotone c2 -> Clock.now c1 <= Clock.now c2 ->
  CacheManager.get key m1 c2 = (r, m2, c3) ->
  (Clock.now c3 - fst (Clock.time c) < inject_Z T ->
   Clock.now c3 - fst (Clock.time c)
     < inject_Z (CacheConfig.ttl (CacheManager.config m)) ->
   r = v) /\
  (inject_Z T <= Clock.now c2 - fst (Clock.time c) -> r = None).
Proof.
  intros W M HT Es M2 Hlater Eg.
  destruct (cm_set_spec key v T m m1 c c1 W M HT Es)
    as (t_mono & Hs1 & Hs2 & En1 & Hf).
  set (t_set := fst (Clock.time c)) in *.
  set (ttl := inject_Z (CacheConfig.ttl (CacheManager.config m))) in *.
  unfold CacheManager.get in Eg. rewrite En1 in Eg. cbn [negb] in Eg.
  unfold MemoryCacheBackend.get, Clock.monotonic in Eg.
  destruct (Clock.time c2) as [t1 c2a] eqn:E1.
  destruct (clock_time_spec M2 E1) as (H1 & N1 & M2a).
  unfold TTLCache.contains, TTLCache.getitem in Eg. rewrite Hf in Eg.
  destruct (Qlt_bool t1 (t_mono + ttl)) eqn:B1.
  2:{ (* the backend has dropped the item *)
    apply Qlt_bool_false in B1.
    injection Eg as <- <- <-. rewrite N1.
    split; [intros; lra | reflexivity]. }
  destruct (Clock.time c2a) as [t2 c2b] eqn:E2.
  destruct (clock_time_spec M2a E2) as (H2 & N2 & M2b).
  rewrite N1 in H2.
  destruct (Qlt_bool t2 (t_mono + ttl)) eqn:B2.
  2:{ apply Qlt_bool_false in B2.
      injection Eg as <- <- <-. rewrite N2.
      split; [intros; lra | reflexivity]. }
  unfold CacheEntry.is_expired in Eg. cbn [CacheEntry.expires_at] in Eg.
  destruct (Clock.time c2b) as [t3 c2c] eqn:E3.
  destruct (clock_time_spec M2b E3) as (H3 & N3 & M2c).
  rewrite N2 in H3.
  destruct (Qle_bool (t_set + inject_Z T) t3) eqn:B3.
  - (* the entry has expired *)
    apply Qle_bool_iff in B3.
    destruct (CacheManager.delete key m1 c2c) as [m' c4] eqn:Ed.
    assert (H4 := cm_delete_clock key m1 m' c2c c4 M2c Ed).
    rewrite N3 in H4.
    injection Eg as <- <- <-.
    split; [intros; lra | reflexivity].
  - apply Qle_bool_false in B3. cbn [CacheEntry.value] in Eg.
    injection Eg as <- <- <-. rewrite N3.
    split; [reflexivity | intros; lra].
Qed.

End CacheTTL.

(** C2, as stated, fails: with the default [ttl] of the backend at 10
    seconds, a value stored with [ttl=100] is gone 50 seconds later. *)
Lemma cache_entry_dropped_before_ttl :
  fst (fst (cm_demo_get 100 50)) = None /\
  Clock.now (snd (cm_demo_get 100 50)) - 0 < 100.
Proof. vm_compute. split; reflexivity. Qed.

Lemma cm_demo_wf : cm_wf cm_demo.
Proof. unfold cm_wf. conj; reflexivity. Qed.

Lemma cache_get_after_set_witness :
  fst (fst (cm_demo_get 5 3)) = Some "v"%string.
Proof.
  refine (proj1 (cache_get_after_set "k" (Some "v"%string) 5
                   cm_demo (fst (cm_demo_set 5))
                   (snd (fst (cm_demo_get 5 3)))
                   (Clock.ideal 0) (snd (cm_demo_set 5))
                   (Clock.sleep 3 (snd (cm_demo_set 5)))
                   (snd (cm_demo_get 5 3))
                   (fst (fst (cm_demo_get 5 3)))
                   cm_demo_wf (ideal_monotone 0) _ _ _ _ _) _ _).
  - lia.
  - vm_compute. reflexivity.
  - intros k. vm_compute. discriminate.
  - vm_compute. discriminate.
  - vm_compute. reflexivity.
  - vm_compute. reflexivity.
  - vm_compute. reflexivity.
Defined.

(** ** Retry delay *)








(** ** HTTP client and orchestration *)

Example validate_pin_format_normalizes :
  validate_pin_format " p051234567a" = Return "P051234567A"%string.
Proof. vm_compute. reflexivity. Qed.

Example validate_pin_format_rejects :
  validate_pin_format "P05123456A"
  = Raise (InvalidPinFormatError "P05123456A").
Proof. vm_compute. reflexivity. Qed.


(** A request that times out surfaces as [ApiTimeoutError] at once. *)
Lemma post_timeout_raises (endpoint message : string)
    (data json_data : option dict) (h : HttpClient.t) (tr : Transport.t) :
  Transport.respond tr (List.length (Transport.sent tr))
                    (mk_request POST endpoint data json_data)
    = TimeoutException message ->
  fst (HttpClient.post endpoint data json_data h tr)
  = Raise (ApiTimeoutError (KraConfig.timeout (HttpClient.config h))
                           endpoint).
Proof.
  unfold HttpClient.post, Transport.send.
  intros ->. reflexivity.
Qed.

(** C1 (the code at the failing input). With [max_attempts = 3] and a
    transport that times out twice before answering, the retry decorator is
    built with three attempts, yet [post] raises [ApiTimeoutError] after
    the first request, and [verify_pin] fails with it, whatever the model
    classes would accept: one request sent, no retry, the clock where the
    rate limiter left it. *)
Theorem post_does_not_retry :
  stop_after_attempt
    (HttpClient._create_retry_decorator (HttpClient.mk demo_config)) = 3%Z /\
  retry_if_ApiTimeoutError
    (HttpClient._create_retry_decorator (HttpClient.mk demo_config)) = true /\
  (let (r, tr') :=
     HttpClient.post "/verify-pin" None
       (Some [("pin"%string, JStr "P051234567A")])
       (HttpClient.mk demo_config) flaky_transport in
   r = Raise (ApiTimeoutError 30 "/verify-pin") /\
   List.length (Transport.sent tr') = 1%nat) /\
  (forall py, exists k' c' tr',
     KraClient.verify_pin py 1 "P051234567A" (fst demo_client)
       (snd demo_client) flaky_transport
     = Some (Raise (ApiTimeoutError 30 "/verify-pin"), k', c', tr') /\
     List.length (Transport.sent tr') = 1%nat /\
     Clock.now c' == Clock.now (snd demo_client)).
Proof.
  split; [reflexivity |]. split; [reflexivity |]. split.
  - vm_compute. split; reflexivity.
  - intros py. eexists. eexists. eexists.
    split; [vm_compute; reflexivity |].
    split; vm_compute; reflexivity.
Qed.

(** C9. When the cache lookup of a cacheable read ([verify_pin],
    [verify_tcc], [get_taxpayer_details]) hits, the cached result is
    returned at once: the rate limiter is left as it was and nothing is
    sent to the transport (no round of [acquire] is needed either). *)
Theorem cached_read_cache_hit (py : Pydantic.t) (fuel : nat)
    (k : KraClient.t) (c c1 : Clock.t) (tr : Transport.t) (r : model)
    (m1 : CacheManager.t model) :
  let hit (key : string) :=
    CacheManager.get key (KraClient.cache_manager k) c = (Some r, m1, c1) in
  let returned (o : KraClient.outcome_of model) :=
    exists k',
      o = Some (Return r, k', c1, tr)
      /\ KraClient.rate_limiter k' = KraClient.rate_limiter k
      /\ KraClient.cache_manager k' = m1 in
  (forall pin_number normalized_pin,
     validate_pin_format pin_number = Return normalized_pin ->
     hit (CacheManager.generate_key "pin"
            [("pin_number"%string, JStr normalized_pin)]) ->
     returned (KraClient.verify_pin py fuel pin_number k c tr)) /\
  (forall tcc_number normalized_tcc,
     validate_tcc_format tcc_number = Return normalized_tcc ->
     hit (CacheManager.generate_key "tcc"
            [("tcc_number"%string, JStr normalized_tcc)]) ->
     returned (KraClient.verify_tcc py fuel tcc_number k c tr)) /\
  (forall pin_number normalized_pin,
     validate_pin_format pin_number = Return normalized_pin ->
     hit (CacheManager.generate_key "taxpayer"
            [("pin_number"%string, JStr normalized_pin)]) ->
     returned (KraClient.get_taxpayer_details py fuel pin_number k c tr)).
Proof.
  intros hit returned. subst hit returned. cbv beta.
  split; [| split]; intros x nx Hv Hg; exists (KraClient.with_cache k m1).
  - unfold KraClient.verify_pin. rewrite Hv, Hg.
    split; [reflexivity |]. split; reflexivity.
  - unfold KraClient.verify_tcc. rewrite Hv, Hg.
    split; [reflexivity |]. split; reflexivity.
  - unfold KraClient.get_taxpayer_details. rewrite Hv, Hg.
    split; [reflexivity |]. split; reflexivity.
Qed.

Lemma cached_read_cache_hit_witness :
  exists r k',
    KraClient.verify_pin demo_pydantic 0 " p051234567a"
      (fst (fst demo_client_warm)) (snd (fst demo_client_warm))
      (snd demo_client_warm)
    = Some (Return r, k', snd demo_hit, snd demo_client_warm)
    /\ KraClient.rate_limiter k'
       = KraClient.rate_limiter (fst (fst demo_client_warm)).
Proof.
  assert (Hv : validate_pin_format " p051234567a"
               = Return "P051234567A"%string)
    by (vm_compute; reflexivity).
  destruct demo_hit as [[[r |] m1] c1] eqn:E.
  - unfold demo_hit in E.
    destruct (proj1 (cached_read_cache_hit demo_pydantic 0
                       (fst (fst demo_client_warm))
                       (snd (fst demo_client_warm))
                       c1 (snd demo_client_warm) r m1)
                    " p051234567a"%string "P051234567A"%string Hv E)
      as (k' & H1 & H2 & _).
    exists r, k'. split; [exact H1 | exact H2].
  - vm_compute in E. discriminate E.
Defined.

(** ** Cache keys *)

(** The digest agrees with [hashlib.md5] on the RFC 1321 test vectors and
    on a key the SDK computes. *)
Example md5_empty :
  MD5.hexdigest EmptyString = "d41d8cd98f00b204e9800998ecf8427e"%string.
Proof. vm_compute. reflexivity. Qed.

Example md5_abc :
  MD5.hexdigest "abc" = "900150983cd24fb0d6963f7d28e17f72"%string.
Proof. vm_compute. reflexivity. Qed.

Example md5_two_blocks :
  MD5.hexdigest
    "12345678901234567890123456789012345678901234567890123456789012345678901234567890"
  = "57edf4a22be3c955ac49da2e2107b67a"%string.
Proof. vm_compute. reflexivity. Qed.

Example dumps_sort_keys_example :
  Json.dumps_sort_keys [("b"%string, JInt 2); ("a"%string, JInt (-1))]
  = ("{" ++ dquote ++ "a" ++ dquote ++ ": -1, "
         ++ dquote ++ "b" ++ dquote ++ ": 2}")%string.
Proof. vm_compute. reflexivity. Qed.

Example generate_key_pin :
  CacheManager.generate_key "pin" [("pin_number"%string, JStr "P051234567A")]
  = "pin:3f70892d1345d8dcd077b6aa50acc392"%string.
Proof. vm_compute. reflexivity. Qed.

Lemma ascii_compare_lt_trans (a b c : ascii) :
  Ascii.compare a b = Lt -> Ascii.compare b c = Lt -> Ascii.compare a c = Lt.
Proof.
  unfold Ascii.compare. rewrite !N.compare_lt_iff. apply N.lt_trans.
Qed.

Lemma string_compare_lt_trans (s1 : string) :
  forall s2 s3,
    String.compare s1 s2 = Lt -> String.compare s2 s3 = Lt ->
    String.compare s1 s3 = Lt.
Proof.
  induction s1 as [| a s1 IH]; intros [| b s2] [| c s3]; cbn;
    try discriminate; auto.
  destruct (Ascii.compare a b) eqn:Eab; try discriminate.
  - apply Ascii.compare_eq_iff in Eab. subst b.
    destruct (Ascii.compare a c); try discriminate; auto. apply IH.
  - intros _. destruct (Ascii.compare b c) eqn:Ebc; try discriminate.
    + apply Ascii.compare_eq_iff in Ebc. subst c. now rewrite Eab.
    + intros _. now rewrite (ascii_compare_lt_trans a b c Eab Ebc).
Qed.

Lemma string_leb_trans (s1 s2 s3 : string) :
  String.leb s1 s2 = true -> String.leb s2 s3 = true ->
  String.leb s1 s3 = true.
Proof.
  unfold String.leb.
  destruct (String.compare s1 s2) eqn:E12; try discriminate; intros _.
  - apply String.compare_eq_iff in E12. now subst s2.
  - destruct (String.compare s2 s3) eqn:E23; try discriminate; intros _.
    + apply String.compare_eq_iff in E23. subst s3. now rewrite E12.
    + now rewrite (string_compare_lt_trans s1 s2 s3 E12 E23).
Qed.

Section SortedItems.
Context {A : Type}.
Implicit Types (x : string * A) (l d : list (string * A)).

Lemma insert_item_perm x l : Permutation (Json.insert_item x l) (x :: l).
Proof.
  induction l as [| y l IH]; cbn; [reflexivity |].
  destruct (String.leb (fst x) (fst y)); [reflexivity |].
  rewrite IH. apply perm_swap.
Qed.

Lemma sorted_items_perm d : Permutation (Json.sorted_items d) d.
Proof.
  induction d as [| x d IH]; cbn; [reflexivity |].
  rewrite insert_item_perm. now constructor.
Qed.

Lemma insert_item_sorted x l :
  StronglySorted key_le l -> StronglySorted key_le (Json.insert_item x l).
Proof.
  induction l as [| y l IH]; intros S; cbn.
  - repeat constructor.
  - apply StronglySorted_inv in S. destruct S as (S & Hy).
    destruct (String.leb (fst x) (fst y)) eqn:E.
    + constructor; [now constructor |].
      constructor; [exact E |].
      eapply Forall_impl; [| exact Hy]. intros z Hz.
      eapply string_leb_trans; eauto.
    + constructor; [auto |].
      assert (Hyx : key_le y x).
      { destruct (String.leb_total (fst x) (fst y)) as [H | H];
          [congruence | exact H]. }
      eapply Permutation_Forall;
        [symmetry; apply insert_item_perm | now constructor].
Qed.

Lemma sorted_items_sorted d : StronglySorted key_le (Json.sorted_items d).
Proof.
  induction d as [| x d IH]; cbn; [constructor |].
  now apply insert_item_sorted.
Qed.

(** A list of items with distinct keys has one sorted arrangement. *)
Lemma sorted_unique l1 :
  forall l2,
    StronglySorted key_le l1 -> StronglySorted key_le l2 ->
    NoDup (map fst l1) -> Permutation l1 l2 -> l1 = l2.
Proof.
  induction l1 as [| a l1 IH]; intros l2 S1 S2 N P.
  - apply Permutation_nil in P. now subst.
  - destruct l2 as [| b l2];
      [apply Permutation_sym, Permutation_nil in P; discriminate |].
    apply StronglySorted_inv in S1. destruct S1 as (S1 & Ha).
    apply StronglySorted_inv in S2. destruct S2 as (S2 & Hb).
    assert (Hab : a = b).
    { assert (Ia : In a (b :: l2)).
      { eapply Permutation_in; [exact P | now left]. }
      assert (Ib : In b (a :: l1)).
      { eapply Permutation_in; [symmetry; exact P | now left]. }
      destruct Ia as [-> | Ia]; [reflexivity |].
      destruct Ib as [-> | Ib]; [reflexivity |].
      rewrite Forall_forall in Ha, Hb.
      assert (Hk : fst a = fst b).
      { apply String.leb_antisym; [apply Ha | apply Hb]; assumption. }
      exfalso. inversion N as [| ? ? Hnotin _]; subst.
      apply Hnotin. rewrite Hk. now apply in_map. }
    subst b. f_equal. apply IH; auto.
    + now inversion N.
    + eapply Permutation_cons_inv; eauto.
Qed.

Lemma sorted_items_perm_eq d1 d2 :
  NoDup (map fst d1) -> Permutation d1 d2 ->
  Json.sorted_items d1 = Json.sorted_items d2.
Proof.
  intros N P. apply sorted_unique; try apply sorted_items_sorted.
  - eapply Permutation_NoDup; [| exact N].
    apply Permutation_map. symmetry. apply sorted_items_perm.
  - rewrite sorted_items_perm, P. symmetry. apply sorted_items_perm.
Qed.

End SortedItems.

(** The text [json.dumps] writes for a dict does not depend on the order
    in which its members were inserted. *)
Lemma dumps_sort_keys_perm (d1 d2 : dict) :
  NoDup (map fst d1) -> Permutation d1 d2 ->
  Json.dumps_sort_keys d1 = Json.dumps_sort_keys d2.
Proof.
  intros N P. unfold Json.dumps_sort_keys. cbn [Json.dumps_value].
  rewrite (sorted_items_perm_eq
             (map (fun kv => (fst kv, Json.dumps_value (snd kv))) d1)
             (map (fun kv => (fst kv, Json.dumps_value (snd kv))) d2)).
  - reflexivity.
  - rewrite map_map. cbn [fst]. exact N.
  - now apply Permutation_map.
Qed.

Lemma md5_digest_length (msg : list N) :
  List.length (MD5.digest msg) = 16%nat.
Proof.
  unfold MD5.digest.
  destruct (MD5.process _ _ _) as [[[a b] c] d]. reflexivity.
Qed.

Lemma hex_digit_is_hex (n : N) : is_hex (MD5.hex_digit n).
Proof.
  unfold is_hex, MD5.hex_digit.
  set (l := list_ascii_of_string "0123456789abcdef").
  destruct (Nat.lt_ge_cases (N.to_nat n) (List.length l)) as [H | H].
  - now apply nth_In.
  - rewrite nth_overflow by exact H. now left.
Qed.

Lemma hex_of_bytes_form (bs : list N) :
  String.length (String.concat EmptyString (map MD5.hex_of_byte bs))
  = (2 * List.length bs)%nat /\
  Forall is_hex
    (list_ascii_of_string
       (String.concat EmptyString (map MD5.hex_of_byte bs))).
Proof.
  induction bs as [| b bs (IH1 & IH2)]; [split; [reflexivity | constructor] |].
  assert (Hcons :
    String.concat EmptyString (map MD5.hex_of_byte (b :: bs))
    = String (MD5.hex_digit (N.shiftr b 4))
        (String (MD5.hex_digit (N.land b 15))
           (String.concat EmptyString (map MD5.hex_of_byte bs)))).
  { cbn [map String.concat]. destruct (map MD5.hex_of_byte bs); reflexivity. }
  rewrite Hcons. cbn [String.length list_ascii_of_string]. split.
  - rewrite IH1. cbn [List.length]. lia.
  - constructor; [apply hex_digit_is_hex |].
    constructor; [apply hex_digit_is_hex | exact IH2].
Qed.

(** C8. [generate_key] is a function of the prefix and the set of
    name/value pairs: two orders of the same keyword parameters give the
    same key; and the key is the prefix, a colon and the 32 lower-case
    hexadecimal digits of the MD5 digest of the key-sorted JSON text. *)
Theorem generate_key_order_independent (prefix : string)
    (kwargs kwargs' : dict) :
  NoDup (map fst kwargs) -> Permutation kwargs kwargs' ->
  CacheManager.generate_key prefix kwargs
    = CacheManager.generate_key prefix kwargs' /\
  exists hash_hex,
    CacheManager.generate_key prefix kwargs = (prefix ++ ":" ++ hash_hex)%string
    /\ hash_hex = MD5.hexdigest (Json.dumps_sort_keys kwargs)
    /\ String.length hash_hex = 32%nat
    /\ Forall is_hex (list_ascii_of_string hash_hex).
Proof.
  intros N P. split.
  - unfold CacheManager.generate_key.
    now rewrite (dumps_sort_keys_perm kwargs kwargs' N P).
  - exists (MD5.hexdigest (Json.dumps_sort_keys kwargs)).
    split; [reflexivity |]. split; [reflexivity |].
    unfold MD5.hexdigest.
    destruct (hex_of_bytes_form
                (MD5.digest (map N_of_ascii
                   (list_ascii_of_string (Json.dumps_sort_keys kwargs)))))
      as (H1 & H2).
    split; [| exact H2]. rewrite H1, md5_digest_length. reflexivity.
Qed.

Lemma generate_key_order_independent_witness :
  CacheManager.generate_key "pin" [("a"%string, JInt 1); ("b"%string, JInt 2)]
  = CacheManager.generate_key "pin"
      [("b"%string, JInt 2); ("a"%string, JInt 1)].
Proof.
  refine (proj1 (generate_key_order_independent "pin"
                   [("a"%string, JInt 1); ("b"%string, JInt 2)]
                   [("b"%string, JInt 2); ("a"%string, JInt 1)] _ _)).
  - repeat constructor; cbn; intuition discriminate.
  - apply perm_swap.
Defined.

(** * Further properties of the code *)

(** ** Rate limiters *)

Lemma tb_acquire_async_loop_agrees (fuel : nat) :
  forall n timeout start s c,
    TB.acquire_loop fuel n true timeout start s c
    = lift_async (TB.acquire_async_loop fuel n timeout start s c).
Proof.
  induction fuel as [| fuel IH]; intros n timeout start s c; [reflexivity |].
  cbn [TB.acquire_loop TB.acquire_async_loop].
  destruct (TB._refill_tokens s c) as [s1 c1].
  destruct (Qle_bool (inject_Z n) (TB.tokens s1)); [reflexivity |].
  cbn [negb]. destruct timeout as [tmo |].
  - destruct (Clock.time c1) as [t2 c2].
    destruct (Qle_bool tmo (t2 - start)); [reflexivity | apply IH].
  - apply IH.
Qed.

Lemma sw_acquire_async_loop_agrees (fuel : nat) :
  forall timeout start s c,
    SW.acquire_loop fuel true timeout start s c
    = lift_async (SW.acquire_async_loop fuel timeout start s c).
Proof.
  induction fuel as [| fuel IH]; intros timeout start s c; [reflexivity |].
  cbn [SW.acquire_loop SW.acquire_async_loop].
  destruct (SW._clean_old_requests s c) as [[now s1] c1].
  destruct (SW.len s1 <? SW.max_requests s1)%Z.
  { destruct (Clock.time c1) as [stamp c2]. reflexivity. }
  cbn [negb]. destruct timeout as [tmo |].
  - destruct (Clock.time c1) as [t2 c2].
    destruct (Qle_bool tmo (t2 - start)); [reflexivity |].
    destruct (SW.requests s1) as [| oldest rest]; [apply IH |].
    destruct (Clock.time c2) as [t3 c3]. apply IH.
  - destruct (SW.requests s1) as [| oldest rest]; [apply IH |].
    destruct (Clock.time c1) as [t3 c3]. apply IH.
Qed.

(** X1. [acquire_async] is the blocking [acquire]: on both limiters, for
    every state, clock, request size, timeout and number of loop rounds,
    the coroutine run by a single task ends in the same result, limiter
    state and clock as [acquire(block=True)] with the same arguments; in
    particular it never raises [RateLimitExceededError]. *)
Theorem acquire_async_agrees (fuel : nat) (timeout : option Q) (c : Clock.t) :
  (forall n s,
     TB.acquire fuel n true timeout s c
     = lift_async (TB.acquire_async fuel n timeout s c)) /\
  (forall s,
     SW.acquire fuel true timeout s c
     = lift_async (SW.acquire_async fuel timeout s c)).
Proof.
  split.
  - intros n s. unfold TB.acquire, TB.acquire_async.
    destruct (TB.enabled s); cbn [negb]; [| reflexivity].
    destruct (Clock.time c) as [start c0].
    apply tb_acquire_async_loop_agrees.
  - intros s. unfold SW.acquire, SW.acquire_async.
    destruct (SW.enabled s); cbn [negb]; [| reflexivity].
    destruct (Clock.time c) as [start c0].
    apply sw_acquire_async_loop_agrees.
Qed.

(** *** Token bucket: what an acquisition needs to be granted at once *)

Ltac tb_simpl_in H :=
  cbn [TB.last_refill TB.tokens TB.refill_rate TB.max_requests
       TB.enabled TB.window_seconds TB.set_tokens] in H.

(** A request that the bucket can already pay at the time of the call (by
    its tokens and the time passed since the last refill) is granted in the
    first round of the loop, whatever [block] and [timeout] are. *)
Lemma tb_acquire_granted_at_once (fuel : nat) (n : Z) (block : bool)
    (timeout : option Q) (s : TB.t) (c : Clock.t) :
  tb_wf s c -> TB.enabled s = true ->
  inject_Z n <= capacity s ->
  inject_Z n
    <= TB.tokens s + (Clock.now c - TB.last_refill s) * TB.refill_rate s ->
  exists s' c',
    TB.acquire (S fuel) n block timeout s c = Some (Return true, s', c') /\
    tb_wf s' c' /\ tb_same_config s s' /\
    Qmin (TB.tokens s + (Clock.now c - TB.last_refill s) * TB.refill_rate s)
         (capacity s) - inject_Z n <= TB.tokens s' /\
    TB.tokens s' + inject_Z n <= capacity s.
Proof.
  intros W En Hcap Hpay. unfold TB.acquire. rewrite En. cbn [negb].
  destruct (Clock.time c) as [start c0] eqn:Ec.
  assert (W0 := tb_wf_time W Ec).
  destruct (clock_time_spec (proj1 W) Ec) as (Hle & Hnow & _).
  cbn [TB.acquire_loop].
  destruct (TB._refill_tokens s c0) as [s1 c1] eqn:Er.
  destruct (refill_spec W0 Er) as (W1 & SC & _ & UP & LOW & _).
  assert (R : 0 < TB.refill_rate s) by apply W.
  assert (Hmono : (Clock.now c - TB.last_refill s) * TB.refill_rate s
                  <= (Clock.now c0 - TB.last_refill s) * TB.refill_rate s).
  { rewrite Hnow. apply Qmult_le_compat_r; lra. }
  assert (Hmin :
    Qmin (TB.tokens s + (Clock.now c - TB.last_refill s) * TB.refill_rate s)
         (capacity s) <= TB.tokens s1).
  { eapply Qle_trans; [| exact LOW]. apply Q.min_le_compat_r. lra. }
  assert (Hn : inject_Z n <= TB.tokens s1).
  { eapply Qle_trans; [| exact Hmin]. apply Q.min_glb; assumption. }
  apply Qle_bool_iff in Hn. rewrite Hn.
  apply Qle_bool_iff in Hn.
  exists (TB.set_tokens s1 (TB.tokens s1 - inject_Z n)), c1.
  split; [reflexivity |].
  destruct W1 as (M1 & L1 & T1 & R1 & P1).
  split; [conj; tb_simpl; auto; lra |].
  split; [exact SC |]. tb_simpl. split; lra.
Qed.

Lemma tb_wf_later {s : TB.t} {c c' : Clock.t} :
  tb_wf s c -> Clock.monotone c' -> Clock.now c <= Clock.now c' ->
  tb_wf s c'.
Proof.
  intros (M & L & T & R & P) M' H. conj; auto. lra.
Qed.

Lemma py_int_floor (x : Q) :
  0 <= x ->
  (0 <= py_int x)%Z /\ inject_Z (py_int x) <= x /\ x < inject_Z (py_int x + 1).
Proof.
  intros H. assert (Hn : (0 <= Qnum x)%Z).
  { unfold Qle in H. cbn in H. lia. }
  assert (E : py_int x = Qfloor x).
  { unfold py_int, Qfloor. destruct x as [p q]. cbn [Qnum Qden] in *.
    apply Z.quot_div_nonneg; lia. }
  rewrite E. split; [| split].
  - change 0%Z with (Qfloor 0). now apply Qfloor_resp_le.
  - apply Qfloor_le.
  - apply Qlt_floor.
Qed.

(** X2. A zero wait means go: on an enabled bucket in a consistent state
    [get_wait_time(n)] never returns a negative time and returns 0 exactly
    when the refilled bucket holds [n] tokens; and when it returns 0, an
    [acquire(n)] made then or at any later time (nothing else taking
    tokens in between) is granted in its first round, whatever [block] and
    [timeout] are.  Nothing is claimed about sleeping a positive returned
    time: that time is a quotient, which the double the code returns only
    approximates. *)
Theorem get_wait_time_zero_grants (fuel : nat) (n : Z) (block : bool)
    (timeout : option Q) (s s1 : TB.t) (c c1 c2 : Clock.t) (w : Q) :
  tb_wf s c -> TB.enabled s = true ->
  TB.get_wait_time n s c = (w, s1, c1) ->
  0 <= w /\ (w == 0 <-> inject_Z n <= TB.tokens s1) /\
  (w == 0 -> Clock.monotone c2 -> Clock.now c1 <= Clock.now c2 ->
   exists s2 c3,
     TB.acquire (S fuel) n block timeout s1 c2
     = Some (Return true, s2, c3)).
Proof.
  intros W En E. unfold TB.get_wait_time in E.
  destruct (TB._refill_tokens s c) as [s1' c1'] eqn:Er.
  destruct (refill_spec W Er) as (W1 & SC & LR & _ & _ & _).
  assert (UP := refill_upper Er).
  destruct SC as (Sen & _).
  assert (R1 : 0 < TB.refill_rate s1') by apply W1.
  destruct (Qle_bool (inject_Z n) (TB.tokens s1')) eqn:Eg.
  - injection E as <- <- <-. apply Qle_bool_iff in Eg.
    split; [apply Qle_refl |]. split; [split; auto; reflexivity |].
    intros _ M2 Hlater.
    destruct (tb_acquire_granted_at_once fuel n block timeout s1' c2)
      as (s2 & c3 & H & _).
    + exact (tb_wf_later W1 M2 Hlater).
    + congruence.
    + lra.
    + assert (0 <= (Clock.now c2 - TB.last_refill s1') * TB.refill_rate s1').
      { rewrite LR. apply Qmult_le_0_compat; lra. }
      lra.
    + eauto.
  - injection E as <- <- <-. apply Qle_bool_false in Eg.
    assert (Hw : 0 < (inject_Z n - TB.tokens s1') / TB.refill_rate s1').
    { apply Qlt_shift_div_l; lra. }
    split; [lra |]. split.
    + split; intros H; [rewrite H in Hw |]; lra.
    + intros H. rewrite H in Hw. lra.
Qed.

Lemma get_wait_time_zero_grants_witness :
  exists s2 c3,
    TB.acquire 1 1 false None (refill_at 0 tb_full)
               (Clock.sleep 5 (Clock.mk 0 1 (fun _ => 0)))
    = Some (Return true, s2, c3).
Proof.
  refine (proj2 (proj2 (get_wait_time_zero_grants 0 1 false None tb_full
                          (refill_at 0 tb_full) (Clock.ideal 0)
                          (Clock.mk 0 1 (fun _ => 0))
                          (Clock.sleep 5 (Clock.mk 0 1 (fun _ => 0))) 0
                          _ eq_refl _)) _ _ _).
  - unfold tb_wf, tb_full. tb_simpl. cbn [Clock.ideal Clock.now].
    split; [apply ideal_monotone |]. conj; try lra. lia.
  - vm_compute. reflexivity.
  - reflexivity.
  - intros k. cbn. apply Qle_refl.
  - cbn. lra.
Defined.

(** X3. [reset] refills the bucket: after it, on an enabled bucket in a
    consistent state, any request of at most [max_requests] tokens is
    granted in the first round of [acquire], and the bucket is left with
    exactly [max_requests - n] tokens. *)
Theorem reset_restores_capacity (fuel : nat) (n : Z) (block : bool)
    (timeout : option Q) (s s1 : TB.t) (c c1 : Clock.t) :
  tb_wf s c -> TB.enabled s = true -> (n <= TB.max_requests s)%Z ->
  TB.reset s c = (s1, c1) ->
  TB.tokens s1 = capacity s /\
  exists s2 c2,
    TB.acquire (S fuel) n block timeout s1 c1 = Some (Return true, s2, c2) /\
    TB.tokens s2 == capacity s - inject_Z n.
Proof.
  intros W En Hn E. unfold TB.reset in E.
  destruct (Clock.time c) as [now c'] eqn:Ec.
  destruct (clock_time_spec (proj1 W) Ec) as (Hle & Hnow & M').
  injection E as <- <-. tb_simpl. split; [reflexivity |].
  destruct W as (M & L & T & R & P).
  assert (Hcap := capacity_pos s P).
  set (s1 := TB.mk (TB.enabled s) (TB.max_requests s) (TB.window_seconds s)
                   (inject_Z (TB.max_requests s)) now (TB.refill_rate s)).
  assert (W1 : tb_wf s1 c').
  { subst s1. unfold capacity in Hcap.
    conj; tb_simpl; rewrite ?Hnow; auto; lra. }
  assert (Hn' : inject_Z n <= capacity s1).
  { subst s1. unfold capacity. tb_simpl. now rewrite <- Zle_Qle. }
  destruct (tb_acquire_granted_at_once fuel n block timeout s1 c' W1 En Hn')
    as (s2 & c2 & H & _ & _ & Hlow & Hup).
  { subst s1. tb_simpl. rewrite Hnow. unfold capacity in Hn'.
    tb_simpl_in Hn'.
    assert ((now - now) * TB.refill_rate s == 0) by ring. lra. }
  exists s2, c2. split; [exact H |].
  subst s1. tb_simpl_in Hlow. unfold capacity in *. tb_simpl_in Hlow.
  tb_simpl_in Hup. rewrite Hnow in Hlow.
  rewrite Q.min_r in Hlow.
  - lra.
  - assert ((now - now) * TB.refill_rate s == 0) by ring. lra.
Qed.

Lemma reset_restores_capacity_witness :
  exists s2 c2,
    TB.acquire 1 1 false None (fst (TB.reset tb_drained (Clock.ideal 0)))
               (snd (TB.reset tb_drained (Clock.ideal 0)))
    = Some (Return true, s2, c2) /\
    TB.tokens s2 == capacity tb_drained - inject_Z 1.
Proof.
  apply (reset_restores_capacity 0 1 false None tb_drained _ (Clock.ideal 0)
           _ tb_drained_wf eq_refl).
  - cbn. lia.
  - reflexivity.
Defined.

(** X4. [get_available_tokens] reports what can be taken: on an enabled
    bucket in a consistent state the returned count [k] is the integer
    part of the refilled token count, lies between 0 and [max_requests],
    and an [acquire(k)] made right after is granted in its first round. *)
Theorem get_available_tokens_grantable (fuel : nat) (block : bool)
    (timeout : option Q) (s s1 : TB.t) (c c1 : Clock.t) (k : Z) :
  tb_wf s c -> TB.enabled s = true ->
  TB.get_available_tokens s c = (k, s1, c1) ->
  (0 <= k <= TB.max_requests s)%Z /\
  inject_Z k <= TB.tokens s1 /\ TB.tokens s1 < inject_Z (k + 1) /\
  exists s2 c2,
    TB.acquire (S fuel) k block timeout s1 c1 = Some (Return true, s2, c2).
Proof.
  intros W En E. unfold TB.get_available_tokens in E.
  destruct (TB._refill_tokens s c) as [s1' c1'] eqn:Er.
  injection E as <- <- <-.
  destruct (refill_spec W Er) as (W1 & SC & LR & UP & _ & _).
  destruct SC as (Sen & Smax & _ & Srate).
  destruct W1 as (M1 & L1 & T1 & R1 & P1).
  destruct (py_int_floor _ T1) as (F0 & Fle & Flt).
  assert (Hk : (py_int (TB.tokens s1') <= TB.max_requests s)%Z).
  { rewrite Zle_Qle. unfold capacity in UP. lra. }
  split; [lia |]. split; [exact Fle |]. split; [exact Flt |].
  destruct (tb_acquire_granted_at_once fuel (py_int (TB.tokens s1')) block
              timeout s1' c1') as (s2 & c2 & H & _).
  - conj; auto.
  - congruence.
  - unfold capacity. rewrite Smax. now rewrite <- Zle_Qle.
  - rewrite LR.
    assert ((Clock.now c1' - Clock.now c1') * TB.refill_rate s1' == 0) by ring.
    lra.
  - eauto.
Qed.

Lemma get_available_tokens_grantable_witness :
  exists s2 c2,
    TB.acquire 1 0 false None (refill_at 0 tb_drained)
               (Clock.mk 0 1 (fun _ => 0))
    = Some (Return true, s2, c2).
Proof.
  apply (get_available_tokens_grantable 0 false None tb_drained
           (refill_at 0 tb_drained) (Clock.ideal 0)
           (Clock.mk 0 1 (fun _ => 0)) 0 tb_drained_wf eq_refl).
  vm_compute. reflexivity.
Defined.

Lemma tb_acquire_many_granted (fuel : nat) (n : Z) (block : bool)
    (timeout : option Q) (k : nat) :
  forall s c,
    tb_wf s c -> TB.enabled s = true -> (0 <= n)%Z ->
    inject_Z (Z.of_nat k) * inject_Z n <= TB.tokens s ->
    inject_Z (Z.of_nat k) * inject_Z n <= capacity s ->
    exists s' c',
      tb_acquire_many k (S fuel) n block timeout s c
      = Some (repeat (Return true) k, s', c') /\
      tb_wf s' c' /\ tb_same_config s s'.
Proof.
  induction k as [| k IH]; intros s c W En Hn Htok Hcap.
  - exists s, c. split; [reflexivity |]. split; [exact W |].
    apply tb_same_config_refl.
  - cbn [tb_acquire_many repeat].
    assert (Hn' : 0 <= inject_Z n).
    { change 0 with (inject_Z 0). now rewrite <- Zle_Qle. }
    assert (Hk : 0 <= inject_Z (Z.of_nat k)).
    { change 0 with (inject_Z 0). rewrite <- Zle_Qle. lia. }
    assert (Hkn : 0 <= inject_Z (Z.of_nat k) * inject_Z n).
    { now apply Qmult_le_0_compat. }
    assert (HS : inject_Z (Z.of_nat (S k)) * inject_Z n
                 == inject_Z (Z.of_nat k) * inject_Z n + inject_Z n).
    { rewrite inject_Z_succ. ring. }
    rewrite HS in Htok, Hcap.
    assert (Hel : 0 <= (Clock.now c - TB.last_refill s) * TB.refill_rate s).
    { destruct W as (_ & L & _ & R & _). apply Qmult_le_0_compat; lra. }
    destruct (tb_acquire_granted_at_once fuel n block timeout s c W En)
      as (s1 & c1 & E1 & W1 & SC1 & Hlow & _); [lra | lra |].
    rewrite E1.
    assert (Hmin :
      inject_Z (Z.of_nat k) * inject_Z n + inject_Z n
      <= Qmin (TB.tokens s
               + (Clock.now c - TB.last_refill s) * TB.refill_rate s)
              (capacity s)).
    { apply Q.min_glb; lra. }
    assert (Hc1 : capacity s1 = capacity s).
    { unfold capacity. destruct SC1 as (_ & -> & _). reflexivity. }
    destruct (IH s1 c1 W1) as (s' & c' & E' & W' & SC'); auto.
    + destruct SC1 as (-> & _). exact En.
    + lra.
    + rewrite Hc1. lra.
    + rewrite E'. exists s', c'. split; [reflexivity |].
      split; [exact W' |]. eapply tb_same_config_trans; eauto.
Qed.

(** X5. A fresh bucket absorbs a burst: on an enabled limiter built from a
    valid configuration, [k] acquisitions of [n >= 0] tokens made in a row
    right after construction are all granted, each in the first round of
    its loop, as long as [k * n <= max_requests]; no time needs to pass
    between them. *)
Theorem fresh_bucket_grants_burst (config : RateLimitConfig.t)
    (c c0 : Clock.t) (s0 : TB.t) (k fuel : nat) (n : Z) (block : bool)
    (timeout : option Q) :
  RateLimitConfig.post_init config = true ->
  RateLimitConfig.enabled config = true ->
  Clock.monotone c ->
  TB.init config c = (s0, c0) ->
  (0 <= n)%Z ->
  (Z.of_nat k * n <= RateLimitConfig.max_requests config)%Z ->
  exists s' c',
    tb_acquire_many k (S fuel) n block timeout s0 c0
    = Some (repeat (Return true) k, s', c').
Proof.
  intros V En M Ei Hn Hk.
  destruct (tb_init_wf V M Ei) as (W0 & Htok & Hmax & Hen).
  assert (Hq : inject_Z (Z.of_nat k) * inject_Z n <= capacity s0).
  { unfold capacity. rewrite Hmax, <- inject_Z_mult. now rewrite <- Zle_Qle. }
  destruct (tb_acquire_many_granted fuel n block timeout k s0 c0 W0)
    as (s' & c' & E & _); auto.
  - congruence.
  - rewrite Htok. exact Hq.
  - eauto.
Qed.

Lemma fresh_bucket_grants_burst_witness :
  exists s' c',
    tb_acquire_many 2 1 1 false None
      (fst (TB.init tb_demo_config (Clock.ideal 0)))
      (snd (TB.init tb_demo_config (Clock.ideal 0)))
    = Some ([Return true; Return true], s', c').
Proof.
  apply (fresh_bucket_grants_burst tb_demo_config (Clock.ideal 0) _ _ 2 0 1
           false None eq_refl eq_refl (ideal_monotone 0) eq_refl).
  - lia.
  - cbn. lia.
Defined.

(** *** Sliding window *)

Lemma popleft_while_length (cutoff : Q) (l : list Q) :
  (List.length (SW.popleft_while cutoff l) <= List.length l)%nat.
Proof.
  induction l as [| r rest IH]; cbn [SW.popleft_while]; [lia |].
  destruct (Qlt_bool r cutoff); cbn [List.length] in *; lia.
Qed.

Lemma popleft_while_keeps (cutoff : Q) (l : list Q) :
  Forall (fun t => cutoff <= t) l -> SW.popleft_while cutoff l = l.
Proof.
  intros F. destruct l as [| r rest]; [reflexivity |].
  cbn [SW.popleft_while]. apply Forall_inv in F.
  unfold Qlt_bool. apply Qle_bool_iff in F. now rewrite F.
Qed.

Lemma popleft_while_drops (cutoff : Q) (l : list Q) :
  Forall (fun t => t < cutoff) l -> SW.popleft_while cutoff l = [].
Proof.
  induction l as [| r rest IH]; intros F; [reflexivity |].
  apply Forall_cons_iff in F. destruct F as (Hr & F).
  cbn [SW.popleft_while]. unfold Qlt_bool.
  destruct (Qle_bool cutoff r) eqn:E.
  - apply Qle_bool_iff in E. lra.
  - cbn [negb]. now apply IH.
Qed.

Lemma clean_length {s s1 : SW.t} {c c1 : Clock.t} {now : Q} :
  SW._clean_old_requests s c = (now, s1, c1) ->
  (SW.len s1 <= SW.len s)%Z.
Proof.
  unfold SW._clean_old_requests. destruct (Clock.time c) as [t c'].
  intros E. injection E as <- <- <-. unfold SW.len. cbn [SW.requests].
  apply inj_le, popleft_while_length.
Qed.

(** While the window has room, an acquisition is granted in the first
    round of the loop. *)
Lemma sw_acquire_granted_at_once (fuel : nat) (block : bool)
    (timeout : option Q) (s : SW.t) (c : Clock.t) :
  sw_wf s c -> SW.enabled s = true -> (SW.len s < SW.max_requests s)%Z ->
  exists s' c',
    SW.acquire (S fuel) block timeout s c = Some (Return true, s', c') /\
    sw_wf s' c' /\ sw_same_config s s' /\ (SW.len s' <= SW.len s + 1)%Z.
Proof.
  intros W En Hroom.
  destruct (SW.acquire (S fuel) block timeout s c) as [[[r s'] c'] |] eqn:E.
  2:{ exfalso. unfold SW.acquire in E. rewrite En in E. cbn [negb] in E.
      destruct (Clock.time c) as [start c0]. cbn [SW.acquire_loop] in E.
      destruct (SW._clean_old_requests s c0) as [[now s1] c1] eqn:Ecl.
      assert (Hl := clean_length Ecl).
      assert (Hm : SW.max_requests s1 = SW.max_requests s).
      { unfold SW._clean_old_requests in Ecl.
        destruct (Clock.time c0). now injection Ecl as <- <- <-. }
      assert (Hlt : (SW.len s1 <? SW.max_requests s1)%Z = true).
      { apply Z.ltb_lt. lia. }
      rewrite Hlt in E. destruct (Clock.time c1). discriminate. }
  assert (E' := E). unfold SW.acquire in E. rewrite En in E. cbn [negb] in E.
  destruct (Clock.time c) as [start c0] eqn:Ec.
  assert (W0 := sw_wf_time W Ec).
  destruct (sw_acquire_loop_post _ _ _ _ _ _ _ _ _ W0 E) as (W' & SC).
  cbn [SW.acquire_loop] in E.
  destruct (SW._clean_old_requests s c0) as [[now s1] c1] eqn:Ecl.
  assert (Hl := clean_length Ecl).
  assert (Hm : SW.max_requests s1 = SW.max_requests s).
  { unfold SW._clean_old_requests in Ecl.
    destruct (Clock.time c0). now injection Ecl as <- <- <-. }
  assert (Hlt : (SW.len s1 <? SW.max_requests s1)%Z = true).
  { apply Z.ltb_lt. lia. }
  rewrite Hlt in E. destruct (Clock.time c1) as [stamp c2].
  injection E as <- <- <-.
  eexists. eexists. split; [reflexivity |]. split; [exact W' |].
  split; [exact SC |].
  unfold SW.len, SW.append in *. cbn [SW.requests].
  rewrite length_app. cbn [List.length]. lia.
Qed.

(** X6. A window with room absorbs a burst: on an enabled sliding window in
    a consistent state that holds [len] timestamps, [k] acquisitions made
    in a row are all granted in the first round of their loops whenever
    [len + k <= max_requests]; in particular the first [max_requests]
    acquisitions after construction or [reset]. *)
Theorem window_with_room_grants_burst (fuel : nat) (block : bool)
    (timeout : option Q) (k : nat) (s : SW.t) (c : Clock.t) :
  sw_wf s c -> SW.enabled s = true ->
  (SW.len s + Z.of_nat k <= SW.max_requests s)%Z ->
  exists s' c',
    sw_acquire_many k (S fuel) block timeout s c
    = Some (repeat (Return true) k, s', c') /\
    (SW.len s' <= SW.len s + Z.of_nat k)%Z.
Proof.
  revert s c. induction k as [| k IH]; intros s c W En Hroom.
  - exists s, c. split; [reflexivity | lia].
  - cbn [sw_acquire_many repeat].
    destruct (sw_acquire_granted_at_once fuel block timeout s c W En)
      as (s1 & c1 & E1 & W1 & (Sen & Smax & _) & Hlen); [lia |].
    rewrite E1.
    destruct (IH s1 c1 W1) as (s' & c' & E' & Hlen'); [congruence | lia |].
    rewrite E'. exists s', c'. split; [reflexivity | lia].
Qed.

Lemma window_with_room_grants_burst_witness :
  exists s' c',
    sw_acquire_many 2 1 false None (SW.init (RateLimitConfig.mk 2 1 true))
                    (Clock.ideal 0)
    = Some ([Return true; Return true], s', c') /\
    (SW.len s' <= 0 + 2)%Z.
Proof.
  apply (window_with_room_grants_burst 0 false None 2
           (SW.init (RateLimitConfig.mk 2 1 true)) (Clock.ideal 0)).
  - apply sw_init_wf; [reflexivity | apply ideal_monotone].
  - reflexivity.
  - cbn. lia.
Defined.

(** X7. A full window refuses without recording: when the window of an
    enabled limiter holds [max_requests] or more timestamps that all still
    lie within [window_seconds] of the clock reading taken by the trim, a
    non-blocking [acquire] raises [RateLimitExceededError] with
    [retry_after = window_seconds] and leaves the limiter exactly as it
    was; only the two clock readings have happened. *)
Theorem full_window_raises (fuel : nat) (timeout : option Q) (s : SW.t)
    (c c0 c1 : Clock.t) (start now : Q) :
  SW.enabled s = true ->
  Clock.time c = (start, c0) -> Clock.time c0 = (now, c1) ->
  Forall (fun t => now - inject_Z (SW.window_seconds s) <= t)
         (SW.requests s) ->
  (SW.max_requests s <= SW.len s)%Z ->
  SW.acquire (S fuel) false timeout s c
  = Some (Raise (RateLimitExceededError (SW.window_seconds s)), s, c1).
Proof.
  intros En Ec Ec0 F Hfull. unfold SW.acquire. rewrite En, Ec. cbn [negb].
  cbn [SW.acquire_loop]. unfold SW._clean_old_requests. rewrite Ec0.
  rewrite (popleft_while_keeps _ _ F).
  assert (Hs : SW.mk (SW.enabled s) (SW.max_requests s) (SW.window_seconds s)
                     (SW.requests s) = s) by (destruct s; reflexivity).
  rewrite Hs.
  assert (Hlt : (SW.len s <? SW.max_requests s)%Z = false).
  { apply Z.ltb_ge. exact Hfull. }
  rewrite Hlt. reflexivity.
Qed.

Lemma full_window_raises_witness :
  SW.acquire 1 false None (SW.mk true 1 60 [0]) (Clock.ideal 0)
  = Some (Raise (RateLimitExceededError 60), SW.mk true 1 60 [0],
          Clock.mk 0 2 (fun _ => 0)).
Proof.
  apply (full_window_raises 0 None (SW.mk true 1 60 [0]) (Clock.ideal 0)
           (Clock.mk 0 1 (fun _ => 0)) (Clock.mk 0 2 (fun _ => 0)) 0 0).
  - reflexivity.
  - reflexivity.
  - reflexivity.
  - constructor; [| constructor]. unfold Qle. cbn. lia.
  - cbn. lia.
Defined.

Lemma clean_suffix {s s1 : SW.t} {c c1 : Clock.t} {now : Q} (P : Q -> Prop) :
  StronglySorted Qle (SW.requests s) ->
  SW._clean_old_requests s c = (now, s1, c1) ->
  Forall P (SW.requests s) -> Forall P (SW.requests s1).
Proof.
  unfold SW._clean_old_requests. destruct (Clock.time c) as [t c'].
  intros S E F. injection E as <- <- <-. cbn [SW.requests].
  destruct (popleft_while_spec (t - inject_Z (SW.window_seconds s)) _ S)
    as (_ & _ & (old & Hold) & _).
  rewrite Hold in F. exact (Forall_suffix _ _ _ F).
Qed.

(** Every round of the blocking loop that is not granted sleeps for at
    least a tenth of a second, and once all recorded timestamps are older
    than the window the next round is granted. *)
Lemma sw_acquire_loop_returns (timeout : option Q) (start T : Q) (k : nat) :
  forall s c,
    sw_wf s c -> (0 < SW.max_requests s)%Z ->
    Forall (fun t => t <= T) (SW.requests s) ->
    T + inject_Z (SW.window_seconds s) - Clock.now c
      < 0.1 * inject_Z (Z.of_nat k) ->
    exists b s' c',
      SW.acquire_loop (S k) true timeout start s c
      = Some (Return b, s', c') /\
      (timeout = None -> b = true).
Proof.
  induction k as [| k IH]; intros s c W Hmax HT Hm;
    cbn [SW.acquire_loop];
    destruct (SW._clean_old_requests s c) as [[now s1] c1] eqn:Ecl;
    destruct (clean_spec W Ecl) as (W1 & (_ & Smax & Swin) & _ & Hnow1);
    assert (HT1 := clean_suffix _ (proj1 (proj2 W)) Ecl HT).
  - (* every timestamp has left the window *)
    assert (Hempty : SW.requests s1 = []).
    { unfold SW._clean_old_requests in Ecl.
      destruct (Clock.time c) as [t c'] eqn:Ec.
      destruct (clock_time_spec (proj1 W) Ec) as (Hle & _ & _).
      injection Ecl as <- <- <-. cbn [SW.requests].
      apply popleft_while_drops.
      eapply Forall_impl; [| exact HT]. cbn beta. intros x Hx.
      change (inject_Z (Z.of_nat 0)) with 0 in Hm. lra. }
    unfold SW.len. rewrite Hempty. cbn [List.length].
    assert (Hlt : (Z.of_nat 0 <? SW.max_requests s1)%Z = true).
    { apply Z.ltb_lt. cbn. lia. }
    rewrite Hlt. destruct (Clock.time c1) as [stamp c2].
    eexists. eexists. eexists. split; [reflexivity | reflexivity].
  - destruct (SW.len s1 <? SW.max_requests s1)%Z.
    { destruct (Clock.time c1) as [stamp c2].
      eexists. eexists. eexists. split; [reflexivity | reflexivity]. }
    cbn [negb].
    assert (Hle1 : Clock.now c <= Clock.now c1).
    { unfold SW._clean_old_requests in Ecl.
      destruct (Clock.time c) as [t c'] eqn:Ec.
      destruct (clock_time_spec (proj1 W) Ec) as (Hle & Hn & _).
      injection Ecl as <- <- <-. rewrite Hn. exact Hle. }
    rewrite inject_Z_succ in Hm.
    assert (Hrec : forall c2, sw_wf s1 c2 -> Clock.now c1 <= Clock.now c2 ->
      exists b s' c',
        (let (wait_time, c3) :=
           match SW.requests s1 with
           | [] => (0.1, c2)
           | oldest_request :: _ =>
               let (t3, c3) := Clock.time c2 in
               (Qmax 0.1
                  (Qmin (oldest_request + inject_Z (SW.window_seconds s1)
                         - t3) 1),
                c3)
           end in
         SW.acquire_loop (S k) true timeout start s1
                         (Clock.sleep wait_time c3))
        = Some (Return b, s', c') /\ (timeout = None -> b = true)).
    { intros c2 W2 Hle2.
      assert (Hgo : forall w c3, sw_wf s1 c3 -> Clock.now c2 <= Clock.now c3 ->
                0.1 <= w ->
                exists b s' c',
                  SW.acquire_loop (S k) true timeout start s1
                                  (Clock.sleep w c3)
                  = Some (Return b, s', c') /\ (timeout = None -> b = true)).
      { intros w c3 W3 Hle3 Hw. apply IH.
        - apply (sw_wf_later W3).
          + apply clock_sleep_monotone, W3.
          + cbn. lra.
        - lia.
        - exact HT1.
        - rewrite Swin. cbn [Clock.sleep Clock.now]. lra. }
      destruct (SW.requests s1) as [| oldest rest].
      - apply Hgo; [exact W2 | apply Qle_refl | lra].
      - destruct (Clock.time c2) as [t3 c3] eqn:Et3.
        destruct (clock_time_spec (proj1 W2) Et3) as (Hle3 & Hn3 & _).
        apply Hgo; [eapply sw_wf_time; eauto | | apply Q.le_max_l].
        rewrite Hn3. exact Hle3. }
    destruct timeout as [tmo |].
    + destruct (Clock.time c1) as [t2 c2] eqn:Et.
      destruct (clock_time_spec (proj1 W1) Et) as (Hle2 & Hn2 & _).
      destruct (Qle_bool tmo (t2 - start)).
      * eexists. eexists. eexists. split; [reflexivity | discriminate].
      * apply Hrec; [eapply sw_wf_time; eauto |]. rewrite Hn2. exact Hle2.
    + apply Hrec; [exact W1 | apply Qle_refl].
Qed.

(** X8. A blocking [acquire] on the sliding window always comes back: for
    an enabled limiter in a consistent state with [max_requests >= 1],
    under any clock that does not run backwards, [acquire(block=True)]
    returns within [10 * window_seconds + 2] rounds of its loop (each
    round that is not granted sleeps at least 0.1 s); it never raises, and
    without a timeout the result is [True]. *)
Theorem sliding_blocking_acquire_returns (timeout : option Q) (s : SW.t)
    (c : Clock.t) :
  sw_wf s c -> SW.enabled s = true -> (0 < SW.max_requests s)%Z ->
  exists b s' c',
    SW.acquire (S (Z.to_nat (10 * SW.window_seconds s + 1))) true timeout s c
    = Some (Return b, s', c') /\
    (timeout = None -> b = true).
Proof.
  intros W En Hmax. unfold SW.acquire. rewrite En. cbn [negb].
  destruct (Clock.time c) as [start c0] eqn:Ec.
  assert (W0 := sw_wf_time W Ec).
  apply (sw_acquire_loop_returns timeout start (Clock.now c0)); auto.
  - apply W0.
  - destruct (Z_lt_le_dec (10 * SW.window_seconds s + 1) 0) as [Hneg | Hpos].
    + assert (Hz : Z.to_nat (10 * SW.window_seconds s + 1) = 0%nat) by lia.
      rewrite Hz. change (inject_Z (Z.of_nat 0)) with 0.
      assert (inject_Z (10 * SW.window_seconds s + 1) < 0).
      { change 0 with (inject_Z 0). now rewrite <- Zlt_Qlt. }
      rewrite inject_Z_plus, inject_Z_mult in H.
      change (inject_Z 10) with 10 in H. change (inject_Z 1) with 1 in H. lra.
    + rewrite Z2Nat.id by exact Hpos.
      rewrite inject_Z_plus, inject_Z_mult.
      change (inject_Z 10) with 10. change (inject_Z 1) with 1. lra.
Qed.

Lemma sliding_blocking_acquire_returns_witness :
  exists b s' c',
    SW.acquire (S (Z.to_nat (10 * 1 + 1))) true None (SW.mk true 1 1 [0])
               (Clock.ideal 0)
    = Some (Return b, s', c') /\
    (@None Q = None -> b = true).
Proof.
  apply (sliding_blocking_acquire_returns None (SW.mk true 1 1 [0])
           (Clock.ideal 0)).
  - unfold sw_wf. cbn [SW.requests SW.max_requests Clock.now Clock.ideal].
    split; [apply ideal_monotone |].
    split; [repeat constructor |].
    split; [constructor; [apply Qle_refl | constructor] |].
    cbn. lia.
  - reflexivity.
  - cbn. lia.
Defined.

(** ** Cache manager *)

Section CacheExtras.
Context {V : Type}.

(** A key without a readable item is a miss that changes nothing. *)
Lemma cm_get_absent (key : string) (m m' : CacheManager.t V)
    (c c' : Clock.t) (r : option V) :
  Clock.monotone c -> cm_absent key (Clock.now c) m ->
  CacheManager.get key m c = (r, m', c') ->
  r = None /\ m' = m.
Proof.
  intros M A E. unfold CacheManager.get in E.
  destruct (negb (CacheManager.enabled m)).
  { injection E as <- <- <-. auto. }
  unfold MemoryCacheBackend.get, Clock.monotonic in E.
  destruct (Clock.time c) as [t1 c1] eqn:E1.
  destruct (clock_time_spec M E1) as (H1 & _ & _).
  unfold TTLCache.contains in E. unfold cm_absent, cm_links in A.
  destruct (TTLCache.find key _) as [[x e] |] eqn:Ef.
  - specialize (A x e eq_refl).
    assert (B : Qlt_bool t1 e = false).
    { unfold Qlt_bool. apply negb_false_iff, Qle_bool_iff. lra. }
    rewrite B in E. injection E as <- <- <-. auto.
  - injection E as <- <- <-. auto.
Qed.

(** X9. What [delete] and [clear] remove stays removed: on any manager,
    under a clock that does not run backwards, a [get(key)] made at any
    time after [delete(key)] returns [None] and changes nothing, whether
    the item was still readable at the time of the delete or had already
    expired; likewise for every key after [clear]. *)
Theorem delete_then_get_misses (key : string) (m m1 m2 : CacheManager.t V)
    (c c1 c2 c3 : Clock.t) (r : option V) :
  Clock.monotone c ->
  CacheManager.delete key m c = (m1, c1) ->
  Clock.monotone c2 -> Clock.now c1 <= Clock.now c2 ->
  (CacheManager.get key m1 c2 = (r, m2, c3) -> r = None /\ m2 = m1) /\
  (CacheManager.get key (CacheManager.clear m) c2 = (r, m2, c3) ->
   r = None /\ m2 = CacheManager.clear m).
Proof.
  intros M Ed M2 Hlater. split; intros Eg.
  - assert (A : CacheManager.enabled m1 = true ->
                cm_absent key (Clock.now c2) m1).
    { intros En1. unfold CacheManager.delete in Ed.
      destruct (CacheManager.enabled m) eqn:En; cbn [negb] in Ed.
      2:{ injection Ed as <- <-. congruence. }
      unfold MemoryCacheBackend.delete, Clock.monotonic in Ed.
      destruct (Clock.time c) as [t1 c'] eqn:E1.
      destruct (clock_time_spec M E1) as (_ & N1 & _).
      unfold TTLCache.contains in Ed.
      destruct (TTLCache.find key
                  (TTLCache.links
                     (MemoryCacheBackend._cache (CacheManager.backend m))))
        as [[x e] |] eqn:Ef.
      - destruct (Qlt_bool t1 e) eqn:B.
        + destruct (Clock.time c') as [t2 c'']. injection Ed as <- <-.
          intros x' e' H. unfold cm_links in H. cbn in H.
          rewrite find_remove in H. discriminate.
        + apply Qlt_bool_false in B. injection Ed as <- <-.
          rewrite N1 in Hlater.
          intros x' e' H. unfold cm_links in H.
          cbn [CacheManager.with_backend CacheManager.backend] in H.
          rewrite Ef in H. injection H as <- <-. lra.
      - injection Ed as <- <-.
        intros x' e' H. unfold cm_links in H.
        cbn [CacheManager.with_backend CacheManager.backend] in H.
        rewrite Ef in H. discriminate. }
    destruct (CacheManager.enabled m1) eqn:En1.
    + exact (cm_get_absent key m1 m2 c2 c3 r M2 (A eq_refl) Eg).
    + unfold CacheManager.get in Eg. rewrite En1 in Eg.
      injection Eg as <- <- <-. auto.
  - unfold CacheManager.clear in *.
    destruct (CacheManager.enabled m) eqn:En; cbn [negb] in *.
    + apply (cm_get_absent key _ m2 c2 c3 r M2); [| exact Eg].
      intros x e H. discriminate.
    + unfold CacheManager.get in Eg. rewrite En in Eg.
      injection Eg as <- <- <-. auto.
Qed.

End CacheExtras.

Lemma delete_then_get_misses_witness :
  fst (fst (CacheManager.get "k" (fst cm_demo_deleted)
                             (snd cm_demo_deleted))) = None.
Proof.
  destruct (CacheManager.get "k" (fst cm_demo_deleted) (snd cm_demo_deleted))
    as [[r m2] c3] eqn:Eg.
  refine (proj1 (proj1 (delete_then_get_misses "k" (fst (cm_demo_set 5))
                          (fst cm_demo_deleted) m2 (snd (cm_demo_set 5))
                          (snd cm_demo_deleted) (snd cm_demo_deleted) c3 r
                          _ _ _ _) Eg)).
  - intros k. vm_compute. discriminate.
  - vm_compute. reflexivity.
  - intros k. vm_compute. discriminate.
  - apply Qle_refl.
Defined.

Section CacheInvalidate.
Context {V : Type}.
Implicit Types (ls : list (string * cached V * Q)) (key : string).

Lemma find_remove_other key key' ls :
  key' <> key ->
  TTLCache.find key (TTLCache.remove key' ls) = TTLCache.find key ls.
Proof.
  intros N. induction ls as [| [[k v] e] ls IH]; [reflexivity |].
  cbn [TTLCache.remove filter TTLCache.link_key fst].
  destruct (String.eqb k key') eqn:E; cbn [negb TTLCache.find].
  - apply String.eqb_eq in E. subst k.
    fold (TTLCache.remove key' ls). rewrite IH.
    replace (String.eqb key' key) with false; [reflexivity |].
    symmetry. now apply String.eqb_neq.
  - fold (TTLCache.remove key' ls). rewrite IH. reflexivity.
Qed.

Lemma cm_absent_later key (t t' : Q) (m : CacheManager.t V) :
  cm_absent key t m -> t <= t' -> cm_absent key t' m.
Proof. intros A H x e F. specialize (A x e F). lra. Qed.

(** What one [delete] does to the clock and to what can be found. *)
Lemma cm_delete_spec key' (m m1 : CacheManager.t V) (c c1 : Clock.t) :
  Clock.monotone c -> CacheManager.delete key' m c = (m1, c1) ->
  Clock.monotone c1 /\ Clock.now c <= Clock.now c1 /\
  CacheManager.enabled m1 = CacheManager.enabled m /\
  CacheManager.config m1 = CacheManager.config m /\
  (CacheManager.enabled m = true -> cm_absent key' (Clock.now c1) m1) /\
  (forall key, key <> key' ->
     TTLCache.find key (cm_links m1) = TTLCache.find key (cm_links m)) /\
  (forall key t, cm_absent key t m -> cm_absent key t m1) /\
  (List.length (cm_links m1) <= List.length (cm_links m))%nat /\
  TTLCache.maxsize (MemoryCacheBackend._cache (CacheManager.backend m1))
  = TTLCache.maxsize (MemoryCacheBackend._cache (CacheManager.backend m)) /\
  TTLCache.ttl (MemoryCacheBackend._cache (CacheManager.backend m1))
  = TTLCache.ttl (MemoryCacheBackend._cache (CacheManager.backend m)).
Proof.
  intros M Ed. unfold CacheManager.delete in Ed.
  destruct (CacheManager.enabled m) eqn:En; cbn [negb] in Ed.
  2:{ injection Ed as <- <-. rewrite En.
      repeat (split; [solve [auto | apply Qle_refl | discriminate] |]).
      auto. }
  unfold MemoryCacheBackend.delete, Clock.monotonic in Ed.
  destruct (Clock.time c) as [t1 c'] eqn:E1.
  destruct (clock_time_spec M E1) as (H1 & N1 & M1).
  unfold TTLCache.contains in Ed.
  destruct (TTLCache.find key'
              (TTLCache.links
                 (MemoryCacheBackend._cache (CacheManager.backend m))))
    as [[x e] |] eqn:Ef.
  1: destruct (Qlt_bool t1 e) eqn:B.
  - (* deleted *)
    destruct (Clock.time c') as [t2 c''] eqn:E2.
    destruct (clock_time_spec M1 E2) as (H2 & N2 & M2).
    injection Ed as <- <-. unfold cm_absent, cm_links.
    cbn [CacheManager.with_backend CacheManager.backend CacheManager.enabled
         CacheManager.config MemoryCacheBackend._cache TTLCache.delitem
         TTLCache.links TTLCache.maxsize TTLCache.ttl].
    rewrite N1 in H2.
    split; [exact M2 |]. split; [rewrite N2; lra |].
    split; [auto |]. split; [reflexivity |].
    split; [intros _ x' e' H; rewrite find_remove in H; discriminate |].
    split; [intros key N; now apply find_remove_other |].
    split.
    { intros key t A x' e' H.
      destruct (String.eqb key' key) eqn:Ek.
      - apply String.eqb_eq in Ek. subst key.
        rewrite find_remove in H. discriminate.
      - apply String.eqb_neq in Ek.
        rewrite find_remove_other in H by exact Ek. eauto. }
    split; [apply filter_length_le | auto].
  - (* expired: nothing to delete *)
    apply Qlt_bool_false in B. injection Ed as <- <-.
    unfold cm_absent, cm_links.
    cbn [CacheManager.with_backend CacheManager.backend CacheManager.enabled
         CacheManager.config].
    split; [exact M1 |]. split; [rewrite N1; exact H1 |].
    split; [auto |]. split; [reflexivity |].
    split.
    { intros _ x' e' H. rewrite Ef in H. injection H as <- <-.
      rewrite N1. exact B. }
    repeat (split; [solve [auto] |]). auto.
  - injection Ed as <- <-. unfold cm_absent, cm_links.
    cbn [CacheManager.with_backend CacheManager.backend CacheManager.enabled
         CacheManager.config].
    split; [exact M1 |]. split; [rewrite N1; exact H1 |].
    split; [auto |]. split; [reflexivity |].
    split; [intros _ x' e' H; rewrite Ef in H; discriminate |].
    repeat (split; [solve [auto] |]). auto.
Qed.

(** [cache.keys()] lists every key whose first item has not expired by the
    end of the iteration. *)
Lemma keys_spec ls : forall (c c1 : Clock.t) (ks : list string),
  Clock.monotone c -> TTLCache.keys ls c = (ks, c1) ->
  Clock.monotone c1 /\ Clock.now c <= Clock.now c1 /\
  forall key x e, TTLCache.find key ls = Some (x, e) ->
                  In key ks \/ e <= Clock.now c1.
Proof.
  induction ls as [| [[k0 x0] e0] ls IH]; intros c c1 ks M E;
    cbn [TTLCache.keys] in E.
  - injection E as <- <-. split; [exact M |]. split; [apply Qle_refl |].
    intros key x e H. discriminate.
  - unfold Clock.monotonic in E.
    destruct (Clock.time c) as [t c'] eqn:Ec.
    destruct (clock_time_spec M Ec) as (H1 & N1 & M1).
    destruct (TTLCache.keys ls c') as [ks' c2] eqn:Ek.
    destruct (IH _ _ _ M1 Ek) as (M2 & H2 & Hfind).
    rewrite N1 in H2.
    cbn [TTLCache.link_expires TTLCache.link_key fst snd] in E.
    injection E as <- <-.
    split; [exact M2 |]. split; [lra |].
    intros key x e H. cbn [TTLCache.find] in H.
    destruct (String.eqb k0 key) eqn:Ek0.
    + injection H as <- <-. apply String.eqb_eq in Ek0. subst key.
      destruct (Qlt_bool t e0) eqn:B.
      * left. now left.
      * right. apply Qlt_bool_false in B. lra.
    + destruct (Hfind key x e H) as [Hin | Hexp]; [| now right].
      left. destruct (Qlt_bool t e0); [now right | exact Hin].
Qed.

(** The loop [for key in keys_to_delete: self.delete(key)]. *)
Lemma cm_delete_all_spec (ks : list string) :
  forall (m m1 : CacheManager.t V) (c c1 : Clock.t),
    Clock.monotone c -> CacheManager.enabled m = true ->
    fold_left (fun (mc : CacheManager.t V * Clock.t) key =>
                 CacheManager.delete key (fst mc) (snd mc)) ks (m, c)
    = (m1, c1) ->
    Clock.monotone c1 /\ Clock.now c <= Clock.now c1 /\
    CacheManager.enabled m1 = true /\
    CacheManager.config m1 = CacheManager.config m /\
    (forall key, In key ks \/ cm_absent key (Clock.now c) m ->
                 cm_absent key (Clock.now c1) m1) /\
    (forall key, ~ In key ks ->
       TTLCache.find key (cm_links m1) = TTLCache.find key (cm_links m)) /\
    (List.length (cm_links m1) <= List.length (cm_links m))%nat /\
    TTLCache.maxsize (MemoryCacheBackend._cache (CacheManager.backend m1))
    = TTLCache.maxsize (MemoryCacheBackend._cache (CacheManager.backend m)) /\
    TTLCache.ttl (MemoryCacheBackend._cache (CacheManager.backend m1))
    = TTLCache.ttl (MemoryCacheBackend._cache (CacheManager.backend m)).
Proof.
  induction ks as [| k ks IH]; intros m m1 c c1 M En E; cbn [fold_left] in E.
  - injection E as <- <-. split; [exact M |]. split; [apply Qle_refl |].
    split; [exact En |]. split; [reflexivity |].
    split; [intros key [[] | A]; exact A |]. auto.
  - cbn [fst snd] in E.
    destruct (CacheManager.delete k m c) as [m' c'] eqn:Ed.
    destruct (cm_delete_spec k m m' c c' M Ed)
      as (M' & H' & En' & Cf' & Habs & Hother & Hkeep & Hlen & Hms & Httl).
    rewrite En in En'.
    destruct (IH m' m1 c' c1 M' En' E)
      as (M1 & H1 & En1 & Cf1 & Habs1 & Hother1 & Hlen1 & Hms1 & Httl1).
    split; [exact M1 |]. split; [lra |]. split; [exact En1 |].
    split; [congruence |].
    split.
    { intros key [[-> | Hin] | A].
      - apply Habs1. right. now apply Habs.
      - apply Habs1. now left.
      - apply Habs1. right. apply Hkeep.
        eapply cm_absent_later; eauto. }
    split.
    { intros key Hn. rewrite Hother1, Hother; auto.
      - intros ->. apply Hn. now left.
      - intros Hin. apply Hn. now right. }
    split; [lia |]. split; congruence.
Qed.

(** The value [get] returns depends on the manager only through what can
    be found under the key. *)
Lemma cm_get_ext key (m m' : CacheManager.t V) (c : Clock.t) :
  CacheManager.enabled m = CacheManager.enabled m' ->
  TTLCache.find key (cm_links m) = TTLCache.find key (cm_links m') ->
  fst (fst (CacheManager.get key m c)) = fst (fst (CacheManager.get key m' c)).
Proof.
  intros En Hf. unfold CacheManager.get. rewrite <- En.
  destruct (negb (CacheManager.enabled m)); [reflexivity |].
  unfold MemoryCacheBackend.get, Clock.monotonic.
  destruct (Clock.time c) as [t1 c1].
  unfold TTLCache.contains, TTLCache.getitem. unfold cm_links in Hf.
  rewrite <- Hf.
  destruct (TTLCache.find key _) as [[x e] |]; [| reflexivity].
  destruct (Qlt_bool t1 e); [| reflexivity].
  destruct (Clock.time c1) as [t2 c2].
  destruct (Qlt_bool t2 e); [| reflexivity].
  destruct x as [en | v]; [| reflexivity].
  destruct (CacheEntry.is_expired en c2) as [[|] c3]; [| reflexivity].
  destruct (CacheManager.delete key m c3), (CacheManager.delete key m' c3).
  reflexivity.
Qed.

(** X10. [invalidate_pattern(pattern)] removes by substring: afterwards,
    under a clock that does not run backwards, [get(key)] returns [None]
    at any later time for every key that contains [pattern] with its
    asterisks deleted, and returns what it would have returned without the
    invalidation for every other key.  The asterisk is not a wildcard: the
    remaining characters must occur in the key as one contiguous piece. *)
Theorem invalidate_pattern_removes_matching (pattern key : string)
    (m m1 : CacheManager.t V) (c c1 c2 : Clock.t) :
  Clock.monotone c ->
  CacheManager.invalidate_pattern pattern m c = (m1, c1) ->
  Clock.monotone c2 -> Clock.now c1 <= Clock.now c2 ->
  (CacheManager.str_in (CacheManager.remove_asterisks pattern) key = true ->
   fst (fst (CacheManager.get key m1 c2)) = None) /\
  (CacheManager.str_in (CacheManager.remove_asterisks pattern) key = false ->
   fst (fst (CacheManager.get key m1 c2))
   = fst (fst (CacheManager.get key m c2))).
Proof.
  intros M E M2 Hlater. unfold CacheManager.invalidate_pattern in E.
  destruct (CacheManager.enabled m) eqn:En; cbn [negb] in E.
  2:{ injection E as <- <-. unfold CacheManager.get. rewrite En.
      split; reflexivity. }
  destruct (TTLCache.keys _ c) as [ks c'] eqn:Ek.
  destruct (keys_spec _ _ _ _ M Ek) as (M' & H' & Hkeys).
  destruct (cm_delete_all_spec _ _ _ _ _ M' En E)
    as (M1 & H1 & En1 & _ & Habs & Hother & _).
  split; intros Hm.
  - destruct (CacheManager.get key m1 c2) as [[r m2] c3] eqn:Eg.
    apply (cm_get_absent key m1 m2 c2 c3 r M2); [| exact Eg].
    apply cm_absent_later with (t := Clock.now c1); [| exact Hlater].
    destruct (TTLCache.find key (cm_links m)) as [[x e] |] eqn:Ef.
    + destruct (Hkeys key x e Ef) as [Hin | Hexp].
      * apply Habs. left. apply filter_In. split; assumption.
      * apply Habs. right. intros x' e' F'. rewrite Ef in F'.
        injection F' as <- <-. exact Hexp.
    + apply Habs. right. intros x' e' F'. rewrite Ef in F'. discriminate.
  - apply cm_get_ext; [congruence |]. apply Hother.
    intros Hin. apply filter_In in Hin. destruct Hin as (_ & Hin).
    congruence.
Qed.

End CacheInvalidate.

Lemma invalidate_pattern_removes_matching_witness :
  fst (fst (CacheManager.get "pin:a" (fst cm_demo_invalidated)
                             (snd cm_demo_invalidated))) = None.
Proof.
  refine (proj1 (invalidate_pattern_removes_matching "pin:*" "pin:a"
                   (fst cm_demo_two) (fst cm_demo_invalidated)
                   (snd cm_demo_two) (snd cm_demo_invalidated)
                   (snd cm_demo_invalidated) _ _ _ _) _).
  - intros k. vm_compute. discriminate.
  - vm_compute. reflexivity.
  - intros k. vm_compute. discriminate.
  - apply Qle_refl.
  - vm_compute. reflexivity.
Defined.

Section CacheSize.
Context {V : Type}.
Implicit Types (ls : list (string * cached V * Q)) (key : string).

Lemma expire_links_length (time : Q) ls :
  (List.length (TTLCache.expire_links time ls) <= List.length ls)%nat.
Proof.
  induction ls as [| l ls IH]; cbn [TTLCache.expire_links]; [lia |].
  destruct (Qlt_bool time (TTLCache.link_expires _ l)); cbn [List.length] in *;
    lia.
Qed.

Lemma remove_length_found key ls (x : cached V * Q) :
  TTLCache.find key ls = Some x ->
  (List.length (TTLCache.remove key ls) < List.length ls)%nat.
Proof.
  induction ls as [| [[k v] e] ls IH]; intros H; [discriminate |].
  cbn [TTLCache.find] in H.
  cbn [TTLCache.remove filter TTLCache.link_key fst].
  fold (TTLCache.remove key ls).
  destruct (String.eqb k key); cbn [negb List.length].
  - assert (L := filter_length_le
                   (fun l => negb (String.eqb (TTLCache.link_key _ l) key)) ls).
    unfold TTLCache.remove. lia.
  - apply IH in H. lia.
Qed.

Lemma evict_length (maxsize : Z) ls :
  (1 <= maxsize)%Z ->
  (Z.of_nat (List.length (TTLCache.evict maxsize ls)) + 1 <= maxsize)%Z.
Proof.
  intros Hm. induction ls as [| l ls IH]; cbn [TTLCache.evict].
  - cbn. lia.
  - destruct (maxsize <? Z.of_nat (List.length (l :: ls)) + 1)%Z eqn:E.
    + exact IH.
    + apply Z.ltb_ge in E. lia.
Qed.

Lemma setitem_bounded (time : Q) key (x : cached V)
    (c : TTLCache.t (cached V)) :
  (Z.of_nat (List.length (TTLCache.links c)) <= TTLCache.maxsize c)%Z ->
  let c' := match TTLCache.setitem time key x c with
            | inl c' => c'
            | inr c' => c'
            end in
  TTLCache.maxsize c' = TTLCache.maxsize c /\
  (Z.of_nat (List.length (TTLCache.links c')) <= TTLCache.maxsize c)%Z.
Proof.
  intros B. unfold TTLCache.setitem.
  assert (L := expire_links_length time (TTLCache.links c)).
  destruct (TTLCache.maxsize c <? 1)%Z eqn:Em;
    cbn [TTLCache.maxsize TTLCache.links].
  - split; [reflexivity | lia].
  - apply Z.ltb_ge in Em. split; [reflexivity |].
    rewrite length_app. cbn [List.length].
    destruct (TTLCache.find key _) as [p |] eqn:Ef.
    + apply remove_length_found in Ef. lia.
    + assert (E := evict_length (TTLCache.maxsize c)
                     (TTLCache.expire_links time (TTLCache.links c)) Em).
      lia.
Qed.

Lemma cm_delete_inv (cfg : CacheConfig.t) key (m : CacheManager.t V)
    (c : Clock.t) :
  cm_inv cfg m -> cm_inv cfg (fst (CacheManager.delete key m c)).
Proof.
  intros (Cf & Ms & B). unfold CacheManager.delete.
  destruct (negb (CacheManager.enabled m)); [repeat split; assumption |].
  unfold MemoryCacheBackend.delete.
  destruct (Clock.monotonic c) as [t1 c1].
  destruct (TTLCache.contains t1 key _).
  - destruct (Clock.monotonic c1) as [t2 c2].
    unfold cm_inv, cm_links in *.
    cbn [fst CacheManager.with_backend CacheManager.backend
         CacheManager.config MemoryCacheBackend._cache TTLCache.delitem
         TTLCache.links TTLCache.maxsize].
    split; [exact Cf |]. split; [exact Ms |].
    assert (L := filter_length_le
                   (fun l => negb (String.eqb (TTLCache.link_key _ l) key))
                   (TTLCache.links
                      (MemoryCacheBackend._cache (CacheManager.backend m)))).
    unfold TTLCache.remove. lia.
  - repeat split; assumption.
Qed.

Lemma cm_get_inv (cfg : CacheConfig.t) key (m : CacheManager.t V)
    (c : Clock.t) :
  cm_inv cfg m -> cm_inv cfg (snd (fst (CacheManager.get key m c))).
Proof.
  intros I. unfold CacheManager.get.
  destruct (negb (CacheManager.enabled m)); [exact I |].
  destruct (MemoryCacheBackend.get key (CacheManager.backend m) c)
    as [[[e | v] |] c1]; try exact I.
  destruct (CacheEntry.is_expired e c1) as [[|] c2]; [| exact I].
  assert (D := cm_delete_inv cfg key m c2 I).
  destruct (CacheManager.delete key m c2) as [m' c3]. exact D.
Qed.

Lemma cm_set_inv (cfg : CacheConfig.t) key (v : option V) (ttl : option Z)
    (m : CacheManager.t V) (c : Clock.t) :
  cm_inv cfg m -> cm_inv cfg (fst (CacheManager.set key v ttl m c)).
Proof.
  intros I. unfold CacheManager.set.
  destruct (negb (CacheManager.enabled m)); [exact I |].
  destruct (_ <=? 0)%Z; [exact I |].
  destruct (Clock.time c) as [now c1].
  unfold MemoryCacheBackend.set. destruct (Clock.monotonic c1) as [t1 c2].
  destruct I as (Cf & Ms & B). unfold cm_links in B. rewrite <- Ms in B.
  match goal with
  | |- context [TTLCache.setitem ?t ?k ?x ?cc] =>
      destruct (setitem_bounded t k x cc B) as (H1 & H2);
      destruct (TTLCache.setitem t k x cc) as [c' | c']
  end;
    unfold cm_inv, cm_links;
    cbn [fst CacheManager.with_backend CacheManager.backend
         CacheManager.config MemoryCacheBackend._cache];
    (split; [exact Cf |]); (split; [congruence |]); rewrite <- Ms; exact H2.
Qed.

Lemma cm_delete_all_inv (cfg : CacheConfig.t) (ks : list string) :
  forall (m : CacheManager.t V) (c : Clock.t),
    cm_inv cfg m ->
    cm_inv cfg
      (fst (fold_left (fun (mc : CacheManager.t V * Clock.t) key =>
                         CacheManager.delete key (fst mc) (snd mc))
                      ks (m, c))).
Proof.
  induction ks as [| k ks IH]; intros m c I; cbn [fold_left fst snd];
    [exact I |].
  assert (D := cm_delete_inv cfg k m c I).
  destruct (CacheManager.delete k m c) as [m' c']. now apply IH.
Qed.

Lemma cm_step_inv (cfg : CacheConfig.t) (o : cm_op V) (m : CacheManager.t V)
    (c : Clock.t) :
  CacheConfig.post_init cfg = true ->
  cm_inv cfg m -> cm_inv cfg (fst (cm_step o m c)).
Proof.
  intros Vc I.
  destruct o as [key | key v ttl | key | | key f ttl | pattern];
    cbn [cm_step].
  - assert (G := cm_get_inv cfg key m c I).
    destruct (CacheManager.get key m c) as [[r m'] c']. exact G.
  - now apply cm_set_inv.
  - now apply cm_delete_inv.
  - cbn [fst]. unfold CacheManager.clear.
    destruct (negb (CacheManager.enabled m)); [exact I |].
    destruct I as (Cf & Ms & B). unfold cm_inv, cm_links.
    cbn [CacheManager.with_backend CacheManager.backend CacheManager.config
         MemoryCacheBackend._cache MemoryCacheBackend.clear TTLCache.clear
         TTLCache.links TTLCache.maxsize List.length].
    split; [exact Cf |]. split; [exact Ms |].
    unfold CacheConfig.post_init in Vc.
    destruct (CacheConfig.ttl cfg <=? 0)%Z; [discriminate |].
    destruct (CacheConfig.max_size cfg <=? 0)%Z eqn:E; [discriminate |].
    apply Z.leb_gt in E. cbn. lia.
  - unfold CacheManager.get_or_set.
    assert (G := cm_get_inv cfg key m c I).
    destruct (CacheManager.get key m c) as [[[v |] m1] c1]; cbn [fst snd] in G;
      [exact G |].
    destruct (f tt) as [value | e]; [| exact G].
    assert (S := cm_set_inv cfg key value ttl m1 c1 G).
    destruct (CacheManager.set key value ttl m1 c1) as [m2 c2]. exact S.
  - unfold CacheManager.invalidate_pattern.
    destruct (negb (CacheManager.enabled m)); [exact I |].
    destruct (TTLCache.keys _ c) as [ks c1].
    now apply cm_delete_all_inv.
Qed.

(** X11. The cache never outgrows [max_size]: for a manager built from a
    valid configuration and any sequence of [get], [set], [delete],
    [clear], [get_or_set] and [invalidate_pattern] calls, under any clock,
    the in-memory backend holds at most [max_size] items (expired ones that
    have not been purged yet included), and the configuration is the one
    given at construction. *)
Theorem cache_never_exceeds_max_size (cfg : CacheConfig.t)
    (ops : list (cm_op V)) (c : Clock.t) :
  CacheConfig.post_init cfg = true ->
  let m' := fst (cm_run ops (CacheManager.init cfg) c) in
  (Z.of_nat (List.length (cm_links m')) <= CacheConfig.max_size cfg)%Z /\
  CacheManager.config m' = cfg.
Proof.
  intros Vc.
  assert (I0 : cm_inv cfg (@CacheManager.init V cfg)).
  { unfold cm_inv, cm_links, CacheManager.init, MemoryCacheBackend.init.
    cbn [CacheManager.config CacheManager.backend MemoryCacheBackend._cache
         TTLCache.maxsize TTLCache.links List.length].
    split; [reflexivity |]. split; [reflexivity |].
    unfold CacheConfig.post_init in Vc.
    destruct (CacheConfig.ttl cfg <=? 0)%Z; [discriminate |].
    destruct (CacheConfig.max_size cfg <=? 0)%Z eqn:E; [discriminate |].
    apply Z.leb_gt in E. cbn. lia. }
  generalize dependent (@CacheManager.init V cfg). revert c.
  induction ops as [| o ops IH]; intros c m I; cbn [cm_run].
  - cbn [fst]. destruct I as (Cf & _ & B). auto.
  - assert (S := cm_step_inv cfg o m c Vc I).
    destruct (cm_step o m c) as [m1 c1]. now apply IH.
Qed.

End CacheSize.

Lemma cache_never_exceeds_max_size_witness :
  (Z.of_nat (List.length
     (cm_links (fst (cm_run cm_demo_ops
                       (CacheManager.init (CacheConfig.mk true 10 2))
                       (Clock.ideal 0))))) <= 2)%Z.
Proof.
  apply (cache_never_exceeds_max_size (CacheConfig.mk true 10 2) cm_demo_ops
           (Clock.ideal 0) eq_refl).
Defined.

Section CacheGetOrSet.
Context {V : Type}.

Lemma cm_get_post (key : string) (m m' : CacheManager.t V) (c c' : Clock.t)
    (r : option V) :
  Clock.monotone c -> CacheManager.get key m c = (r, m', c') ->
  Clock.monotone c' /\ Clock.now c <= Clock.now c' /\
  CacheManager.config m' = CacheManager.config m /\
  (cm_wf m -> cm_wf m').
Proof.
  intros M E. unfold CacheManager.get in E.
  destruct (negb (CacheManager.enabled m)).
  { injection E as <- <- <-. split; [exact M |].
    split; [apply Qle_refl | auto]. }
  unfold MemoryCacheBackend.get, Clock.monotonic in E.
  destruct (Clock.time c) as [t1 c1] eqn:E1.
  destruct (clock_time_spec M E1) as (H1 & N1 & M1).
  destruct (TTLCache.contains t1 key _).
  2:{ injection E as <- <- <-. rewrite N1. auto. }
  destruct (Clock.time c1) as [t2 c2] eqn:E2.
  destruct (clock_time_spec M1 E2) as (H2 & N2 & M2). rewrite N1 in H2.
  destruct (TTLCache.getitem t2 key _) as [[e | v] |].
  - unfold CacheEntry.is_expired in E.
    destruct (Clock.time c2) as [t3 c3] eqn:E3.
    destruct (clock_time_spec M2 E3) as (H3 & N3 & M3). rewrite N2 in H3.
    destruct (Qle_bool (CacheEntry.expires_at e) t3).
    + destruct (CacheManager.delete key m c3) as [m4 c4] eqn:Ed.
      destruct (cm_delete_spec key m m4 c3 c4 M3 Ed)
        as (M4 & H4 & En4 & Cf4 & _ & _ & _ & _ & Ms4 & Tt4).
      rewrite N3 in H4. injection E as <- <- <-.
      split; [exact M4 |]. split; [lra |]. split; [exact Cf4 |].
      unfold cm_wf. intros (A & B & C & D). rewrite En4, Cf4, Ms4, Tt4. auto.
    + injection E as <- <- <-. rewrite N3. split; [exact M3 |].
      split; [lra | auto].
  - injection E as <- <- <-. rewrite N2. split; [exact M2 |].
    split; [lra | auto].
  - injection E as <- <- <-. rewrite N2. split; [exact M2 |].
    split; [lra | auto].
Qed.

Lemma cm_set_clock (key : string) (v : option V) (ttl : option Z)
    (m m' : CacheManager.t V) (c c' : Clock.t) :
  Clock.monotone c -> CacheManager.set key v ttl m c = (m', c') ->
  Clock.now c <= Clock.now c'.
Proof.
  intros M E. unfold CacheManager.set in E.
  destruct (negb (CacheManager.enabled m)).
  { injection E as <- <-. apply Qle_refl. }
  destruct (_ <=? 0)%Z.
  { injection E as <- <-. apply Qle_refl. }
  destruct (Clock.time c) as [t1 c1] eqn:E1.
  destruct (clock_time_spec M E1) as (H1 & N1 & M1).
  unfold MemoryCacheBackend.set, Clock.monotonic in E.
  destruct (Clock.time c1) as [t2 c2] eqn:E2.
  destruct (clock_time_spec M1 E2) as (H2 & N2 & M2). rewrite N1 in H2.
  destruct (TTLCache.setitem t2 key _ _); injection E as <- <-;
    rewrite N2; lra.
Qed.

(** An entry that neither the manager nor the backend regards as expired
    is what [get] returns, and the manager stays as it is. *)
Lemma cm_get_live (key : string) (v : option V) (ee el : Q)
    (m m' : CacheManager.t V) (c c' : Clock.t) (r : option V) :
  CacheManager.enabled m = true ->
  TTLCache.find key (cm_links m) = Some (IsEntry (CacheEntry.mk v ee), el) ->
  Clock.monotone c -> CacheManager.get key m c = (r, m', c') ->
  Clock.now c' < ee -> Clock.now c' < el ->
  r = v /\ m' = m.
Proof.
  intros En Hf M Eg Hee Hel. unfold cm_links in Hf.
  unfold CacheManager.get in Eg. rewrite En in Eg. cbn [negb] in Eg.
  unfold MemoryCacheBackend.get, Clock.monotonic in Eg.
  destruct (Clock.time c) as [t1 c1] eqn:E1.
  destruct (clock_time_spec M E1) as (H1 & N1 & M1).
  unfold TTLCache.contains, TTLCache.getitem in Eg. rewrite Hf in Eg.
  destruct (Qlt_bool t1 el) eqn:B1.
  2:{ apply Qlt_bool_false in B1. injection Eg as <- <- <-.
      rewrite N1 in Hel. lra. }
  destruct (Clock.time c1) as [t2 c2] eqn:E2.
  destruct (clock_time_spec M1 E2) as (H2 & N2 & M2). rewrite N1 in H2.
  destruct (Qlt_bool t2 el) eqn:B2.
  2:{ apply Qlt_bool_false in B2. injection Eg as <- <- <-.
      rewrite N2 in Hel. lra. }
  unfold CacheEntry.is_expired in Eg. cbn [CacheEntry.expires_at] in Eg.
  destruct (Clock.time c2) as [t3 c3] eqn:E3.
  destruct (clock_time_spec M2 E3) as (H3 & N3 & M3). rewrite N2 in H3.
  destruct (Qle_bool ee t3) eqn:B3.
  - apply Qle_bool_iff in B3.
    destruct (CacheManager.delete key m c3) as [m4 c4] eqn:Ed.
    assert (H4 := cm_delete_clock key m m4 c3 c4 M3 Ed). rewrite N3 in H4.
    injection Eg as <- <- <-. lra.
  - cbn [CacheEntry.value] in Eg. injection Eg as <- <- <-. auto.
Qed.

Lemma cm_set_ttl_or_default (key : string) (v : option V) (ttl : option Z)
    (m : CacheManager.t V) (c : Clock.t) :
  CacheManager.set key v ttl m c
  = CacheManager.set key v
      (Some (CacheManager.ttl_or_default ttl
               (CacheConfig.ttl (CacheManager.config m)))) m c.
Proof.
  unfold CacheManager.set.
  destruct (negb (CacheManager.enabled m)); [reflexivity |].
  assert (E : CacheManager.ttl_or_default
                (Some (CacheManager.ttl_or_default ttl
                         (CacheConfig.ttl (CacheManager.config m))))
                (CacheConfig.ttl (CacheManager.config m))
              = CacheManager.ttl_or_default ttl
                  (CacheConfig.ttl (CacheManager.config m))).
  { unfold CacheManager.ttl_or_default.
    destruct ttl as [t |].
    - destruct (t =? 0)%Z eqn:E0.
      + destruct (CacheConfig.ttl (CacheManager.config m) =? 0)%Z;
          reflexivity.
      + now rewrite E0.
    - destruct (CacheConfig.ttl (CacheManager.config m) =? 0)%Z;
        reflexivity. }
  rewrite E. reflexivity.
Qed.

(** X12. [get_or_set] computes once: when the key is a miss, the factory
    returns a value other than [None] and the effective TTL
    ([ttl or config.ttl]) is positive, the value is returned and stored,
    and a second [get_or_set] for the key returns the same value whatever
    its own factory and [ttl] are, storing nothing, provided the time from
    the start of the first call to the end of the second is below both the
    effective TTL and the backend's [config.ttl]. *)
Theorem get_or_set_computes_once (key : string) (v : V)
    (f1 f2 : unit -> result (option V)) (ttl1 ttl2 : option Z)
    (m m1 m2 : CacheManager.t V) (c c1 c2 c3 : Clock.t)
    (r1 r2 : result (option V)) :
  cm_wf m -> Clock.monotone c ->
  fst (fst (CacheManager.get key m c)) = None ->
  f1 tt = Return (Some v) ->
  (0 < CacheManager.ttl_or_default ttl1
         (CacheConfig.ttl (CacheManager.config m)))%Z ->
  CacheManager.get_or_set key f1 ttl1 m c = (r1, m1, c1) ->
  Clock.monotone c2 -> Clock.now c1 <= Clock.now c2 ->
  CacheManager.get_or_set key f2 ttl2 m1 c2 = (r2, m2, c3) ->
  Clock.now c3 - Clock.now c
    < inject_Z (CacheManager.ttl_or_default ttl1
                  (CacheConfig.ttl (CacheManager.config m))) ->
  Clock.now c3 - Clock.now c
    < inject_Z (CacheConfig.ttl (CacheManager.config m)) ->
  r1 = Return (Some v) /\ r2 = Return (Some v) /\ m2 = m1.
Proof.
  intros W M Hmiss Hf HT E1 M2 Hlater E2 Hb1 Hb2.
  unfold CacheManager.get_or_set in E1.
  destruct (CacheManager.get key m c) as [[r0 m0] c0] eqn:Eg0.
  cbn [fst] in Hmiss. subst r0. rewrite Hf in E1.
  destruct (cm_get_post key m m0 c c0 None M Eg0) as (M0 & H0 & Cf0 & W0).
  specialize (W0 W).
  destruct (CacheManager.set key (Some v) ttl1 m0 c0) as [m1' c1'] eqn:Es.
  injection E1 as <- -> ->. split; [reflexivity |].
  rewrite cm_set_ttl_or_default, Cf0 in Es.
  destruct (cm_set_spec key (Some v) _ m0 m1 c0 c1 W0 M0 HT Es)
    as (t_mono & Hs1 & Hs2 & En1 & Hfind).
  rewrite Cf0 in Hfind.
  assert (Hset : Clock.now c0 <= fst (Clock.time c0)).
  { destruct (Clock.time c0) as [t c'] eqn:Et.
    destruct (clock_time_spec M0 Et) as (Ht & _). exact Ht. }
  unfold CacheManager.get_or_set in E2.
  destruct (CacheManager.get key m1 c2) as [[r m2'] c3'] eqn:Eg2.
  destruct (cm_get_post key m1 m2' c2 c3' r M2 Eg2) as (M3' & H3' & _ & _).
  assert (Hc3 : Clock.now c3' <= Clock.now c3).
  { destruct r as [x |].
    - injection E2 as _ _ <-. apply Qle_refl.
    - destruct (f2 tt) as [value | e].
      + destruct (CacheManager.set key value ttl2 m2' c3') as [m4 c4] eqn:Es2.
        injection E2 as _ _ <-.
        exact (cm_set_clock key value ttl2 m2' m4 c3' c4 M3' Es2).
      + injection E2 as _ _ <-. apply Qle_refl. }
  destruct (cm_get_live key (Some v) _ _ m1 m2' c2 c3' r En1 Hfind M2 Eg2)
    as (-> & ->); [lra | lra |].
  injection E2 as <- <- _. auto.
Qed.

End CacheGetOrSet.

Lemma get_or_set_computes_once_witness :
  fst (fst cm_demo_second) = Return (Some "v"%string).
Proof.
  refine (proj1 (proj2 (get_or_set_computes_once "k" "v"%string
                   (fun _ => Return (Some "v"%string))
                   (fun _ => Return (Some "w"%string)) None (Some 1%Z)
                   cm_demo (snd (fst cm_demo_first)) (snd (fst cm_demo_second))
                   (Clock.ideal 0) (snd cm_demo_first)
                   (Clock.sleep 3 (snd cm_demo_first)) (snd cm_demo_second)
                   (fst (fst cm_demo_first)) (fst (fst cm_demo_second))
                   cm_demo_wf (ideal_monotone 0) _ eq_refl _ _ _ _ _ _ _))).
  - vm_compute. reflexivity.
  - vm_compute. reflexivity.
  - vm_compute. reflexivity.
  - intros k. vm_compute. discriminate.
  - vm_compute. discriminate.
  - vm_compute. reflexivity.
  - vm_compute. reflexivity.
  - vm_compute. reflexivity.
Defined.

(** ** HTTP client *)

Lemma handle_response_return (r : response) (endpoint : string)
    (data : dict) :
  HttpClient._handle_response r endpoint = Return data ->
  status_code r = 200%Z /\ body r = Some data.
Proof.
  unfold HttpClient._handle_response. intros H.
  destruct (status_code r =? 200)%Z eqn:E200.
  - apply Z.eqb_eq in E200. destruct (body r); [| discriminate].
    injection H as <-. auto.
  - destruct (status_code r =? 401)%Z; [discriminate |].
    destruct (status_code r =? 429)%Z.
    { destruct (retry_after r) as [header |]; [| discriminate].
      destruct (int_of_string header); discriminate. }
    destruct ((400 <=? status_code r) && (status_code r <? 500))%Z;
      [discriminate |].
    destruct (500 <=? status_code r)%Z; discriminate.
Qed.

(** X13. [_handle_response] keeps the status: it returns the body only for
    status 200, and every error it raises for another status carries that
    status in its [status_code] (401 on [ApiAuthenticationError], 429 on
    [RateLimitExceededError], the response's own code on [ApiError]), with
    one exception: on a 429 whose [Retry-After] header is not an integer
    literal, [int()] raises [ValueError], which is no SDK error and carries
    no status.  A 429 with an integer header raises
    [RateLimitExceededError] with that integer, and with no header with
    60. *)
Theorem handle_response_keeps_status (r : response) (endpoint : string) :
  (forall data, HttpClient._handle_response r endpoint = Return data ->
                status_code r = 200%Z /\ body r = Some data) /\
  (forall e, HttpClient._handle_response r endpoint = Raise e ->
             status_code r <> 200%Z ->
             status_code_of e = Some (status_code r) \/
             (status_code r = 429%Z /\ e = OtherException "ValueError" /\
              exists header, retry_after r = Some header /\
                             int_of_string header = None)) /\
  (status_code r = 429%Z ->
   HttpClient._handle_response r endpoint
   = match retry_after r with
     | None => Raise (RateLimitExceededError 60)
     | Some header =>
         match int_of_string header with
         | Some n => Raise (RateLimitExceededError n)
         | None => Raise (OtherException "ValueError")
         end
     end).
Proof.
  split; [intros data; apply handle_response_return |]. split.
  - unfold HttpClient._handle_response. intros e H N.
    destruct (status_code r =? 200)%Z eqn:E200.
    { apply Z.eqb_eq in E200. contradiction. }
    destruct (status_code r =? 401)%Z eqn:E401.
    { apply Z.eqb_eq in E401. injection H as <-. left. cbn.
      now rewrite E401. }
    destruct (status_code r =? 429)%Z eqn:E429.
    { apply Z.eqb_eq in E429.
      destruct (retry_after r) as [header |] eqn:Eh.
      - destruct (int_of_string header) as [n |] eqn:Ei.
        + injection H as <-. left. cbn. now rewrite E429.
        + injection H as <-. right. split; [exact E429 |].
          split; [reflexivity |]. exists header. auto.
      - injection H as <-. left. cbn. now rewrite E429. }
    destruct ((400 <=? status_code r) && (status_code r <? 500))%Z.
    { injection H as <-. left. reflexivity. }
    destruct (500 <=? status_code r)%Z; injection H as <-; left; reflexivity.
  - intros E. unfold HttpClient._handle_response. rewrite E. reflexivity.
Qed.

Lemma handle_response_keeps_status_witness :
  status_code_of (RateLimitExceededError 120) = Some 429%Z \/
  (429%Z = 429%Z /\
   RateLimitExceededError 120 = OtherException "ValueError" /\
   exists header, Some " 120 "%string = Some header /\
                  int_of_string header = None).
Proof.
  apply (proj1 (proj2 (handle_response_keeps_status
                         (mk_response 429 None (Some " 120 "%string))
                         "/verify-pin")) (RateLimitExceededError 120)).
  - vm_compute. reflexivity.
  - discriminate.
Defined.

Ltac http_once endpoint :=
  split;
  [ destruct (Transport.respond _ _ _); reflexivity
  | let d := fresh "d" in
    let H := fresh "H" in
    let r := fresh "r" in
    intros d H;
    destruct (Transport.respond _ _ _) as [r | | |];
    cbn [fst] in H; try discriminate;
    exists r; split; [reflexivity |];
    exact (handle_response_return r endpoint d H) ].

(** X14. One call, one request: each of [get], [post], [put] and [delete]
    hands exactly one request to the transport, whatever the retry
    configuration and whatever the outcome, and returns normally only when
    that request was answered with status 200 and a JSON body, which is
    then the value returned. *)
Theorem http_methods_send_once (h : HttpClient.t) (tr : Transport.t)
    (endpoint : string) (data json_data : option dict) :
  let answered (req : request) (o : result dict * Transport.t) :=
    Transport.sent (snd o) = Transport.sent tr ++ [req] /\
    forall d, fst o = Return d ->
      exists r, Transport.respond tr (List.length (Transport.sent tr)) req
                = Responds r /\
                status_code r = 200%Z /\ body r = Some d in
  answered (mk_request GET endpoint None None)
           (HttpClient.get endpoint h tr) /\
  answered (mk_request POST endpoint data json_data)
           (HttpClient.post endpoint data json_data h tr) /\
  answered (mk_request PUT endpoint None json_data)
           (HttpClient.put endpoint json_data h tr) /\
  answered (mk_request DELETE endpoint None None)
           (HttpClient.delete endpoint h tr).
Proof.
  cbv zeta.
  unfold HttpClient.get, HttpClient.post, HttpClient.put, HttpClient.delete,
    Transport.send.
  split; [http_once endpoint |]. split; [http_once endpoint |].
  split; http_once endpoint.
Qed.

Lemma http_methods_send_once_witness :
  exists r,
    Transport.respond ok_transport
      (List.length (Transport.sent ok_transport))
      (mk_request GET "/taxpayer-details/P051234567A" None None)
    = Responds r /\
    status_code r = 200%Z /\ body r = Some [("valid"%string, JBool true)].
Proof.
  apply (proj2 (proj1 (http_methods_send_once (HttpClient.mk demo_config)
                         ok_transport "/taxpayer-details/P051234567A"
                         None None))
               [("valid"%string, JBool true)]).
  reflexivity.
Defined.

(** ** Configuration *)

Lemma string_of_list_ascii_app (l1 l2 : list ascii) :
  string_of_list_ascii (l1 ++ l2)
  = (string_of_list_ascii l1 ++ string_of_list_ascii l2)%string.
Proof. induction l1 as [| a l1 IH]; cbn; [reflexivity | now rewrite IH]. Qed.

Lemma list_ascii_of_string_app (s1 s2 : string) :
  list_ascii_of_string (s1 ++ s2)
  = list_ascii_of_string s1 ++ list_ascii_of_string s2.
Proof. induction s1 as [| a s1 IH]; cbn; [reflexivity | now rewrite IH]. Qed.

Lemma lstrip_char_split (ch : ascii) (l : list ascii) :
  exists k, l = repeat ch k ++ KraConfig.lstrip_char ch l.
Proof.
  induction l as [| c l (k & IH)]; cbn [KraConfig.lstrip_char].
  - exists 0%nat. reflexivity.
  - destruct (Ascii.eqb c ch) eqn:E.
    + apply Ascii.eqb_eq in E. subst c. exists (S k). cbn. now rewrite <- IH.
    + exists 0%nat. reflexivity.
Qed.

Lemma lstrip_char_head (ch : ascii) (l rest : list ascii) :
  KraConfig.lstrip_char ch l <> ch :: rest.
Proof.
  induction l as [| c l IH]; cbn [KraConfig.lstrip_char]; [discriminate |].
  destruct (Ascii.eqb c ch) eqn:E; [exact IH |].
  apply Ascii.eqb_neq in E. congruence.
Qed.

Lemma lstrip_char_fixed (ch : ascii) (l : list ascii) :
  KraConfig.lstrip_char ch (KraConfig.lstrip_char ch l)
  = KraConfig.lstrip_char ch l.
Proof.
  induction l as [| c l IH]; cbn [KraConfig.lstrip_char]; [reflexivity |].
  destruct (Ascii.eqb c ch) eqn:E; [exact IH |].
  cbn [KraConfig.lstrip_char]. now rewrite E.
Qed.

Lemma rstrip_char_spec (ch : ascii) (s : string) :
  (exists k, s = (KraConfig.rstrip_char ch s
                  ++ string_of_list_ascii (repeat ch k))%string) /\
  (forall p, KraConfig.rstrip_char ch s <> (p ++ String ch EmptyString)%string)
  /\ KraConfig.rstrip_char ch (KraConfig.rstrip_char ch s)
     = KraConfig.rstrip_char ch s.
Proof.
  unfold KraConfig.rstrip_char.
  set (l := rev (list_ascii_of_string s)).
  split; [| split].
  - destruct (lstrip_char_split ch l) as (k & Hk). exists k.
    rewrite <- string_of_list_ascii_app.
    rewrite <- (string_of_list_ascii_of_string s).
    f_equal.
    rewrite <- (rev_involutive (list_ascii_of_string s)). fold l.
    rewrite Hk at 1. rewrite rev_app_distr. f_equal.
    clear. induction k as [| k IH]; [reflexivity |].
    cbn [repeat rev]. rewrite IH. clear.
    induction k as [| k IH]; [reflexivity |]. cbn. now rewrite IH.
  - intros p H.
    apply (f_equal list_ascii_of_string) in H.
    rewrite list_ascii_of_string_of_list_ascii, list_ascii_of_string_app in H.
    apply (f_equal (@rev ascii)) in H.
    rewrite rev_involutive, rev_app_distr in H. cbn in H.
    exact (lstrip_char_head ch l _ H).
  - rewrite list_ascii_of_string_of_list_ascii, rev_involutive.
    now rewrite lstrip_char_fixed.
Qed.

(** X15. [KraConfig.__post_init__] normalises once and for all: a
    configuration it accepts has a non-empty API key, a positive timeout
    and one of the five log levels; its [base_url] is the given one with
    every trailing slash removed, so it never ends in a slash; and running
    the validation again on the result changes nothing. *)
Theorem kra_config_post_init_normalizes (c c' : KraConfig.t) :
  KraConfig.post_init c = Some c' ->
  KraConfig.api_key c' <> EmptyString /\
  0 < KraConfig.timeout c' /\
  In (KraConfig.log_level c') KraConfig.log_levels /\
  (exists k, KraConfig.base_url c
             = (KraConfig.base_url c'
                ++ string_of_list_ascii (repeat "/"%char k))%string) /\
  (forall p, KraConfig.base_url c' <> (p ++ "/")%string) /\
  KraConfig.post_init c' = Some c'.
Proof.
  unfold KraConfig.post_init. intros H.
  destruct (String.eqb (KraConfig.api_key c) EmptyString) eqn:Ek;
    [discriminate |].
  destruct (Qle_bool (KraConfig.timeout c) 0) eqn:Et; [discriminate |].
  destruct (existsb (String.eqb (KraConfig.log_level c)) KraConfig.log_levels)
    eqn:El; [| discriminate].
  cbn [negb] in H. injection H as <-.
  cbn [KraConfig.api_key KraConfig.timeout KraConfig.log_level
       KraConfig.base_url KraConfig.verify_ssl KraConfig.retry_config
       KraConfig.cache_config KraConfig.rate_limit_config
       KraConfig.user_agent].
  rewrite Ek, Et, El. cbn [negb].
  destruct (rstrip_char_spec "/" (KraConfig.base_url c)) as (Hk & Hend & Hid).
  split; [now apply String.eqb_neq |].
  split; [now apply Qle_bool_false |].
  split.
  { apply existsb_exists in El. destruct El as (x & Hin & Hx).
    apply String.eqb_eq in Hx. now subst x. }
  split; [exact Hk |]. split; [exact Hend |].
  now rewrite Hid.
Qed.

Lemma kra_config_post_init_normalizes_witness :
  exists k,
    "https://api.kra.go.ke/v1//"%string
    = ("https://api.kra.go.ke/v1"
       ++ string_of_list_ascii (repeat "/"%char k))%string.
Proof.
  apply (kra_config_post_init_normalizes
           (KraConfig.mk "key" "https://api.kra.go.ke/v1//" 30 true
              RetryConfig.default CacheConfig.default
              RateLimitConfig.default "INFO" "agent")
           (KraConfig.mk "key" "https://api.kra.go.ke/v1" 30 true
              RetryConfig.default CacheConfig.default
              RateLimitConfig.default "INFO" "agent")).
  vm_compute. reflexivity.
Defined.

(** ** Validators *)

Lemma lstrip_head (l rest : list ascii) (c : ascii) :
  lstrip l = c :: rest -> is_space c = false.
Proof.
  induction l as [| a l IH]; cbn [lstrip]; [discriminate |].
  destruct (is_space a) eqn:E; [exact IH |].
  intros H. injection H as <- _. exact E.
Qed.

Lemma lstrip_fixed (l : list ascii) :
  (forall c rest, l = c :: rest -> is_space c = false) -> lstrip l = l.
Proof.
  destruct l as [| a l]; intros H; [reflexivity |].
  cbn [lstrip]. now rewrite (H a l eq_refl).
Qed.

Lemma lstrip_suffix (l : list ascii) : exists pre, l = pre ++ lstrip l.
Proof.
  induction l as [| a l (pre & IH)]; cbn [lstrip].
  - exists []. reflexivity.
  - destruct (is_space a).
    + exists (a :: pre). cbn. now rewrite <- IH.
    + exists []. reflexivity.
Qed.

(** A string without whitespace at either end is left alone by
    [strip]. *)
Lemma strip_fixed (s : string) :
  (forall c rest, list_ascii_of_string s = c :: rest -> is_space c = false) ->
  (forall c rest, rev (list_ascii_of_string s) = c :: rest ->
                  is_space c = false) ->
  strip s = s.
Proof.
  intros Hh Hl. unfold strip.
  rewrite (lstrip_fixed _ Hh), (lstrip_fixed _ Hl), rev_involutive.
  apply string_of_list_ascii_of_string.
Qed.

Lemma strip_ends (s : string) :
  (forall c rest, list_ascii_of_string (strip s) = c :: rest ->
                  is_space c = false) /\
  (forall c rest, rev (list_ascii_of_string (strip s)) = c :: rest ->
                  is_space c = false).
Proof.
  unfold strip. rewrite list_ascii_of_string_of_list_ascii.
  set (a := lstrip (list_ascii_of_string s)).
  split; intros c rest H.
  - (* the first character is the last of [rev a] that [lstrip] kept, that
       is the first of [a] *)
    destruct (lstrip_suffix (rev a)) as (pre & Hpre).
    assert (Hb : lstrip (rev a) = rev rest ++ [c]).
    { rewrite <- (rev_involutive (lstrip (rev a))), H. reflexivity. }
    rewrite Hb in Hpre. apply (f_equal (@rev ascii)) in Hpre.
    rewrite rev_involutive, !rev_app_distr in Hpre. cbn in Hpre.
    subst a. eapply lstrip_head. exact Hpre.
  - rewrite rev_involutive in H. eapply lstrip_head. exact H.
Qed.

Lemma strip_idempotent (s : string) : strip (strip s) = strip s.
Proof. destruct (strip_ends s) as (A & B). now apply strip_fixed. Qed.

Lemma strip_no_space (s : string) :
  forallb (fun c => negb (is_space c)) (list_ascii_of_string s) = true ->
  strip s = s.
Proof.
  intros H. rewrite forallb_forall in H.
  apply strip_fixed; intros c rest E; apply negb_true_iff, H.
  - rewrite E. now left.
  - apply in_rev. rewrite E. now left.
Qed.

Lemma upper_fixed (s : string) :
  forallb (fun c => Ascii.eqb (upper_char c) c) (list_ascii_of_string s)
  = true ->
  upper s = s.
Proof.
  unfold upper. intros H. rewrite <- (string_of_list_ascii_of_string s) at 2.
  f_equal. induction (list_ascii_of_string s) as [| c l IH]; [reflexivity |].
  cbn [forallb] in H. apply andb_true_iff in H. destruct H as (Hc & Hl).
  apply Ascii.eqb_eq in Hc. cbn [map]. now rewrite Hc, IH.
Qed.

(** Digits and capital letters are neither whitespace nor changed by
    [upper]. *)
Lemma digit_plain (c : ascii) :
  is_digit c = true ->
  is_space c = false /\ upper_char c = c /\ Ascii.eqb c "-" = false.
Proof.
  unfold is_digit, is_space, upper_char. intros H.
  apply andb_true_iff in H. destruct H as (H1 & H2).
  apply N.leb_le in H1, H2.
  split; [| split].
  - apply orb_false_iff. split; apply andb_false_iff; right;
      apply N.leb_gt; lia.
  - replace (97 <=? N_of_ascii c)%N with false; [reflexivity |].
    symmetry. apply N.leb_gt. lia.
  - apply Ascii.eqb_neq. intros ->.
    change (N_of_ascii "-") with 45%N in H1. lia.
Qed.

Lemma upper_plain (c : ascii) :
  is_upper c = true -> is_space c = false /\ upper_char c = c.
Proof.
  unfold is_upper, is_space, upper_char. intros H.
  apply andb_true_iff in H. destruct H as (H1 & H2).
  apply N.leb_le in H1, H2.
  split.
  - apply orb_false_iff. split; apply andb_false_iff; right;
      apply N.leb_gt; lia.
  - replace (97 <=? N_of_ascii c)%N with false; [reflexivity |].
    symmetry. apply N.leb_gt. lia.
Qed.

(** A string of digits and capital letters is already normalised. *)
Lemma normalized_fixed (s : string) :
  forallb (fun c => is_digit c || is_upper c) (list_ascii_of_string s)
  = true ->
  upper (strip s) = s.
Proof.
  intros H. rewrite forallb_forall in H.
  assert (P : forall c, In c (list_ascii_of_string s) ->
                        is_space c = false /\ upper_char c = c).
  { intros c Hin. specialize (H c Hin). apply orb_true_iff in H.
    destruct H as [H | H]; [apply digit_plain in H | apply upper_plain in H];
      tauto. }
  rewrite strip_no_space, upper_fixed; [reflexivity | |];
    apply forallb_forall; intros c Hin; destruct (P c Hin) as (A & B).
  - rewrite B. apply Ascii.eqb_refl.
  - now rewrite A.
Qed.

Lemma length_string_of_list_ascii (l : list ascii) :
  String.length (string_of_list_ascii l) = List.length l.
Proof. induction l as [| a l IH]; cbn; [reflexivity | now rewrite IH]. Qed.

Lemma length_list_ascii_of_string (s : string) :
  List.length (list_ascii_of_string s) = String.length s.
Proof. induction s as [| a s IH]; cbn; [reflexivity | now rewrite IH]. Qed.

Lemma forallb_firstn_skipn {A : Type} (f : A -> bool) (n : nat)
    (l : list A) :
  forallb f (firstn n l) = true -> forallb f (skipn n l) = true ->
  forallb f l = true.
Proof.
  intros H1 H2. rewrite <- (firstn_skipn n l), forallb_app.
  now rewrite H1, H2.
Qed.

Lemma forallb_weaken {A : Type} (f g : A -> bool) (l : list A) :
  (forall x, f x = true -> g x = true) ->
  forallb f l = true -> forallb g l = true.
Proof.
  intros I H. rewrite forallb_forall in *. auto.
Qed.

(** X16. The PIN and TCC validators are normal forms: whatever
    [validate_pin_format] returns is eleven characters long (the letter P,
    nine digits, one capital letter) and whatever [validate_tcc_format]
    returns is TCC followed by at least one digit; validating a returned
    value again returns it unchanged. *)
Theorem validate_pin_tcc_idempotent (input output : string) :
  (validate_pin_format input = Return output ->
   String.length output = 11%nat /\ PIN_REGEX_match output = true /\
   validate_pin_format output = Return output) /\
  (validate_tcc_format input = Return output ->
   (4 <= String.length output)%nat /\ TCC_REGEX_match output = true /\
   validate_tcc_format output = Return output).
Proof.
  split; intros H.
  - unfold validate_pin_format in H.
    destruct (String.eqb input EmptyString); [discriminate |].
    destruct (PIN_REGEX_match (upper (strip input))) eqn:Em;
      [| discriminate].
    cbn [negb] in H. injection H as <-.
    set (out := upper (strip input)) in *.
    assert (Em' := Em). unfold PIN_REGEX_match in Em'.
    destruct (list_ascii_of_string out) as [| p rest] eqn:El;
      [discriminate |].
    apply andb_true_iff in Em'. destruct Em' as (Em' & Hup).
    apply andb_true_iff in Em'. destruct Em' as (Em' & Hdig).
    apply andb_true_iff in Em'. destruct Em' as (Hp & Hlen).
    apply Ascii.eqb_eq in Hp. subst p. apply Nat.eqb_eq in Hlen.
    assert (Hl : String.length out = 11%nat).
    { rewrite <- (string_of_list_ascii_of_string out), El.
      rewrite length_string_of_list_ascii. cbn. now rewrite Hlen. }
    split; [exact Hl |]. split; [exact Em |].
    unfold validate_pin_format.
    assert (Hne : String.eqb out EmptyString = false).
    { apply String.eqb_neq. intros E. rewrite E in Hl. discriminate. }
    rewrite Hne. rewrite normalized_fixed; [now rewrite Em |].
    rewrite El. cbn [forallb]. apply andb_true_iff. split; [reflexivity |].
    apply (forallb_firstn_skipn _ 9).
    + eapply forallb_weaken; [| exact Hdig]. intros x ->. reflexivity.
    + eapply forallb_weaken; [| exact Hup]. intros x ->. apply orb_true_r.
  - unfold validate_tcc_format in H.
    destruct (String.eqb input EmptyString); [discriminate |].
    destruct (TCC_REGEX_match (upper (strip input))) eqn:Em;
      [| discriminate].
    cbn [negb] in H. injection H as <-.
    set (out := upper (strip input)) in *.
    assert (Em' := Em). unfold TCC_REGEX_match in Em'.
    destruct (list_ascii_of_string out) as [| t [| c1 [| c2 [| d rest]]]]
      eqn:El; try discriminate.
    apply andb_true_iff in Em'. destruct Em' as (Em' & Hdig).
    apply andb_true_iff in Em'. destruct Em' as (Em' & H3).
    apply andb_true_iff in Em'. destruct Em' as (H1 & H2).
    apply Ascii.eqb_eq in H1, H2, H3. subst t c1 c2.
    assert (Hl : (4 <= String.length out)%nat).
    { rewrite <- (string_of_list_ascii_of_string out), El.
      rewrite length_string_of_list_ascii. cbn. lia. }
    split; [exact Hl |]. split; [exact Em |].
    unfold validate_tcc_format.
    assert (Hne : String.eqb out EmptyString = false).
    { apply String.eqb_neq. intros E. rewrite E in Hl. cbn in Hl. lia. }
    rewrite Hne. rewrite normalized_fixed; [now rewrite Em |].
    rewrite El.
    change ("T"%char :: "C"%char :: "C"%char :: d :: rest)
      with (["T"%char; "C"%char; "C"%char] ++ d :: rest).
    rewrite forallb_app. apply andb_true_iff. split; [reflexivity |].
    eapply forallb_weaken; [| exact Hdig]. intros x ->. reflexivity.
Qed.

Lemma validate_pin_tcc_idempotent_witness :
  String.length "P051234567A" = 11%nat /\
  PIN_REGEX_match "P051234567A" = true /\
  validate_pin_format "P051234567A" = Return "P051234567A"%string.
Proof.
  apply (proj1 (validate_pin_tcc_idempotent " p051234567a" "P051234567A")).
  vm_compute. reflexivity.
Defined.

Lemma digits_no_space (l : list ascii) :
  forallb is_digit l = true ->
  forallb (fun c => negb (is_space c)) l = true.
Proof.
  apply forallb_weaken. intros c H.
  destruct (digit_plain c H) as (-> & _). reflexivity.
Qed.

(** X17. The two period checks accept the same strings: a period that
    [validate_period_format] accepts is the stripped input, six digits
    with the year in 2000..2100 and the month in 1..12; it passes the
    field validator of [NilReturnResult] and validates to itself; and
    every value the field validator accepts is accepted unchanged by
    [validate_period_format] (the two differ only in which error comes
    first). *)
Theorem validate_period_agrees (input output : string) :
  (validate_period_format input = Accepted output ->
   output = strip input /\ String.length output = 6%nat /\
   (2000 <= int_of_digits (firstn 4 (list_ascii_of_string output)) <= 2100)%Z
   /\ (1 <= int_of_digits (skipn 4 (list_ascii_of_string output)) <= 12)%Z /\
   NilReturnResult_validate_period_format output = Accepted output /\
   validate_period_format output = Accepted output) /\
  (NilReturnResult_validate_period_format input = Accepted output ->
   output = input /\ validate_period_format input = Accepted input).
Proof.
  split; intros H.
  - unfold validate_period_format in H.
    destruct (String.eqb input EmptyString); [discriminate |].
    destruct (PERIOD_REGEX_match (strip input)) eqn:Em; [| discriminate].
    cbn [negb] in H.
    set (out := strip input) in *.
    destruct ((int_of_digits (firstn 4 (list_ascii_of_string out)) <? 2000)
              || (2100 <? int_of_digits
                            (firstn 4 (list_ascii_of_string out))))%Z
      eqn:Ey; [discriminate |].
    destruct ((int_of_digits (skipn 4 (list_ascii_of_string out)) <? 1)
              || (12 <? int_of_digits
                          (skipn 4 (list_ascii_of_string out))))%Z
      eqn:Emo; [discriminate |].
    injection H as <-.
    assert (Em' := Em). unfold PERIOD_REGEX_match in Em'.
    apply andb_true_iff in Em'. destruct Em' as (Hlen & Hdig).
    apply Nat.eqb_eq in Hlen. rewrite length_list_ascii_of_string in Hlen.
    assert (Hne : String.eqb out EmptyString = false).
    { apply String.eqb_neq. intros E. rewrite E in Hlen. discriminate. }
    split; [reflexivity |]. split; [exact Hlen |].
    assert (Ey' := Ey). assert (Emo' := Emo).
    apply orb_false_iff in Ey', Emo'.
    destruct Ey' as (Y1 & Y2). destruct Emo' as (M1 & M2).
    apply Z.ltb_ge in Y1, Y2, M1, M2.
    split; [lia |]. split; [lia |]. split.
    + unfold NilReturnResult_validate_period_format.
      rewrite Hlen, Hne, Hdig, Ey, Emo. reflexivity.
    + unfold validate_period_format. rewrite Hne.
      rewrite (strip_no_space out (digits_no_space _ Hdig)).
      rewrite Em, Ey, Emo. reflexivity.
  - unfold NilReturnResult_validate_period_format in H.
    destruct (String.length input =? 6)%nat eqn:Hlen; [| discriminate].
    destruct (String.eqb input EmptyString) eqn:Hne; [discriminate |].
    destruct (forallb is_digit (list_ascii_of_string input)) eqn:Hdig;
      [| discriminate].
    cbn [negb orb andb] in H.
    destruct ((int_of_digits (skipn 4 (list_ascii_of_string input)) <? 1)
              || (12 <? int_of_digits
                          (skipn 4 (list_ascii_of_string input))))%Z
      eqn:Emo; [discriminate |].
    destruct ((int_of_digits (firstn 4 (list_ascii_of_string input)) <? 2000)
              || (2100 <? int_of_digits
                            (firstn 4 (list_ascii_of_string input))))%Z
      eqn:Ey; [discriminate |].
    injection H as <-. split; [reflexivity |].
    unfold validate_period_format. rewrite Hne.
    rewrite (strip_no_space input (digits_no_space _ Hdig)).
    unfold PERIOD_REGEX_match.
    rewrite length_list_ascii_of_string, Hlen, Hdig. cbn [andb negb].
    rewrite Ey, Emo. reflexivity.
Qed.

Lemma validate_period_agrees_witness :
  NilReturnResult_validate_period_format "202401" = Accepted "202401"%string.
Proof.
  apply (proj1 (validate_period_agrees " 202401 " "202401")).
  vm_compute. reflexivity.
Defined.

(** X18. [validate_obligation_id] and [validate_eslip_number] return the
    stripped input, of at least 3 and 5 characters, and accept their own
    output unchanged. *)
Theorem validate_id_idempotent (input output : string) :
  (validate_obligation_id input = Accepted output ->
   output = strip input /\ (3 <= String.length output)%nat /\
   validate_obligation_id output = Accepted output) /\
  (validate_eslip_number input = Accepted output ->
   output = strip input /\ (5 <= String.length output)%nat /\
   validate_eslip_number output = Accepted output).
Proof.
  split; intros H.
  - unfold validate_obligation_id in H.
    destruct (String.eqb input EmptyString); [discriminate |].
    destruct (String.length (strip input) <? 3)%nat eqn:El; [discriminate |].
    injection H as <-. assert (El' := El). apply Nat.ltb_ge in El'.
    split; [reflexivity |]. split; [exact El' |].
    unfold validate_obligation_id.
    replace (String.eqb (strip input) EmptyString) with false.
    + now rewrite strip_idempotent, El.
    + symmetry. apply String.eqb_neq. intros E. rewrite E in El'.
      cbn in El'. lia.
  - unfold validate_eslip_number in H.
    destruct (String.eqb input EmptyString); [discriminate |].
    destruct (String.length (strip input) <? 5)%nat eqn:El; [discriminate |].
    injection H as <-. assert (El' := El). apply Nat.ltb_ge in El'.
    split; [reflexivity |]. split; [exact El' |].
    unfold validate_eslip_number.
    replace (String.eqb (strip input) EmptyString) with false.
    + now rewrite strip_idempotent, El.
    + symmetry. apply String.eqb_neq. intros E. rewrite E in El'.
      cbn in El'. lia.
Qed.

Lemma validate_id_idempotent_witness :
  "OBL123456"%string = strip " OBL123456 " /\
  (3 <= String.length "OBL123456")%nat /\
  validate_obligation_id "OBL123456" = Accepted "OBL123456"%string.
Proof.
  apply (proj1 (validate_id_idempotent " OBL123456 " "OBL123456")).
  vm_compute. reflexivity.
Defined.

Lemma filter_all {A : Type} (f : A -> bool) (l : list A) :
  forallb f l = true -> filter f l = l.
Proof.
  induction l as [| a l IH]; cbn; [reflexivity |].
  intros H. apply andb_true_iff in H. destruct H as (-> & H).
  now rewrite IH.
Qed.

Lemma substring_all (s : string) : String.substring 0 (String.length s) s = s.
Proof. induction s as [| a s IH]; cbn; [reflexivity | now rewrite IH]. Qed.

Lemma digit_kept (c : ascii) :
  is_digit c = true -> negb (is_space c || Ascii.eqb c "-") = true.
Proof.
  intros H. destruct (digit_plain c H) as (-> & _ & ->). reflexivity.
Qed.

(** The national part of a number: 1 or 7, then eight digits. *)
Lemma kenyan_national_part (national : string) :
  kenyan_phone_regex_match ("+254" ++ national) = true ->
  exists first rest,
    national = String first rest /\
    (first = "1"%char \/ first = "7"%char) /\
    String.length rest = 8%nat /\
    forallb is_digit (list_ascii_of_string national) = true.
Proof.
  unfold kenyan_phone_regex_match. cbn [append list_ascii_of_string].
  destruct national as [| first rest]; [discriminate |].
  cbn [list_ascii_of_string]. intros H.
  apply andb_true_iff in H. destruct H as (H & Hdig).
  apply andb_true_iff in H. destruct H as (H & Hlen).
  apply andb_true_iff in H. destruct H as (_ & Hf).
  apply Nat.eqb_eq in Hlen. rewrite length_list_ascii_of_string in Hlen.
  exists first, rest. split; [reflexivity |].
  assert (F : first = "1"%char \/ first = "7"%char).
  { apply orb_true_iff in Hf. destruct Hf as [E | E];
      apply Ascii.eqb_eq in E; auto. }
  split; [exact F |]. split; [exact Hlen |].
  cbn [forallb]. rewrite Hdig.
  destruct F as [-> | ->]; reflexivity.
Qed.

Lemma remove_spaces_and_hyphens_fixed (s : string) :
  forallb (fun c => negb (is_space c || Ascii.eqb c "-"))
          (list_ascii_of_string s) = true ->
  remove_spaces_and_hyphens s = s.
Proof.
  intros H. unfold remove_spaces_and_hyphens.
  rewrite filter_all by exact H. apply string_of_list_ascii_of_string.
Qed.

Lemma forallb_cons_eq {A : Type} (f : A -> bool) (a : A) (l : list A) :
  forallb f (a :: l) = f a && forallb f l.
Proof. reflexivity. Qed.

Lemma prefix_cons (a b : ascii) (s1 s2 : string) :
  String.prefix (String a s1) (String b s2)
  = Ascii.eqb a b && String.prefix s1 s2.
Proof.
  cbn [String.prefix]. destruct (ascii_dec a b) as [-> | N].
  - now rewrite Ascii.eqb_refl.
  - apply Ascii.eqb_neq in N. now rewrite N.
Qed.

Lemma prefix_nil (s : string) : String.prefix EmptyString s = true.
Proof. destruct s; reflexivity. Qed.

Ltac prefix_simpl :=
  rewrite ?prefix_cons, ?prefix_nil;
  cbn [Ascii.eqb Bool.eqb andb orb negb].

Lemma phone_spellings (national : string) :
  kenyan_phone_regex_match ("+254" ++ national) = true ->
  validate_phone_number ("0" ++ national) = Accepted ("+254" ++ national)%string
  /\ validate_phone_number ("254" ++ national)
     = Accepted ("+254" ++ national)%string
  /\ validate_phone_number ("+254" ++ national)
     = Accepted ("+254" ++ national)%string.
Proof.
  intros Hm.
  destruct (kenyan_national_part national Hm)
    as (first & rest & -> & Hf & Hlen & Hdig).
  assert (P : forallb (fun c => negb (is_space c || Ascii.eqb c "-"))
                      (list_ascii_of_string (String first rest)) = true).
  { eapply forallb_weaken; [| exact Hdig]. apply digit_kept. }
  cbn [list_ascii_of_string] in P. cbn [append] in *.
  split; [| split]; unfold validate_phone_number; cbn [String.eqb].
  - rewrite remove_spaces_and_hyphens_fixed.
    2:{ cbn [list_ascii_of_string]. rewrite forallb_cons_eq, P. reflexivity. }
    prefix_simpl.
    replace (String.substring 1
               (String.length (String "0" (String first rest)) - 1)
               (String "0" (String first rest)))
      with (String first rest).
    + cbn [append]. rewrite Hm. reflexivity.
    + cbn [String.length Nat.sub String.substring].
      now rewrite substring_all.
  - rewrite remove_spaces_and_hyphens_fixed.
    2:{ cbn [list_ascii_of_string].
        change ("2"%char :: "5"%char :: "4"%char
                :: first :: list_ascii_of_string rest)
          with (["2"%char; "5"%char; "4"%char]
                ++ first :: list_ascii_of_string rest).
        rewrite forallb_app, P. reflexivity. }
    prefix_simpl. cbn [append].
    rewrite Hm. reflexivity.
  - rewrite remove_spaces_and_hyphens_fixed.
    2:{ cbn [list_ascii_of_string].
        change ("+"%char :: "2"%char :: "5"%char :: "4"%char
                :: first :: list_ascii_of_string rest)
          with (["+"%char; "2"%char; "5"%char; "4"%char]
                ++ first :: list_ascii_of_string rest).
        rewrite forallb_app, P. reflexivity. }
    prefix_simpl. cbn [append].
    rewrite Hm. reflexivity.
Qed.

Lemma kenyan_phone_shape (q : string) :
  kenyan_phone_regex_match q = true ->
  exists national, q = ("+254" ++ national)%string.
Proof.
  intros H. assert (H' := H). unfold kenyan_phone_regex_match in H'.
  destruct (list_ascii_of_string q) as [| p [| d2 [| d5 [| d4 [| f rest]]]]]
    eqn:El; try discriminate.
  apply andb_true_iff in H'. destruct H' as (H' & _).
  apply andb_true_iff in H'. destruct H' as (H' & _).
  apply andb_true_iff in H'. destruct H' as (H' & _).
  apply andb_true_iff in H'. destruct H' as (H' & H4).
  apply andb_true_iff in H'. destruct H' as (H' & H3).
  apply andb_true_iff in H'. destruct H' as (H1 & H2).
  apply Ascii.eqb_eq in H1, H2, H3, H4. subst p d2 d5 d4.
  exists (string_of_list_ascii (f :: rest)).
  rewrite <- (string_of_list_ascii_of_string q), El. reflexivity.
Qed.

(** X19. Phone numbers have one normal form: whatever
    [validate_phone_number] returns is +254, then 1 or 7, then eight
    digits (thirteen characters), and validates to itself; and the three
    accepted spellings of one number, local (leading 0), international
    without the plus sign, and international, all return that same
    string. *)
Theorem validate_phone_number_normalizes (input output national : string) :
  (validate_phone_number input = Accepted output ->
   kenyan_phone_regex_match output = true /\
   String.length output = 13%nat /\
   validate_phone_number output = Accepted output) /\
  (kenyan_phone_regex_match ("+254" ++ national) = true ->
   validate_phone_number ("0" ++ national)
   = Accepted ("+254" ++ national)%string /\
   validate_phone_number ("254" ++ national)
   = Accepted ("+254" ++ national)%string /\
   validate_phone_number ("+254" ++ national)
   = Accepted ("+254" ++ national)%string).
Proof.
  split; [| apply phone_spellings].
  intros H.
  assert (Hm : kenyan_phone_regex_match output = true).
  { unfold validate_phone_number in H.
    destruct (String.eqb input EmptyString); [discriminate |].
    match type of H with
    | match ?conv with _ => _ end = _ => destruct conv as [q |]
    end; [| discriminate].
    destruct (kenyan_phone_regex_match q) eqn:Em; [| discriminate].
    injection H as <-. exact Em. }
  split; [exact Hm |].
  destruct (kenyan_phone_shape output Hm) as (n & ->).
  split.
  - destruct (kenyan_national_part n Hm) as (f & rest & -> & _ & Hlen & _).
    cbn [append String.length]. now rewrite Hlen.
  - apply (phone_spellings n Hm).
Qed.

Lemma validate_phone_number_normalizes_witness :
  validate_phone_number "0712345678" = Accepted "+254712345678"%string /\
  validate_phone_number "254712345678" = Accepted "+254712345678"%string /\
  validate_phone_number "+254712345678" = Accepted "+254712345678"%string.
Proof.
  apply (proj2 (validate_phone_number_normalizes EmptyString EmptyString
                  "712345678")).
  vm_compute. reflexivity.
Defined.

(** *** Masking *)

Lemma substring_list (n m : nat) (s : string) :
  list_ascii_of_string (String.substring n m s)
  = firstn m (skipn n (list_ascii_of_string s)).
Proof.
  revert n m. induction s as [| c s IH]; intros n m.
  - destruct n, m; reflexivity.
  - destruct n as [| n].
    + destruct m as [| m]; [reflexivity |].
      cbn [String.substring list_ascii_of_string skipn firstn].
      now rewrite IH.
    + cbn [String.substring list_ascii_of_string skipn]. apply IH.
Qed.

Lemma string_eq_list (s1 s2 : string) :
  list_ascii_of_string s1 = list_ascii_of_string s2 -> s1 = s2.
Proof.
  intros H. rewrite <- (string_of_list_ascii_of_string s1), H.
  apply string_of_list_ascii_of_string.
Qed.

Lemma str_repeat_length (ch : ascii) (n : nat) :
  str_repeat ch (Z.of_nat n) = string_of_list_ascii (repeat ch n).
Proof. unfold str_repeat. now rewrite Nat2Z.id. Qed.

(** [s[-k:]] for [0 < k <= len(s)] is the last [k] characters. *)
Lemma slice_from_last (k : nat) (s : string) :
  (0 < k <= String.length s)%nat ->
  list_ascii_of_string (slice_from (- Z.of_nat k) s)
  = skipn (String.length s - k) (list_ascii_of_string s).
Proof.
  intros Hk. unfold slice_from, str_len.
  replace (- Z.of_nat k <? 0)%Z with true by (symmetry; apply Z.ltb_lt; lia).
  replace (Z.to_nat (Z.max (Z.of_nat (String.length s) + - Z.of_nat k) 0))
    with (String.length s - k)%nat by lia.
  rewrite substring_list. apply firstn_all2.
  rewrite length_skipn, length_list_ascii_of_string. lia.
Qed.

(** X20. What the masks show: [mask_pin] on five characters or more keeps
    the length, shows the first three and the last two characters and
    replaces every character in between by an asterisk (so a
    five-character input is returned unmasked); [mask_sensitive_data]
    with [0 < visible_chars < len(data)] keeps the length and shows the
    last [visible_chars] characters only; with [visible_chars = 0] it
    returns [len(data)] asterisks followed by the whole of [data]. *)
Theorem masks_show (s : string) (visible_chars : Z) :
  ((5 <= String.length s)%nat ->
   exists first middle last,
     s = (first ++ middle ++ last)%string /\
     String.length first = 3%nat /\ String.length last = 2%nat /\
     mask_pin s
     = (first ++ str_repeat "*" (str_len middle) ++ last)%string) /\
  ((0 < visible_chars < str_len s)%Z ->
   exists hidden shown,
     s = (hidden ++ shown)%string /\ str_len shown = visible_chars /\
     mask_sensitive_data s visible_chars
     = (str_repeat "*" (str_len hidden) ++ shown)%string) /\
  (s <> EmptyString ->
   mask_sensitive_data s 0 = (str_repeat "*" (str_len s) ++ s)%string).
Proof.
  set (l := list_ascii_of_string s).
  assert (Hl : List.length l = String.length s)
    by apply length_list_ascii_of_string.
  split; [| split].
  - intros H5.
    exists (string_of_list_ascii (firstn 3 l)),
           (string_of_list_ascii
              (firstn (String.length s - 5) (skipn 3 l))),
           (string_of_list_ascii (skipn (String.length s - 2) l)).
    assert (Hmid : List.length (firstn (String.length s - 5) (skipn 3 l))
                   = (String.length s - 5)%nat).
    { rewrite length_firstn, length_skipn. lia. }
    assert (Hdec : l = firstn 3 l
                       ++ firstn (String.length s - 5) (skipn 3 l)
                       ++ skipn (String.length s - 2) l).
    { rewrite <- (firstn_skipn 3 l) at 1. f_equal.
      rewrite <- (firstn_skipn (String.length s - 5) (skipn 3 l)) at 1.
      f_equal. rewrite skipn_skipn. f_equal. lia. }
    split; [| split; [| split]].
    + apply string_eq_list.
      rewrite !list_ascii_of_string_app, !list_ascii_of_string_of_list_ascii.
      exact Hdec.
    + rewrite length_string_of_list_ascii, length_firstn. lia.
    + rewrite length_string_of_list_ascii, length_skipn. lia.
    + unfold mask_pin, str_len.
      replace (String.eqb s EmptyString) with false.
      2:{ symmetry. apply String.eqb_neq. intros ->. cbn in H5. lia. }
      replace (Z.of_nat (String.length s) <? 5)%Z with false
        by (symmetry; apply Z.ltb_ge; lia).
      cbn [orb]. apply string_eq_list.
      rewrite !list_ascii_of_string_app.
      rewrite length_string_of_list_ascii, Hmid.
      replace (Z.of_nat (String.length s) - 5)%Z
        with (Z.of_nat (String.length s - 5)) by lia.
      change (-2)%Z with (- Z.of_nat 2)%Z.
      rewrite slice_from_last by lia.
      unfold slice_to. rewrite substring_list.
      rewrite !list_ascii_of_string_of_list_ascii.
      replace (Nat.min 3 (String.length s)) with 3%nat by lia.
      reflexivity.
  - intros Hv. unfold str_len in Hv.
    set (k := Z.to_nat visible_chars).
    assert (Hk : visible_chars = Z.of_nat k) by lia.
    exists (string_of_list_ascii (firstn (String.length s - k) l)),
           (string_of_list_ascii (skipn (String.length s - k) l)).
    split; [| split].
    + apply string_eq_list.
      rewrite list_ascii_of_string_app, !list_ascii_of_string_of_list_ascii.
      symmetry. apply firstn_skipn.
    + unfold str_len. rewrite length_string_of_list_ascii, length_skipn. lia.
    + unfold mask_sensitive_data, str_len.
      replace (String.eqb s EmptyString) with false.
      2:{ symmetry. apply String.eqb_neq. intros ->. cbn in Hv. lia. }
      replace (Z.of_nat (String.length s) <=? visible_chars)%Z with false
        by (symmetry; apply Z.leb_gt; lia).
      cbn [orb]. apply string_eq_list.
      rewrite !list_ascii_of_string_app.
      rewrite length_string_of_list_ascii, length_firstn.
      rewrite Hk, slice_from_last by lia.
      rewrite !list_ascii_of_string_of_list_ascii.
      replace (Z.of_nat (String.length s) - Z.of_nat k)%Z
        with (Z.of_nat (Nat.min (String.length s - k) (List.length l)))
        by lia.
      reflexivity.
  - intros Hne. unfold mask_sensitive_data, str_len.
    replace (String.eqb s EmptyString) with false
      by (symmetry; now apply String.eqb_neq).
    replace (Z.of_nat (String.length s) <=? 0)%Z with false.
    2:{ symmetry. apply Z.leb_gt. destruct s; [contradiction | cbn; lia]. }
    cbn [orb]. f_equal.
    + f_equal. lia.
    + unfold slice_from, str_len. cbn [Z.opp Z.ltb Z.compare].
      replace (Z.to_nat (Z.min 0 (Z.of_nat (String.length s)))) with 0%nat
        by lia.
      rewrite Nat.sub_0_r. apply substring_all.
Qed.

Lemma masks_show_witness :
  mask_sensitive_data "secret" 0 = "******secret"%string.
Proof.
  apply (proj2 (proj2 (masks_show "secret" 0))).
  discriminate.
Defined.

(** ** Client *)








